(** * lms-backend: credential and instructor-application lifecycle

    A shallow embedding of the request handlers of
    [controllers/authController.js] (registerUser, loginUser,
    forgotPassword, changePassword, getUserProfile) and of the
    instructor-application controller (submitApplication, getApplications,
    getApplicationById, approveApplication, rejectApplication,
    deleteApplication), together with the Mongoose schema of
    [models/instructorApplicationModel.js].

    Conventions.
    - A handler is a function from the per-request environment, the request
      and the current [World] to an [Outcome] and the next [World].
    - [Threw c m] is an exception with message [m] leaving the handler while
      [res.statusCode] is [c] (200 when [res.status] was never called);
      [Responded c j] is [res.status(c).json(j)].
    - ObjectIds are natural numbers drawn from a counter; dates are natural
      numbers; strings are sequences of 8-bit code units.
    - An [await] completes before the next statement runs, except where a
      development below explicitly interleaves two requests. *)

From Stdlib Require Import String Ascii List ZArith Bool Lia PeanoNat.
From Stdlib Require Import Sorted Permutation.
Import ListNotations.
Local Open Scope string_scope.
Local Open Scope list_scope.

(* ------------------------------------------------------------------ *)
(** ** JavaScript strings *)

Module Str.

Definition code (c : ascii) : nat := nat_of_ascii c.

Definition between (lo hi : nat) (c : ascii) : bool :=
  (lo <=? code c)%nat && (code c <=? hi)%nat.

Definition is_upper : ascii -> bool := between 65 90.
Definition is_lower : ascii -> bool := between 97 122.
Definition is_digit : ascii -> bool := between 48 57.

(** White space removed by [String.prototype.trim], as far as it lives in
    the code units 0 to 255: TAB, LF, VT, FF, CR, SPACE and the no-break
    space U+00A0. *)
Definition is_space (c : ascii) : bool :=
  between 9 13 c || (code c =? 32)%nat || (code c =? 160)%nat.

(** [String.prototype.toLowerCase] on the code units 0 to 255: [A-Z], and
    the capitals U+00C0 to U+00DE without the multiplication sign U+00D7,
    each 32 below its small letter. *)
Definition lower_char (c : ascii) : ascii :=
  if is_upper c || between 192 214 c || between 216 222 c
  then ascii_of_nat (code c + 32)
  else c.

Fixpoint toLowerCase (s : string) : string :=
  match s with
  | EmptyString => EmptyString
  | String c r => String (lower_char c) (toLowerCase r)
  end.

Fixpoint trimStart (s : string) : string :=
  match s with
  | EmptyString => EmptyString
  | String c r => if is_space c then trimStart r else s
  end.

Fixpoint rev_onto (s acc : string) : string :=
  match s with
  | EmptyString => acc
  | String c r => rev_onto r (String c acc)
  end.

Definition reverse (s : string) : string := rev_onto s EmptyString.

Definition trimEnd (s : string) : string := reverse (trimStart (reverse s)).

Definition trim (s : string) : string := trimEnd (trimStart s).

(** JavaScript truthiness of a string, and [a || b] on optional strings
    ([None] is [undefined]). *)
Definition truthy (s : string) : bool := negb (s =? "").

Definition or_else (a b : option string) : option string :=
  match a with
  | Some s => if truthy s then a else b
  | None => b
  end.

Fixpoint join (sep : string) (l : list string) : string :=
  match l with
  | [] => ""
  | [s] => s
  | s :: r => s ++ sep ++ join sep r
  end.

End Str.

(* ------------------------------------------------------------------ *)
(** ** Regular expressions of the schema's [match] validators

    The patterns of the schema are all anchored ([^...$], no flags), so
    [RegExp.prototype.test] is a whole-string match; it is decided by
    Brzozowski derivatives. *)

Module Regex.

Inductive re : Type :=
| Void
| Eps
| Sym (p : ascii -> bool)
| Cat (r s : re)
| Alt (r s : re)
| Star (r : re).

Fixpoint nullable (r : re) : bool :=
  match r with
  | Void => false
  | Eps => true
  | Sym _ => false
  | Cat a b => nullable a && nullable b
  | Alt a b => nullable a || nullable b
  | Star _ => true
  end.

(** Constructors that drop the dead branches a derivative creates. *)
Definition cat (a b : re) : re :=
  match a, b with
  | Void, _ => Void
  | _, Void => Void
  | Eps, _ => b
  | _, _ => Cat a b
  end.

Definition alt (a b : re) : re :=
  match a, b with
  | Void, _ => b
  | _, Void => a
  | _, _ => Alt a b
  end.

Fixpoint deriv (c : ascii) (r : re) : re :=
  match r with
  | Void => Void
  | Eps => Void
  | Sym p => if p c then Eps else Void
  | Cat a b =>
      if nullable a then alt (cat (deriv c a) b) (deriv c b)
      else cat (deriv c a) b
  | Alt a b => alt (deriv c a) (deriv c b)
  | Star a => cat (deriv c a) (Star a)
  end.

Fixpoint test (r : re) (s : string) : bool :=
  match s with
  | EmptyString => nullable r
  | String c t => test (deriv c r) t
  end.

Definition chr (c : ascii) : re := Sym (Ascii.eqb c).
Definition opt (r : re) : re := Alt Eps r.
Definition plus (r : re) : re := Cat r (Star r).

Fixpoint lit (s : string) : re :=
  match s with
  | EmptyString => Eps
  | String c t => Cat (chr c) (lit t)
  end.

(** [\w] is [[A-Za-z0-9_]]. *)
Definition word (c : ascii) : bool :=
  Str.is_upper c || Str.is_lower c || Str.is_digit c || (Str.code c =? 95)%nat.

(** [.] is any code unit but a line terminator. *)
Definition dot (c : ascii) : bool :=
  negb ((Str.code c =? 10)%nat || (Str.code c =? 13)%nat).

Definition dot_or_dash (c : ascii) : bool :=
  (Str.code c =? 46)%nat || (Str.code c =? 45)%nat.

(** [\w+([.-]?\w+)*] *)
Definition words : re :=
  Cat (plus (Sym word)) (Star (Cat (opt (Sym dot_or_dash)) (plus (Sym word)))).

(** [/^\w+([.-]?\w+)*@\w+([.-]?\w+)*(\.\w{2,3})+$/] *)
Definition email_pattern : re :=
  Cat words
    (Cat (chr "@")
       (Cat words
          (plus (Cat (chr ".")
                    (Cat (Sym word) (Cat (Sym word) (opt (Sym word)))))))).

(** [https?:\/\/] *)
Definition scheme : re := Cat (lit "http") (Cat (opt (chr "s")) (lit "://")).

(** [/^https?:\/\/(www\.)?linkedin\.com\/.*$/] *)
Definition linkedin_pattern : re :=
  Cat scheme (Cat (opt (lit "www.")) (Cat (lit "linkedin.com/") (Star (Sym dot)))).

(** [/^https?:\/\/(www\.)?github\.com\/.*$/] *)
Definition github_pattern : re :=
  Cat scheme (Cat (opt (lit "www.")) (Cat (lit "github.com/") (Star (Sym dot)))).

(** [/^https?:\/\/.*$/] *)
Definition url_pattern : re := Cat scheme (Star (Sym dot)).

End Regex.

(* ------------------------------------------------------------------ *)
(** ** JSON values sent by [res.json] *)

Local Unset Elimination Schemes.

Inductive Json : Type :=
| JNull
| JBool (b : bool)
| JNum (z : Z)
| JStr (s : string)
| JId (oid : nat)
| JArr (l : list Json)
| JObj (fields : list (string * Json)).

Local Set Elimination Schemes.

(** Property lookup on an object. *)
Fixpoint assoc (k : string) (l : list (string * Json)) : option Json :=
  match l with
  | [] => None
  | (k', v) :: r => if k' =? k then Some v else assoc k r
  end.

Definition get (k : string) (j : Json) : option Json :=
  match j with
  | JObj l => assoc k l
  | _ => None
  end.

Definition has_key (k : string) (j : Json) : bool :=
  match get k j with Some _ => true | None => false end.

(** A property whose value is [undefined] is not serialised. *)
Definition field (k : string) (v : option Json) : list (string * Json) :=
  match v with Some j => [(k, j)] | None => [] end.

Inductive Outcome : Type :=
| Responded (statusCode : nat) (body : Json)
| Threw (statusCode : nat) (message : string).

Definition succeeded (o : Outcome) : bool :=
  match o with Responded _ _ => true | Threw _ _ => false end.

(* ------------------------------------------------------------------ *)
(** ** Data model *)

(** The [profile] sub-document; the three URLs are optional. *)
Record Profile : Type := mkProfile {
  bio : string;
  expertise : string;
  experience : string;
  education : string;
  linkedinUrl : option string;
  githubUrl : option string;
  portfolioUrl : option string
}.

(** An InstructorApplication document, field for field as in
    [instructorApplicationSchema] (with [timestamps: true]). *)
Module App.

Record t : Type := mk {
  _id : nat;
  name : string;
  email : string;
  password : string;
  profile : Profile;
  status : string;
  approvedBy : option nat;
  approvedAt : option nat;
  rejectedBy : option nat;
  rejectedAt : option nat;
  rejectionReason : option string;
  createdAt : nat;
  updatedAt : nat
}.

Definition with_password (v : string) (a : t) : t :=
  mk (_id a) (name a) (email a) v (profile a) (status a) (approvedBy a)
     (approvedAt a) (rejectedBy a) (rejectedAt a) (rejectionReason a)
     (createdAt a) (updatedAt a).

Definition with_status (v : string) (a : t) : t :=
  mk (_id a) (name a) (email a) (password a) (profile a) v (approvedBy a)
     (approvedAt a) (rejectedBy a) (rejectedAt a) (rejectionReason a)
     (createdAt a) (updatedAt a).

Definition with_approvedBy (v : option nat) (a : t) : t :=
  mk (_id a) (name a) (email a) (password a) (profile a) (status a) v
     (approvedAt a) (rejectedBy a) (rejectedAt a) (rejectionReason a)
     (createdAt a) (updatedAt a).

Definition with_approvedAt (v : option nat) (a : t) : t :=
  mk (_id a) (name a) (email a) (password a) (profile a) (status a)
     (approvedBy a) v (rejectedBy a) (rejectedAt a) (rejectionReason a)
     (createdAt a) (updatedAt a).

Definition with_rejectedBy (v : option nat) (a : t) : t :=
  mk (_id a) (name a) (email a) (password a) (profile a) (status a)
     (approvedBy a) (approvedAt a) v (rejectedAt a) (rejectionReason a)
     (createdAt a) (updatedAt a).

Definition with_rejectedAt (v : option nat) (a : t) : t :=
  mk (_id a) (name a) (email a) (password a) (profile a) (status a)
     (approvedBy a) (approvedAt a) (rejectedBy a) v (rejectionReason a)
     (createdAt a) (updatedAt a).

Definition with_rejectionReason (v : option string) (a : t) : t :=
  mk (_id a) (name a) (email a) (password a) (profile a) (status a)
     (approvedBy a) (approvedAt a) (rejectedBy a) (rejectedAt a) v
     (createdAt a) (updatedAt a).

Definition with_updatedAt (v : nat) (a : t) : t :=
  mk (_id a) (name a) (email a) (password a) (profile a) (status a)
     (approvedBy a) (approvedAt a) (rejectedBy a) (rejectedAt a)
     (rejectionReason a) (createdAt a) v.

End App.

(** A User document.  [models/userModel.js] is not part of the sources at
    hand; the fields are those the two controllers read and write. *)
Module User.

Record t : Type := mk {
  _id : nat;
  name : string;
  email : string;
  password : string;
  role : string;
  isAdmin : bool;
  isInstructor : bool;
  isTemporaryPassword : bool;
  profile : option Profile
}.

Definition with_password (v : string) (u : t) : t :=
  mk (_id u) (name u) (email u) v (role u) (isAdmin u) (isInstructor u)
     (isTemporaryPassword u) (profile u).

Definition with_isTemporaryPassword (v : bool) (u : t) : t :=
  mk (_id u) (name u) (email u) (password u) (role u) (isAdmin u)
     (isInstructor u) v (profile u).

End User.

(** A message handed to [transporter.sendMail].  [values] are the values
    interpolated into the [html] template, in order of appearance; the fixed
    text of the template is left out. *)
Record Mail : Type := mkMail {
  from : option string;
  to : option string;
  subject : string;
  values : list string
}.

(** The two collections, the ObjectId counter, the messages accepted by the
    mail transport and the lines written by [console.error]. *)
Record World : Type := mkWorld {
  users : list User.t;
  applications : list App.t;
  next_oid : nat;
  outbox : list Mail;
  console : list string
}.

Definition with_users (v : list User.t) (w : World) : World :=
  mkWorld v (applications w) (next_oid w) (outbox w) (console w).

Definition with_applications (v : list App.t) (w : World) : World :=
  mkWorld (users w) v (next_oid w) (outbox w) (console w).

Definition with_next_oid (v : nat) (w : World) : World :=
  mkWorld (users w) (applications w) v (outbox w) (console w).

Definition with_outbox (v : list Mail) (w : World) : World :=
  mkWorld (users w) (applications w) (next_oid w) v (console w).

Definition with_console (v : list string) (w : World) : World :=
  mkWorld (users w) (applications w) (next_oid w) (outbox w) v.

(** What a request finds outside the two collections: the clock
    ([new Date()]), the salt [bcrypt.genSalt(10)] draws, whether
    [transporter.sendMail] rejects (and with what), the string
    [Math.random().toString(36).slice(-8)] evaluates to, and the three
    [process.env] entries the handlers read. *)
Record Env : Type := mkEnv {
  now : nat;
  salt : string;
  sendMail_error : option string;
  random_password : string;
  EMAIL_USER : option string;
  ADMIN_EMAIL : option string;
  FRONTEND_URL : option string
}.

(** Request bodies and query strings, after the body parser. *)
Record SubmitBody : Type := mkSubmitBody {
  sb_name : string;
  sb_email : string;
  sb_password : string;
  sb_profile : Profile
}.

Record LoginBody : Type := mkLoginBody {
  lb_email : string;
  lb_password : string;
  lb_isTemporaryPassword : option bool
}.

Record ForgotBody : Type := mkForgotBody {
  fb_email : string
}.

Record ListQuery : Type := mkListQuery {
  q_page : option string;
  q_limit : option string;
  q_status : option string
}.

(** The libraries the handlers call into.  [Joi_*] is the verdict of
    [schema.validate(req.body)] for the schema literal of the handler:
    [Some m] when [error] is set, [m] being [error.details[0].message].
    [ValidationError_message] is the message of the error Mongoose throws
    for the failing paths of a document, each with the message of its
    validator; the order in which the text names the paths is Mongoose's
    own. *)
Class Platform : Type := {
  bcrypt_hash : string -> string -> string;
  bcrypt_compare : string -> string -> bool;
  jwt_sign : nat -> string -> string;
  Joi_submit : SubmitBody -> option string;
  Joi_login : LoginBody -> option string;
  Joi_forgot : ForgotBody -> option string;
  ValidationError_message : list (string * string) -> string
}.

(** The contract of the credential vault: a secret verifies against its own
    hash and against the hash of no other secret. *)
Class Vault (P : Platform) : Prop := {
  compare_hash : forall s salt, bcrypt_compare s (bcrypt_hash s salt) = true;
  compare_other : forall s s' salt,
    s <> s' -> bcrypt_compare s (bcrypt_hash s' salt) = false
}.

(* ------------------------------------------------------------------ *)
(** ** Small JavaScript helpers *)

Definition opt_nat_eqb (a b : option nat) : bool :=
  match a, b with
  | Some x, Some y => (x =? y)%nat
  | None, None => true
  | _, _ => false
  end.

Definition opt_string_eqb (a b : option string) : bool :=
  match a, b with
  | Some x, Some y => x =? y
  | None, None => true
  | _, _ => false
  end.

(** [parseInt(s)] without a radix: leading white space, a sign, an optional
    [0x] prefix, then the longest run of digits; [None] is [NaN].  The value
    is the integer the digits denote; the Number the code computes with is
    that integer as long as it is a safe integer (at most [2^53 - 1] in
    absolute value), which the statements about pages assume. *)
Definition digit_value (c : ascii) : option Z :=
  if Str.is_digit c then Some (Z.of_nat (Str.code c - 48))
  else if Str.is_lower c then Some (Z.of_nat (Str.code c - 87))
  else if Str.is_upper c then Some (Z.of_nat (Str.code c - 55))
  else None.

Fixpoint digits (radix : Z) (s : string) (acc : option Z) : option Z :=
  match s with
  | EmptyString => acc
  | String c r =>
      match digit_value c with
      | Some d =>
          if (d <? radix)%Z
          then digits radix r
                 (Some (radix * match acc with Some a => a | None => 0 end + d)%Z)
          else acc
      | None => acc
      end
  end.

Definition unsigned (s : string) : option Z :=
  match s with
  | String "0" (String "x" r) => digits 16 r None
  | String "0" (String "X" r) => digits 16 r None
  | _ => digits 10 s None
  end.

Definition parseInt (s : option string) : option Z :=
  match s with
  | None => None
  | Some s =>
      match Str.trimStart s with
      | String "-" r => option_map Z.opp (unsigned r)
      | String "+" r => unsigned r
      | r => unsigned r
      end
  end.

(** [parseInt(s) || d]: [NaN] and [0] are falsy. *)
Definition parseInt_or (s : option string) (d : Z) : Z :=
  match parseInt s with
  | Some z => if (z =? 0)%Z then d else z
  | None => d
  end.

(** [Math.ceil(a / b)] on integers, [b] not zero. *)
Definition ceil_div (a b : Z) : Z := (- ((- a) / b))%Z.

(* ------------------------------------------------------------------ *)
(** ** The InstructorApplication schema *)

(** The [trim] and [lowercase] setters of the [email] path; Mongoose runs
    them on assigned values and on query filters alike. *)
Definition normalize (email : string) : string :=
  Str.toLowerCase (Str.trim email).

Definition trim_profile (p : Profile) : Profile :=
  mkProfile (Str.trim (bio p)) (Str.trim (expertise p)) (experience p)
    (Str.trim (education p)) (option_map Str.trim (linkedinUrl p))
    (option_map Str.trim (githubUrl p)) (option_map Str.trim (portfolioUrl p)).

Definition experience_enum : list string :=
  ["1-2 years"; "3-5 years"; "6-10 years"; "10+ years"].

Definition status_enum : list string := ["pending"; "approved"; "rejected"].

Definition mem (s : string) (l : list string) : bool := existsb (String.eqb s) l.

(** Validators report one error per path: the first that fails.  The
    failing paths are collected here in the order of the schema; only which
    paths fail, and with which message, is used of the list. *)
Definition ValidatorError : Type := (string * string)%type.

Definition required (path msg v : string) (rest : list ValidatorError)
  : list ValidatorError :=
  if v =? "" then [(path, msg)] else rest.

(** A [match] validator passes on [undefined] and on the empty string. *)
Definition matching (path msg : string) (r : Regex.re) (v : option string)
  : list ValidatorError :=
  match v with
  | Some s => if (s =? "") || Regex.test r s then [] else [(path, msg)]
  | None => []
  end.

Definition enum (path : string) (allowed : list string) (v : string)
  : list ValidatorError :=
  if mem v allowed then []
  else [(path,
         ("`" ++ v ++ "` is not a valid enum value for path `" ++ path ++ "`.")%string)].

Definition minlength (path msg : string) (n : nat) (v : string)
  : list ValidatorError :=
  if (String.length v <? n)%nat then [(path, msg)] else [].

Definition validate (a : App.t) : list ValidatorError :=
  let p := App.profile a in
  required "name" "Please add a name" (App.name a) []
  ++ required "email" "Please add an email" (App.email a)
       (matching "email" "Please add a valid email" Regex.email_pattern
          (Some (App.email a)))
  ++ required "password" "Please add a password" (App.password a)
       (minlength "password" "Password must be at least 6 characters" 6
          (App.password a))
  ++ required "profile.bio" "Please add a bio" (bio p) []
  ++ required "profile.expertise" "Please add your areas of expertise"
       (expertise p) []
  ++ required "profile.experience" "Please add your experience level"
       (experience p) (enum "profile.experience" experience_enum (experience p))
  ++ required "profile.education" "Please add your education background"
       (education p) []
  ++ matching "profile.linkedinUrl" "Please add a valid LinkedIn URL"
       Regex.linkedin_pattern (linkedinUrl p)
  ++ matching "profile.githubUrl" "Please add a valid GitHub URL"
       Regex.github_pattern (githubUrl p)
  ++ matching "profile.portfolioUrl" "Please add a valid URL"
       Regex.url_pattern (portfolioUrl p)
  ++ enum "status" status_enum (App.status a).

(** The text of a ValidationError that names the paths in the order
    given. *)
Definition validation_message (errs : list ValidatorError) : string :=
  ("InstructorApplication validation failed: "
   ++ Str.join ", " (map (fun e => fst e ++ ": " ++ snd e) errs))%string.

Definition E11000 : string := "E11000 duplicate key error".

Definition DocumentNotFound : string := "No document found for query".

(** A hydrated document: the field values in memory and the paths assigned
    since it was loaded. *)
Record Document : Type := mkDocument {
  cur : App.t;
  modified : list string
}.

Definition isModified (path : string) (d : Document) : bool :=
  mem path (modified d).

(** Assignment to a path: the document is marked only when the value
    changes. *)
Definition assign (path : string) (same : bool) (f : App.t -> App.t)
    (d : Document) : Document :=
  if same then d
  else mkDocument (f (cur d))
         (if isModified path d then modified d else modified d ++ [path]).

Definition set_password (v : string) (d : Document) : Document :=
  assign "password" (App.password (cur d) =? v) (App.with_password v) d.

Definition set_status (v : string) (d : Document) : Document :=
  assign "status" (App.status (cur d) =? v) (App.with_status v) d.

Definition set_approvedBy (v : option nat) (d : Document) : Document :=
  assign "approvedBy" (opt_nat_eqb (App.approvedBy (cur d)) v)
    (App.with_approvedBy v) d.

Definition set_approvedAt (v : option nat) (d : Document) : Document :=
  assign "approvedAt" (opt_nat_eqb (App.approvedAt (cur d)) v)
    (App.with_approvedAt v) d.

Definition set_rejectedBy (v : option nat) (d : Document) : Document :=
  assign "rejectedBy" (opt_nat_eqb (App.rejectedBy (cur d)) v)
    (App.with_rejectedBy v) d.

Definition set_rejectedAt (v : option nat) (d : Document) : Document :=
  assign "rejectedAt" (opt_nat_eqb (App.rejectedAt (cur d)) v)
    (App.with_rejectedAt v) d.

Definition set_rejectionReason (v : option string) (d : Document) : Document :=
  let v := option_map Str.trim v in
  assign "rejectionReason" (opt_string_eqb (App.rejectionReason (cur d)) v)
    (App.with_rejectionReason v) d.

(** [$set] of one modified path: the stored document takes the value the
    document in memory has at that path. *)
Definition copy_path (src : App.t) (path : string) (dst : App.t) : App.t :=
  if path =? "password" then App.with_password (App.password src) dst
  else if path =? "status" then App.with_status (App.status src) dst
  else if path =? "approvedBy" then App.with_approvedBy (App.approvedBy src) dst
  else if path =? "approvedAt" then App.with_approvedAt (App.approvedAt src) dst
  else if path =? "rejectedBy" then App.with_rejectedBy (App.rejectedBy src) dst
  else if path =? "rejectedAt" then App.with_rejectedAt (App.rejectedAt src) dst
  else if path =? "rejectionReason"
       then App.with_rejectionReason (App.rejectionReason src) dst
  else dst.

(** [updateOne({ _id }, ...)]: the first document with that [_id]; [None]
    when there is none. *)
Fixpoint updateOne (id : nat) (f : App.t -> App.t) (l : list App.t)
  : option (list App.t) :=
  match l with
  | [] => None
  | a :: r =>
      if (App._id a =? id)%nat then Some (f a :: r)
      else option_map (cons a) (updateOne id f r)
  end.

Fixpoint deleteOne (id : nat) (l : list App.t) : list App.t :=
  match l with
  | [] => []
  | a :: r => if (App._id a =? id)%nat then r else a :: deleteOne id r
  end.

Definition InstructorApplication_findOne (email : string) (w : World)
  : option App.t :=
  find (fun a => App.email a =? normalize email) (applications w).

Definition InstructorApplication_findById (id : nat) (w : World)
  : option Document :=
  option_map (fun a => mkDocument a [])
    (find (fun a => (App._id a =? id)%nat) (applications w)).

(** Serialisation of a document, and the projection [select('-password')]. *)
Definition profile_json (p : Profile) : Json :=
  JObj ([("bio", JStr (bio p)); ("expertise", JStr (expertise p));
         ("experience", JStr (experience p)); ("education", JStr (education p))]
        ++ field "linkedinUrl" (option_map JStr (linkedinUrl p))
        ++ field "githubUrl" (option_map JStr (githubUrl p))
        ++ field "portfolioUrl" (option_map JStr (portfolioUrl p))).

Definition toJSON (a : App.t) : Json :=
  JObj ([("_id", JId (App._id a)); ("name", JStr (App.name a));
         ("email", JStr (App.email a)); ("password", JStr (App.password a));
         ("profile", profile_json (App.profile a));
         ("status", JStr (App.status a))]
        ++ field "approvedBy" (option_map JId (App.approvedBy a))
        ++ field "approvedAt" (option_map (fun d => JNum (Z.of_nat d)) (App.approvedAt a))
        ++ field "rejectedBy" (option_map JId (App.rejectedBy a))
        ++ field "rejectedAt" (option_map (fun d => JNum (Z.of_nat d)) (App.rejectedAt a))
        ++ field "rejectionReason" (option_map JStr (App.rejectionReason a))
        ++ [("createdAt", JNum (Z.of_nat (App.createdAt a)));
            ("updatedAt", JNum (Z.of_nat (App.updatedAt a)));
            ("__v", JNum 0)]).

Definition select_minus (path : string) (j : Json) : Json :=
  match j with
  | JObj l => JObj (filter (fun kv => negb (fst kv =? path)) l)
  | _ => j
  end.

(** [sort({ createdAt: -1 })]; documents of equal date keep their order. *)
Fixpoint insert_desc (a : App.t) (l : list App.t) : list App.t :=
  match l with
  | [] => [a]
  | b :: r =>
      if (App.createdAt b <=? App.createdAt a)%nat then a :: l
      else b :: insert_desc a r
  end.

Definition sort_createdAt_desc (l : list App.t) : list App.t :=
  fold_right insert_desc [] l.

(** The query filter of [getApplications]: [{}] or [{ status }]. *)
Definition matches_filter (status : option string) (a : App.t) : bool :=
  match status with
  | Some s => App.status a =? s
  | None => true
  end.

(** The object literal handed to [InstructorApplication.create]. *)
Record NewApplication : Type := mkNewApplication {
  na_name : string;
  na_email : string;
  na_password : string;
  na_profile : Profile;
  na_status : string
}.

(** The object literal handed to [User.create] by [approveApplication]. *)
Record NewUser : Type := mkNewUser {
  nu_name : string;
  nu_email : string;
  nu_password : string;
  nu_isInstructor : bool;
  nu_role : string;
  nu_profile : option Profile
}.

(** A hydrated User document, with the paths assigned since it was loaded. *)
Record UserDocument : Type := mkUserDocument {
  ucur : User.t;
  umodified : list string
}.

Definition user_assign (path : string) (f : User.t -> User.t)
    (d : UserDocument) : UserDocument :=
  mkUserDocument (f (ucur d))
    (if mem path (umodified d) then umodified d else umodified d ++ [path]).

Definition user_set_password (v : string) (d : UserDocument) : UserDocument :=
  user_assign "password" (User.with_password v) d.

Definition user_set_isTemporaryPassword (v : bool) (d : UserDocument)
  : UserDocument :=
  user_assign "isTemporaryPassword" (User.with_isTemporaryPassword v) d.

Fixpoint replaceOne (u : User.t) (l : list User.t) : option (list User.t) :=
  match l with
  | [] => None
  | x :: r =>
      if (User._id x =? User._id u)%nat then Some (u :: r)
      else option_map (cons x) (replaceOne u r)
  end.

(** [new InstructorApplication(fields)]: the setters of the schema applied
    to the fields, a fresh [_id], both timestamps. *)
Definition new_document (id date : nat) (c : NewApplication) : App.t :=
  App.mk id (Str.trim (na_name c)) (normalize (na_email c))
    (na_password c) (trim_profile (na_profile c)) (na_status c)
    None None None None None date date.

(** The transport and the console. *)
Definition sendMail (e : Env) (m : Mail) (w : World) : string + World :=
  match sendMail_error e with
  | Some err => inl err
  | None => inr (with_outbox (outbox w ++ [m]) w)
  end.

Definition console_error (label err : string) (w : World) : World :=
  with_console (console w ++ [(label ++ " " ++ err)%string]) w.

(** [try { await transporter.sendMail(m) } catch (error) { console.error(label, error) }] *)
Definition notify (e : Env) (label : string) (m : Mail) (w : World) : World :=
  match sendMail e m w with
  | inr w' => w'
  | inl err => console_error label err w
  end.

(** [a || false] on an optional boolean. *)
Definition or_false (a : option bool) : bool :=
  match a with Some b => b | None => false end.

Section Handlers.

Context {P : Platform}.

(** *** models/instructorApplicationModel.js *)

(** The [pre('save')] hook, as far as the write that follows sees it.
    When the password was assigned, the hook hashes it and the write goes on
    once the hook has settled.  When it was not,
    [if (!this.isModified('password')) { next(); }] hands over to the write
    at once, with the paths modified so far; the guard has no [return], so
    the two hashing statements still run, but on the document in memory
    only, after the write was prepared, and no handler reads the password
    of a document it has saved. *)
Definition pre_save (e : Env) (d : Document) : Document :=
  if isModified "password" d
  then set_password (bcrypt_hash (App.password (cur d)) (salt e)) d
  else d.

(** [doc.save()] on a loaded document: the hook, then a [$set] of the
    modified paths (and of [updatedAt]) on the stored document of the same
    [_id]. *)
Definition save (e : Env) (d : Document) (w : World)
  : (string + Document) * World :=
  let d := pre_save e d in
  match modified d with
  | [] => (inr d, w)
  | paths =>
      let set a := App.with_updatedAt (now e) (fold_right (copy_path (cur d)) a paths) in
      match updateOne (App._id (cur d)) set (applications w) with
      | None => (inl DocumentNotFound, w)
      | Some l =>
          (inr (mkDocument (App.with_updatedAt (now e) (cur d)) []),
           with_applications l w)
      end
  end.

(** [InstructorApplication.create(fields)]: setters, validation, the
    hook (every path of a new document is modified), then the insert under
    the unique index on [email]. *)
Definition InstructorApplication_create (e : Env) (c : NewApplication)
    (w : World) : (string + App.t) * World :=
  let a := new_document (next_oid w) (now e) c in
  match validate a with
  | (_ :: _) as errs => (inl (ValidationError_message errs), w)
  | [] =>
      let a := cur (pre_save e (mkDocument a ["password"])) in
      if existsb (fun b => App.email b =? App.email a) (applications w)
      then (inl E11000, w)
      else (inr a,
            with_next_oid (S (next_oid w))
              (with_applications (applications w ++ [a]) w))
  end.

(** *** models/userModel.js (absent) *)

(** Modelled from the spec: [User.findOne({ email })] of the absent
    userModel.js, after 4.3 findByEmail: "case-insensitive, exact match
    after trim/lowercase normalization". *)
Definition User_findOne (email : string) (w : World) : option UserDocument :=
  option_map (fun u => mkUserDocument u [])
    (find (fun u => User.email u =? normalize email) (users w)).

(** Modelled from the spec: [User.create(fields)] of the absent
    userModel.js, after 4.3 create: "fails with DuplicateKey if the unique
    email index is violated", and after 4.4 Approve: the Identity is
    created "using the Application's name/email/secret-hash/profile". *)
Definition User_create (c : NewUser) (w : World)
  : (string + User.t) * World :=
  let u :=
    User.mk (next_oid w) (nu_name c) (normalize (nu_email c)) (nu_password c)
      (nu_role c) false (nu_isInstructor c) false (nu_profile c) in
  if existsb (fun x => User.email x =? User.email u) (users w)
  then (inl E11000, w)
  else (inr u, with_next_oid (S (next_oid w)) (with_users (users w ++ [u]) w)).

(** Modelled from the spec: [user.save()] of the absent userModel.js,
    after 4.3 update and 4.5 ForgotSecret: the assigned secret is "hashed
    and stored". *)
Definition User_save (e : Env) (d : UserDocument) (w : World)
  : (string + UserDocument) * World :=
  let u :=
    if mem "password" (umodified d)
    then User.with_password (bcrypt_hash (User.password (ucur d)) (salt e)) (ucur d)
    else ucur d in
  match replaceOne u (users w) with
  | None => (inl DocumentNotFound, w)
  | Some l => (inr (mkUserDocument u []), with_users l w)
  end.

(** Modelled from the spec: [user.matchPassword(entered)] of the absent
    userModel.js, after 4.1 verify. *)
Definition matchPassword (u : User.t) (entered : string) : bool :=
  bcrypt_compare entered (User.password u).

(** Modelled from the spec: [user.generateToken()] of the absent
    userModel.js, after 4.2 issue: a token "binding identity id and
    role". *)
Definition generateToken (u : User.t) : string :=
  jwt_sign (User._id u) (User.role u).

(** *** The instructor-application controller *)

Definition submitApplication (e : Env) (body : SubmitBody) (w : World)
  : Outcome * World :=
  match Joi_submit body with
  | Some message => (Threw 400 message, w)
  | None =>
      let name := sb_name body in
      let email := sb_email body in
      let password := sb_password body in
      let profile := sb_profile body in
      match User_findOne email w with
      | Some _ => (Threw 400 "User with this email already exists", w)
      | None =>
          match InstructorApplication_findOne email w with
          | Some _ =>
              (Threw 400 "Application with this email already exists", w)
          | None =>
              match InstructorApplication_create e
                      (mkNewApplication name email password profile "pending") w
              with
              | (inl err, _) => (Threw 200 err, w)
              | (inr application, w1) =>
                  let mailOptions :=
                    mkMail (EMAIL_USER e)
                      (Str.or_else (ADMIN_EMAIL e) (EMAIL_USER e))
                      "New Instructor Application - LMS Platform"
                      [name; email; expertise profile; experience profile] in
                  let w2 :=
                    notify e "Failed to send admin notification email:"
                      mailOptions w1 in
                  (Responded 201
                     (JObj [("success", JBool true);
                            ("message",
                             JStr "Instructor application submitted successfully");
                            ("applicationId", JId (App._id application))]),
                   w2)
              end
          end
      end
  end.

Definition getApplications (q : ListQuery) (w : World) : Outcome * World :=
  let page := parseInt_or (q_page q) 1 in
  let limit := parseInt_or (q_limit q) 10 in
  let skip := ((page - 1) * limit)%Z in
  let filter :=
    match q_status q with
    | Some s => if Str.truthy s then Some s else None
    | None => None
    end in
  let found := List.filter (matches_filter filter) (applications w) in
  if (skip <? 0)%Z
  then (Threw 200 "Skip value must be non-negative", w)
  else
    let applications :=
      map (fun a => select_minus "password" (toJSON a))
        (firstn (Z.to_nat (Z.abs limit))
           (skipn (Z.to_nat skip) (sort_createdAt_desc found))) in
    let total := Z.of_nat (length found) in
    (Responded 200
       (JObj [("applications", JArr applications);
              ("page", JNum page);
              ("pages", JNum (ceil_div total limit));
              ("total", JNum total);
              ("hasNextPage", JBool (page <? ceil_div total limit)%Z);
              ("hasPrevPage", JBool (1 <? page)%Z)]),
     w).

Definition getApplicationById (id : nat) (w : World) : Outcome * World :=
  match InstructorApplication_findById id w with
  | None => (Threw 404 "Application not found", w)
  | Some application =>
      (Responded 200 (select_minus "password" (toJSON (cur application))), w)
  end.

(** [approveApplication] from its second statement on: [loaded] is what
    [findById] resolved to, [w] the world in which the handler resumes. *)
Definition approve_loaded (e : Env) (admin : nat) (loaded : option Document)
    (w : World) : Outcome * World :=
  match loaded with
  | None => (Threw 404 "Application not found", w)
  | Some application =>
      if negb (App.status (cur application) =? "pending")
      then (Threw 400 "Application has already been processed", w)
      else
        match User_create
                (mkNewUser (App.name (cur application))
                   (App.email (cur application))
                   (App.password (cur application))
                   true "instructor" (Some (App.profile (cur application)))) w
        with
        | (inl err, _) => (Threw 200 err, w)
        | (inr user, w1) =>
            let application := set_status "approved" application in
            let application := set_approvedBy (Some admin) application in
            let application := set_approvedAt (Some (now e)) application in
            match save e application w1 with
            | (inl err, _) => (Threw 200 err, w1)
            | (inr application, w2) =>
                let mailOptions :=
                  mkMail (EMAIL_USER e) (Some (App.email (cur application)))
                    "Instructor Application Approved - LMS Platform"
                    [App.name (cur application); App.email (cur application);
                     match Str.or_else (FRONTEND_URL e)
                             (Some "http://localhost:3000") with
                     | Some s => s
                     | None => ""
                     end] in
                let w3 :=
                  notify e "Failed to send approval email:" mailOptions w2 in
                (Responded 200
                   (JObj [("message", JStr "Application approved successfully");
                          ("user",
                           JObj [("_id", JId (User._id user));
                                 ("name", JStr (User.name user));
                                 ("email", JStr (User.email user));
                                 ("role", JStr (User.role user))])]),
                 w3)
            end
        end
  end.

Definition approveApplication (e : Env) (id admin : nat) (w : World)
  : Outcome * World :=
  approve_loaded e admin (InstructorApplication_findById id w) w.

(** [rejectApplication] from its second statement on. *)
Definition reject_loaded (e : Env) (admin : nat) (reason : option string)
    (loaded : option Document) (w : World) : Outcome * World :=
  match loaded with
  | None => (Threw 404 "Application not found", w)
  | Some application =>
      if negb (App.status (cur application) =? "pending")
      then (Threw 400 "Application has already been processed", w)
      else
        let application := set_status "rejected" application in
        let application := set_rejectedBy (Some admin) application in
        let application := set_rejectedAt (Some (now e)) application in
        let application := set_rejectionReason reason application in
        match save e application w with
        | (inl err, _) => (Threw 200 err, w)
        | (inr application, w1) =>
            let mailOptions :=
              mkMail (EMAIL_USER e) (Some (App.email (cur application)))
                "Instructor Application Update - LMS Platform"
                [App.name (cur application);
                 match reason with
                 | Some r => if Str.truthy r then r else ""
                 | None => ""
                 end] in
            let w2 :=
              notify e "Failed to send rejection email:" mailOptions w1 in
            (Responded 200
               (JObj [("message", JStr "Application rejected successfully")]),
             w2)
        end
  end.

Definition rejectApplication (e : Env) (id admin : nat)
    (reason : option string) (w : World) : Outcome * World :=
  reject_loaded e admin reason (InstructorApplication_findById id w) w.

Definition deleteApplication (id : nat) (w : World) : Outcome * World :=
  match InstructorApplication_findById id w with
  | None => (Threw 404 "Application not found", w)
  | Some application =>
      (Responded 200 (JObj [("message", JStr "Application deleted successfully")]),
       with_applications
         (deleteOne (App._id (cur application)) (applications w)) w)
  end.

(** *** controllers/authController.js *)

Definition loginUser (body : LoginBody) (w : World) : Outcome * World :=
  match Joi_login body with
  | Some message => (Threw 400 message, w)
  | None =>
      let email := lb_email body in
      let password := lb_password body in
      let isTemporaryPassword := lb_isTemporaryPassword body in
      match User_findOne email w with
      | Some user =>
          if matchPassword (ucur user) password
          then
            let user := ucur user in
            (Responded 200
               (JObj [("_id", JId (User._id user));
                      ("name", JStr (User.name user));
                      ("email", JStr (User.email user));
                      ("isAdmin", JBool (User.isAdmin user));
                      ("isInstructor", JBool (User.isInstructor user));
                      ("role", JStr (User.role user));
                      ("token", JStr (generateToken user));
                      ("requirePasswordChange",
                       JBool (or_false isTemporaryPassword))]),
             w)
          else (Threw 401 "Invalid email or password", w)
      | None => (Threw 401 "Invalid email or password", w)
      end
  end.

Definition forgotPassword (e : Env) (body : ForgotBody) (w : World)
  : Outcome * World :=
  match Joi_forgot body with
  | Some message => (Threw 400 message, w)
  | None =>
      let email := fb_email body in
      match User_findOne email w with
      | None => (Threw 404 "User not found with this email", w)
      | Some user =>
          let tempPassword := random_password e in
          let user := user_set_password tempPassword user in
          let user := user_set_isTemporaryPassword true user in
          match User_save e user w with
          | (inl err, _) => (Threw 200 err, w)
          | (inr user, w1) =>
              let mailOptions :=
                mkMail (EMAIL_USER e) (Some email)
                  "Password Reset - LMS Platform"
                  [User.name (ucur user); tempPassword] in
              match sendMail e mailOptions w1 with
              | inr w2 =>
                  (Responded 200
                     (JObj [("message",
                             JStr "Temporary password sent to your email")]),
                   w2)
              | inl err =>
                  (Threw 500 "Failed to send email. Please try again later.",
                   console_error "Email sending failed:" err w1)
              end
          end
      end
  end.

(** *** Requests and runs *)

Inductive Request : Type :=
| SubmitApplication (body : SubmitBody)
| GetApplications (q : ListQuery)
| GetApplicationById (id : nat)
| ApproveApplication (id admin : nat)
| RejectApplication (id admin : nat) (reason : option string)
| DeleteApplication (id : nat)
| LoginUser (body : LoginBody)
| ForgotPassword (body : ForgotBody).

Definition handle (e : Env) (r : Request) (w : World) : Outcome * World :=
  match r with
  | SubmitApplication body => submitApplication e body w
  | GetApplications q => getApplications q w
  | GetApplicationById id => getApplicationById id w
  | ApproveApplication id admin => approveApplication e id admin w
  | RejectApplication id admin reason => rejectApplication e id admin reason w
  | DeleteApplication id => deleteApplication id w
  | LoginUser body => loginUser body w
  | ForgotPassword body => forgotPassword e body w
  end.

(** Requests served one after the other. *)
Fixpoint run (l : list (Env * Request)) (w : World) : list Outcome * World :=
  match l with
  | [] => ([], w)
  | (e, r) :: rest =>
      let (o, w1) := handle e r w in
      let (os, w2) := run rest w1 in
      (o :: os, w2)
  end.

End Handlers.

(* ------------------------------------------------------------------ *)
(** ** Vocabulary of the statements *)

(** The error kinds of the handlers, as the outcomes that carry them. *)
Definition Conflict_user : Outcome :=
  Threw 400 "User with this email already exists".

Definition Conflict_application : Outcome :=
  Threw 400 "Application with this email already exists".

Definition InvalidState : Outcome :=
  Threw 400 "Application has already been processed".

Definition NotFound_application : Outcome := Threw 404 "Application not found".

Definition NotFound_user : Outcome := Threw 404 "User not found with this email".

Definition Unauthorized : Outcome := Threw 401 "Invalid email or password".

Definition DeliveryError : Outcome :=
  Threw 500 "Failed to send email. Please try again later.".

(** The persistent part of a world. *)
Definition database (w : World) : list User.t * list App.t * nat :=
  (users w, applications w, next_oid w).

Definition with_sendMail_error (v : option string) (e : Env) : Env :=
  mkEnv (now e) (salt e) v (random_password e) (EMAIL_USER e) (ADMIN_EMAIL e)
    (FRONTEND_URL e).

(** ObjectIds are never reused: the stored applications have distinct
    [_id]s, all below the counter. *)
Definition fresh_ids (w : World) : Prop :=
  NoDup (map App._id (applications w))
  /\ Forall (fun a => (App._id a < next_oid w)%nat) (applications w).

(** Application [id] has been decided (or deleted): its [_id] was handed
    out, and no stored document of that [_id] is pending. *)
Definition settled (id : nat) (w : World) : Prop :=
  (id < next_oid w)%nat
  /\ forall a, In a (applications w) -> App._id a = id ->
               App.status a <> "pending".

(** The ways a request changes the application collection: not at all, by
    inserting a document under the next ObjectId, by taking one pending
    document to a decided status, or by deleting a document. *)
Inductive store_step (w w' : World) : Prop :=
| step_same :
    applications w' = applications w ->
    (next_oid w <= next_oid w')%nat ->
    store_step w w'
| step_insert (a : App.t) :
    applications w' = applications w ++ [a] ->
    App._id a = next_oid w ->
    (next_oid w < next_oid w')%nat ->
    store_step w w'
| step_decide (l1 l2 : list App.t) (a a' : App.t) :
    applications w = l1 ++ a :: l2 ->
    applications w' = l1 ++ a' :: l2 ->
    App._id a' = App._id a ->
    App.status a = "pending" ->
    App.status a' <> "pending" ->
    (next_oid w <= next_oid w')%nat ->
    store_step w w'
| step_delete (i : nat) :
    applications w' = deleteOne i (applications w) ->
    next_oid w' = next_oid w ->
    store_step w w'.

(** The documents in the [applications] array of a list response. *)
Definition listed (o : Outcome) : list Json :=
  match o with
  | Responded _ body =>
      match get "applications" body with
      | Some (JArr l) => l
      | _ => []
      end
  | Threw _ _ => []
  end.

(** The same world with every stored application secret blanked. *)
Definition redact (w : World) : World :=
  with_applications (map (App.with_password "") (applications w)) w.

Section Runs.

Context {P : Platform}.

(** How many User documents the [ApproveApplication] requests for
    application [id] add over a run. *)
Fixpoint identities_created (id : nat) (l : list (Env * Request)) (w : World)
  : nat :=
  match l with
  | [] => 0
  | (e, r) :: rest =>
      let w1 := snd (handle e r w) in
      match r with
      | ApproveApplication i _ =>
          if (i =? id)%nat then length (users w1) - length (users w) else 0
      | _ => 0
      end
      + identities_created id rest w1
  end.

(** The Identity [forgotPassword] has stored when [user.save()]
    resolves. *)
Definition rotated (e : Env) (u : User.t) : User.t :=
  User.with_password (bcrypt_hash (random_password e) (salt e))
    (User.with_isTemporaryPassword true
       (User.with_password (random_password e) u)).

End Runs.

(* ------------------------------------------------------------------ *)
(** ** A concrete platform and concrete worlds, for evaluation *)

Module Demo.

Definition hash (s salt : string) : string := ("$2a$10$" ++ s)%string.

Definition compare (s h : string) : bool := hash s "" =? h.

Definition nonempty (field s : string) (rest : option string) : option string :=
  if s =? "" then Some (field ++ " is not allowed to be empty")%string else rest.

(** Stand-ins for [Joi.string().email()] and [Joi.string().uri()] that err
    on the side of refusal: an address is letters and digits, [@], letters
    and digits, [.com]; a URI is [http://] or [https://] and then letters,
    digits, [.], [-] and [/].  Joi accepts each of these, and more.  Of
    [ValidationError_message] the examples evaluate the text for one failing
    path only, where no order of paths is involved. *)
Definition alnum (c : ascii) : bool :=
  Str.is_upper c || Str.is_lower c || Str.is_digit c.

Definition address : Regex.re :=
  Regex.Cat (Regex.plus (Regex.Sym alnum))
    (Regex.Cat (Regex.chr "@")
       (Regex.Cat (Regex.plus (Regex.Sym alnum)) (Regex.lit ".com"))).

Definition uri : Regex.re :=
  Regex.Cat Regex.scheme
    (Regex.plus
       (Regex.Sym (fun c => alnum c || Regex.dot_or_dash c
                            || (Str.code c =? 47)%nat))).

Definition email (field s : string) (rest : option string) : option string :=
  nonempty field s
    (if Regex.test address s then rest
     else Some (field ++ " must be a valid email")%string).

Definition optional_uri (field : string) (s : option string)
    (rest : option string) : option string :=
  match s with
  | None => rest
  | Some u =>
      if (u =? "") || Regex.test uri u then rest
      else Some (field ++ " must be a valid uri")%string
  end.

Definition min6 (field s : string) (rest : option string) : option string :=
  nonempty field s
    (if (String.length s <? 6)%nat
     then Some (field ++ " length must be at least 6 characters long")%string
     else rest).

#[global] Instance platform : Platform := {
  bcrypt_hash := hash;
  bcrypt_compare := compare;
  jwt_sign := fun id role => ("jwt." ++ role)%string;
  Joi_submit := fun b =>
    nonempty "name" (sb_name b)
      (email "email" (sb_email b)
         (min6 "password" (sb_password b)
            (nonempty "profile.bio" (bio (sb_profile b))
               (nonempty "profile.expertise" (expertise (sb_profile b))
                  (nonempty "profile.experience" (experience (sb_profile b))
                     (nonempty "profile.education" (education (sb_profile b))
                        (optional_uri "profile.linkedinUrl"
                           (linkedinUrl (sb_profile b))
                           (optional_uri "profile.githubUrl"
                              (githubUrl (sb_profile b))
                              (optional_uri "profile.portfolioUrl"
                                 (portfolioUrl (sb_profile b)) None)))))))));
  Joi_login := fun b =>
    email "email" (lb_email b) (nonempty "password" (lb_password b) None);
  Joi_forgot := fun b => email "email" (fb_email b) None;
  ValidationError_message := validation_message
}.


Definition env : Env :=
  mkEnv 1000 "salt" None "k3x9q2ab" (Some "lms@x.com") (Some "admin@x.com") None.

Definition env_mail_down : Env :=
  with_sendMail_error (Some "ECONNREFUSED") env.

Definition profile : Profile :=
  mkProfile "Analyst" "Engines" "3-5 years" "Self-taught" None None None.

Definition ada : SubmitBody :=
  mkSubmitBody "Ada" "Ada@X.com" "secret1" profile.

Definition cy : User.t :=
  User.mk 1 "Cy" "cy@x.com" (hash "secret1" "salt") "student" false false
    false None.

(** An empty platform, one with the student Cy, and one where Ada's
    application (id 2) is pending. *)
Definition empty : World := mkWorld [] [] 1 [] [].

Definition with_cy : World := mkWorld [cy] [] 2 [] [].

Definition ada_pending : World := snd (submitApplication env ada with_cy).

(** Ada registered on her own while her application was pending. *)
Definition ada_registered : World :=
  with_users
    (users ada_pending
     ++ [User.mk 7 "Ada" "ada@x.com" (hash "other" "salt") "student" false
           false false None])
    (with_next_oid 8 ada_pending).

Definition admin1 : nat := 100.
Definition admin2 : nat := 101.

(** Ada's application as stored by the submission, and the world after
    [admin1] approved it. *)
Definition ada_application : App.t :=
  App.mk 2 "Ada" "ada@x.com" (hash "secret1" "salt") profile "pending"
    None None None None None 1000 1000.

Definition ada_approved : World :=
  snd (approveApplication env 2 admin1 ada_pending).

Definition ada_rejected : World :=
  snd (rejectApplication env 2 admin2 (Some "insufficient experience")
         ada_pending).

(** A submission whose experience is outside the enumeration of the
    schema. *)
Definition bob : SubmitBody :=
  mkSubmitBody "Bob" "bob@x.com" "secret1"
    (mkProfile "Builder" "Bridges" "expert" "Apprenticeship" None None None).

Definition cy_forgot : ForgotBody := mkForgotBody "cy@x.com".

(** The world after Cy asked for a new secret, with the transport up and
    with the transport down. *)
Definition cy_reset : World := snd (forgotPassword env cy_forgot with_cy).

Definition cy_reset_undelivered : World :=
  snd (forgotPassword env_mail_down cy_forgot with_cy).

End Demo.

(* ------------------------------------------------------------------ *)
(** ** The other handlers of controllers/authController.js *)

Record RegisterBody : Type := mkRegisterBody {
  rb_name : string;
  rb_email : string;
  rb_password : string;
  rb_role : string
}.

Record ChangeBody : Type := mkChangeBody {
  cb_currentPassword : string;
  cb_newPassword : string;
  cb_confirmPassword : string
}.

(** The verdicts of Joi on the schema literals of registerUser and
    changePassword, as in [Platform]. *)
Class AuthSchemas : Type := {
  Joi_register : RegisterBody -> option string;
  Joi_change : ChangeBody -> option string
}.

(** Serialisation of a User document. *)
Definition user_json (u : User.t) : Json :=
  JObj ([("_id", JId (User._id u)); ("name", JStr (User.name u));
         ("email", JStr (User.email u)); ("password", JStr (User.password u));
         ("role", JStr (User.role u)); ("isAdmin", JBool (User.isAdmin u));
         ("isInstructor", JBool (User.isInstructor u));
         ("isTemporaryPassword", JBool (User.isTemporaryPassword u))]
        ++ field "profile" (option_map profile_json (User.profile u))).

Section Accounts.

Context {P : Platform} {Sch : AuthSchemas}.

(** Modelled from the spec: [User.findById(id)] of the absent userModel.js,
    after 4.3 findById. *)
Definition User_findById (id : nat) (w : World) : option UserDocument :=
  option_map (fun u => mkUserDocument u [])
    (find (fun u => (User._id u =? id)%nat) (users w)).

(** Modelled from the spec: [User.create(fields)] of the absent userModel.js
    as registerUser calls it, with a plain secret: after 4.5 Register, which
    "hashes secret; persists Identity with role-derived flags", and 4.3
    create, which "fails with DuplicateKey if the unique email index is
    violated". *)
Definition User_create_plain (e : Env) (name email password : string)
    (isAdmin isInstructor : bool) (role : string) (w : World)
  : (string + User.t) * World :=
  let u :=
    User.mk (next_oid w) name (normalize email)
      (bcrypt_hash password (salt e)) role isAdmin isInstructor false None in
  if existsb (fun x => User.email x =? User.email u) (users w)
  then (inl E11000, w)
  else (inr u, with_next_oid (S (next_oid w)) (with_users (users w ++ [u]) w)).

(** [registerUser].  [User.create] resolves to a document or rejects, so the
    [else] branch of [if (user)] is never taken. *)
Definition registerUser (e : Env) (body : RegisterBody) (w : World)
  : Outcome * World :=
  match Joi_register body with
  | Some message => (Threw 400 message, w)
  | None =>
      let name := rb_name body in
      let email := rb_email body in
      let password := rb_password body in
      let role := rb_role body in
      match User_findOne email w with
      | Some _ => (Threw 400 "User already exists", w)
      | None =>
          match User_create_plain e name email password (role =? "admin")
                  (role =? "instructor") role w
          with
          | (inl err, _) => (Threw 200 err, w)
          | (inr user, w1) =>
              (Responded 201
                 (JObj [("_id", JId (User._id user));
                        ("name", JStr (User.name user));
                        ("email", JStr (User.email user));
                        ("isAdmin", JBool (User.isAdmin user));
                        ("isInstructor", JBool (User.isInstructor user));
                        ("role", JStr (User.role user));
                        ("token", JStr (generateToken user))]),
               w1)
          end
      end
  end.

(** [changePassword]; [uid] is [req.user._id], set by the [protect]
    middleware. *)
Definition changePassword (e : Env) (uid : nat) (body : ChangeBody) (w : World)
  : Outcome * World :=
  match Joi_change body with
  | Some message => (Threw 400 message, w)
  | None =>
      let currentPassword := cb_currentPassword body in
      let newPassword := cb_newPassword body in
      match User_findById uid w with
      | None => (Threw 404 "User not found", w)
      | Some user =>
          if negb (matchPassword (ucur user) currentPassword)
          then (Threw 400 "Current password is incorrect", w)
          else
            let user := user_set_password newPassword user in
            let user := user_set_isTemporaryPassword false user in
            match User_save e user w with
            | (inl err, _) => (Threw 200 err, w)
            | (inr user, w1) =>
                let user := ucur user in
                (Responded 200
                   (JObj [("message", JStr "Password changed successfully");
                          ("_id", JId (User._id user));
                          ("name", JStr (User.name user));
                          ("email", JStr (User.email user));
                          ("isAdmin", JBool (User.isAdmin user));
                          ("isInstructor", JBool (User.isInstructor user));
                          ("role", JStr (User.role user));
                          ("token", JStr (generateToken user))]),
                 w1)
            end
      end
  end.

(** [getUserProfile]. *)
Definition getUserProfile (uid : nat) (w : World) : Outcome * World :=
  match User_findById uid w with
  | Some user => (Responded 200 (select_minus "password" (user_json (ucur user))), w)
  | None => (Threw 404 "User not found", w)
  end.

(** The Identity [changePassword] has stored when [user.save()] resolves. *)
Definition changed (e : Env) (newPassword : string) (u : User.t) : User.t :=
  User.with_password (bcrypt_hash newPassword (salt e))
    (User.with_isTemporaryPassword false (User.with_password newPassword u)).

End Accounts.

(* ------------------------------------------------------------------ *)
(** ** Vocabulary for the list endpoint and for the stores *)

(** The three values [getApplications] reads off the query string. *)
Definition query_page (q : ListQuery) : Z := parseInt_or (q_page q) 1.

Definition query_limit (q : ListQuery) : Z := parseInt_or (q_limit q) 10.

Definition query_filter (q : ListQuery) : option string :=
  match q_status q with
  | Some s => if Str.truthy s then Some s else None
  | None => None
  end.

(** [Number.isSafeInteger]: the integers a Number holds exactly, on which
    the arithmetic of the code is the arithmetic of the integers. *)
Definition safe_integer (z : Z) : Prop := (Z.abs z <= 2 ^ 53 - 1)%Z.

(** The documents the query matches, newest first, and the slice of them a
    page holds. *)
Definition matching_documents (q : ListQuery) (w : World) : list App.t :=
  sort_createdAt_desc (filter (matches_filter (query_filter q)) (applications w)).

Definition page_slice (page limit : Z) (l : list App.t) : list App.t :=
  firstn (Z.to_nat (Z.abs limit)) (skipn (Z.to_nat ((page - 1) * limit)) l).

Definition newer_or_same (a b : App.t) : Prop :=
  (App.createdAt b <= App.createdAt a)%nat.

(** The unique index on [email] and the enumeration of [status], as
    properties of the stored applications. *)
Definition unique_emails (w : World) : Prop :=
  NoDup (map App.email (applications w)).

Definition statuses_in_enum (w : World) : Prop :=
  Forall (fun a => mem (App.status a) status_enum = true) (applications w).

(** What the schema's validators demand of a document. *)
Definition meets_schema (a : App.t) : Prop :=
  App.name a <> ""
  /\ App.email a <> ""
  /\ Regex.test Regex.email_pattern (App.email a) = true
  /\ (6 <= String.length (App.password a))%nat
  /\ bio (App.profile a) <> ""
  /\ expertise (App.profile a) <> ""
  /\ In (experience (App.profile a)) experience_enum
  /\ education (App.profile a) <> ""
  /\ (forall s, linkedinUrl (App.profile a) = Some s ->
                s = "" \/ Regex.test Regex.linkedin_pattern s = true)
  /\ (forall s, githubUrl (App.profile a) = Some s ->
                s = "" \/ Regex.test Regex.github_pattern s = true)
  /\ (forall s, portfolioUrl (App.profile a) = Some s ->
                s = "" \/ Regex.test Regex.url_pattern s = true)
  /\ In (App.status a) status_enum.

(* ------------------------------------------------------------------ *)
(** ** More concrete requests *)

Module Tour.

#[global] Instance schemas : AuthSchemas := {
  Joi_register := fun b =>
    Demo.nonempty "name" (rb_name b)
      (Demo.email "email" (rb_email b)
         (Demo.min6 "password" (rb_password b)
            (if mem (rb_role b) ["admin"; "instructor"; "student"] then None
             else Some "role must be one of [admin, instructor, student]")));
  Joi_change := fun b =>
    Demo.nonempty "currentPassword" (cb_currentPassword b)
      (if (String.length (cb_newPassword b) <? 6)%nat
       then Some "newPassword length must be at least 6 characters long"
       else if cb_confirmPassword b =? cb_newPassword b then None
       else Some "confirmPassword must be [ref:newPassword]")
}.

Definition dee : RegisterBody :=
  mkRegisterBody "Dee" "Dee@X.com" "secret9" "instructor".

Definition dee_registered : World := snd (registerUser Demo.env dee Demo.with_cy).

Definition cy_change : ChangeBody := mkChangeBody "k3x9q2ab" "fresh-secret" "fresh-secret".

(** A later application next to Ada's, which is rejected meanwhile. *)
Definition eve : SubmitBody :=
  mkSubmitBody " Eve " "eve@x.com" "secret2"
    (mkProfile "Tester" "Locks" "1-2 years" "College"
       (Some "https://www.linkedin.com/in/eve") None None).

Definition later : Env :=
  mkEnv 2000 "pepper" None "zzzz1111" (Some "lms@x.com") None None.

Definition two_applications : World :=
  snd (run [(later, SubmitApplication eve);
            (later, RejectApplication 2 Demo.admin1 (Some " too early "))]
         Demo.ada_pending).

End Tour.

(* ------------------------------------------------------------------ *)
(** ** The language of a pattern *)

(** [matches r s]: the whole of [s] is matched by [r]. *)
Inductive matches : Regex.re -> string -> Prop :=
| m_eps : matches Regex.Eps ""
| m_sym (p : ascii -> bool) (c : ascii) :
    p c = true -> matches (Regex.Sym p) (String c "")
| m_cat (r1 r2 : Regex.re) (s1 s2 : string) :
    matches r1 s1 -> matches r2 s2 -> matches (Regex.Cat r1 r2) (s1 ++ s2)
| m_alt_l (r1 r2 : Regex.re) (s : string) :
    matches r1 s -> matches (Regex.Alt r1 r2) s
| m_alt_r (r1 r2 : Regex.re) (s : string) :
    matches r2 s -> matches (Regex.Alt r1 r2) s
| m_star_nil (r : Regex.re) : matches (Regex.Star r) ""
| m_star_app (r : Regex.re) (s1 s2 : string) :
    matches r s1 -> matches (Regex.Star r) s2 ->
    matches (Regex.Star r) (s1 ++ s2).

(** Every character of [s] satisfies [p]. *)
Fixpoint every (p : ascii -> bool) (s : string) : bool :=
  match s with
  | EmptyString => true
  | String c r => p c && every p r
  end.

(** How often [c] occurs in [s]. *)
Fixpoint occurrences (c : ascii) (s : string) : nat :=
  match s with
  | EmptyString => 0
  | String d r => (if Ascii.eqb c d then 1 else 0) + occurrences c r
  end.

(** No object of [j], at any depth, has the property [k]. *)
Fixpoint lacks (k : string) (j : Json) : bool :=
  match j with
  | JObj l => forallb (fun kv => negb (fst kv =? k) && lacks k (snd kv)) l
  | JArr l => forallb (lacks k) l
  | _ => true
  end.

(** Every symbol of [r] is a character that satisfies [q]. *)
Fixpoint within (q : ascii -> bool) (r : Regex.re) : Prop :=
  match r with
  | Regex.Void | Regex.Eps => True
  | Regex.Sym p => forall c, p c = true -> q c = true
  | Regex.Cat a b | Regex.Alt a b => within q a /\ within q b
  | Regex.Star a => within q a
  end.

(** The characters the email pattern allows on either side of the [@]. *)
Definition address_char (c : ascii) : bool :=
  Regex.word c || Regex.dot_or_dash c.

(** Closed goals are settled by evaluation. *)
Ltac evaluate := vm_compute; first [reflexivity | discriminate | idtac].

(* ------------------------------------------------------------------ *)
(** ** Lists, lookups and projections *)

Lemma find_absent {A : Type} (f : A -> bool) (l : list A) :
  (forall x, In x l -> f x = false) -> find f l = None.
Proof.
  induction l as [|a l IH]; intros H; simpl; [reflexivity|].
  rewrite (H a (or_introl eq_refl)). apply IH. intros x Hx. apply H. now right.
Qed.

Lemma existsb_absent {A : Type} (f : A -> bool) (l : list A) :
  (forall x, In x l -> f x = false) -> existsb f l = false.
Proof.
  induction l as [|a l IH]; intros H; simpl; [reflexivity|].
  rewrite (H a (or_introl eq_refl)). apply IH. intros x Hx. apply H. now right.
Qed.

Lemma find_present {A : Type} (f : A -> bool) (l : list A) (x : A) :
  In x l -> f x = true -> exists y, find f l = Some y /\ In y l /\ f y = true.
Proof.
  induction l as [|a l IH]; intros Hin Hf; [contradiction|]. simpl.
  destruct (f a) eqn:Ha.
  - exists a. split; [reflexivity|]. split; [now left|exact Ha].
  - destruct Hin as [->|Hin]; [congruence|].
    destruct (IH Hin Hf) as (y & Hy & Hiny & Hfy).
    exists y. split; [exact Hy|]. split; [now right|exact Hfy].
Qed.

Lemma find_map_invariant {A : Type} (f : A -> bool) (g : A -> A) (l : list A) :
  (forall a, f (g a) = f a) -> find f (map g l) = option_map g (find f l).
Proof.
  intros H. induction l as [|a l IH]; simpl; [reflexivity|].
  rewrite H. destruct (f a); [reflexivity|exact IH].
Qed.

Lemma filter_map_invariant {A : Type} (f : A -> bool) (g : A -> A) (l : list A) :
  (forall a, f (g a) = f a) -> filter f (map g l) = map g (filter f l).
Proof.
  intros H. induction l as [|a l IH]; simpl; [reflexivity|].
  rewrite H, IH. destruct (f a); reflexivity.
Qed.

Lemma insert_desc_map (g : App.t -> App.t) (a : App.t) (l : list App.t) :
  (forall x, App.createdAt (g x) = App.createdAt x) ->
  insert_desc (g a) (map g l) = map g (insert_desc a l).
Proof.
  intros H. induction l as [|b l IH]; simpl; [reflexivity|].
  rewrite !H. destruct (App.createdAt b <=? App.createdAt a)%nat; simpl.
  - reflexivity.
  - now rewrite IH.
Qed.

Lemma sort_map (g : App.t -> App.t) (l : list App.t) :
  (forall x, App.createdAt (g x) = App.createdAt x) ->
  sort_createdAt_desc (map g l) = map g (sort_createdAt_desc l).
Proof.
  intros H. unfold sort_createdAt_desc.
  induction l as [|a l IH]; simpl; [reflexivity|].
  now rewrite IH, insert_desc_map.
Qed.

Lemma in_firstn {A : Type} (n : nat) (l : list A) (x : A) :
  In x (firstn n l) -> In x l.
Proof.
  intros H. rewrite <- (firstn_skipn n l). apply in_or_app. now left.
Qed.

Lemma in_skipn {A : Type} (n : nat) (l : list A) (x : A) :
  In x (skipn n l) -> In x l.
Proof.
  intros H. rewrite <- (firstn_skipn n l). apply in_or_app. now right.
Qed.

Lemma insert_desc_In (x y : App.t) (l : list App.t) :
  In x (insert_desc y l) -> x = y \/ In x l.
Proof.
  induction l as [|c l IH]; simpl.
  - intros [->|[]]. now left.
  - destruct (App.createdAt c <=? App.createdAt y)%nat; simpl.
    + intros [->|[->|H]]; auto.
    + intros [->|H]; auto. destruct (IH H); auto.
Qed.

Lemma sort_In (x : App.t) (l : list App.t) :
  In x (sort_createdAt_desc l) -> In x l.
Proof.
  unfold sort_createdAt_desc.
  induction l as [|b l IH]; simpl; intros Hx; [exact Hx|].
  destruct (insert_desc_In _ _ _ Hx) as [->|H]; auto.
Qed.

Lemma assoc_filtered (k : string) (l : list (string * Json)) :
  assoc k (filter (fun kv => negb (fst kv =? k)) l) = None.
Proof.
  induction l as [|[k' v] l IH]; simpl; [reflexivity|].
  destruct (k' =? k) eqn:E; simpl; [exact IH|]. now rewrite E.
Qed.

Lemma select_minus_has_no_key (k : string) (l : list (string * Json)) :
  has_key k (select_minus k (JObj l)) = false.
Proof. unfold has_key. simpl. now rewrite assoc_filtered. Qed.

Lemma projection_has_no_password (a : App.t) :
  has_key "password" (select_minus "password" (toJSON a)) = false.
Proof. unfold toJSON. apply select_minus_has_no_key. Qed.

Lemma projection_ignores_password (v : string) (a : App.t) :
  select_minus "password" (toJSON (App.with_password v a))
  = select_minus "password" (toJSON a).
Proof. reflexivity. Qed.

Section Reads.

Context {P : Platform}.

Lemma findById_redact (id : nat) (w : World) :
  InstructorApplication_findById id (redact w)
  = option_map (fun d => mkDocument (App.with_password "" (cur d)) [])
      (InstructorApplication_findById id w).
Proof.
  unfold InstructorApplication_findById, redact. simpl.
  rewrite find_map_invariant by reflexivity.
  now destruct (find _ (applications w)).
Qed.

Lemma getApplications_redact (q : ListQuery) (w : World) :
  fst (getApplications q (redact w)) = fst (getApplications q w).
Proof.
  unfold getApplications, redact. cbn [applications with_applications].
  rewrite filter_map_invariant by reflexivity.
  rewrite sort_map by reflexivity.
  rewrite skipn_map, firstn_map, map_map, length_map.
  destruct (_ <? 0)%Z; reflexivity.
Qed.

Lemma getApplicationById_redact (id : nat) (w : World) :
  fst (getApplicationById id (redact w)) = fst (getApplicationById id w).
Proof.
  unfold getApplicationById. rewrite findById_redact.
  now destruct (InstructorApplication_findById id w).
Qed.

(** C8. Every document in the [applications] array answered by
    getApplications, and the document answered by getApplicationById, is
    the stored application without its [password] property; and neither
    answer depends on the stored secrets: blanking every stored password
    leaves both answers as they are. *)
Theorem projections_exclude_password (q : ListQuery) (id : nat) (w : World) :
  Forall (fun j => has_key "password" j = false
                   /\ exists a, In a (applications w)
                                /\ j = select_minus "password" (toJSON a))
    (listed (fst (getApplications q w)))
  /\ match fst (getApplicationById id w) with
     | Responded _ j =>
         has_key "password" j = false
         /\ exists a, In a (applications w) /\ App._id a = id
                      /\ j = select_minus "password" (toJSON a)
     | Threw _ _ => InstructorApplication_findById id w = None
     end
  /\ fst (getApplications q (redact w)) = fst (getApplications q w)
  /\ fst (getApplicationById id (redact w)) = fst (getApplicationById id w).
Proof.
  split; [|split; [|split]].
  - unfold getApplications.
    destruct (_ <? 0)%Z; simpl; [constructor|].
    apply Forall_forall. intros j Hj.
    apply in_map_iff in Hj. destruct Hj as (a & <- & Ha).
    split; [apply projection_has_no_password|].
    exists a. split; [|reflexivity].
    apply in_firstn, in_skipn, sort_In in Ha. now apply filter_In in Ha.
  - unfold getApplicationById, InstructorApplication_findById.
    destruct (find _ (applications w)) as [a|] eqn:E; simpl; [|reflexivity].
    split; [apply projection_has_no_password|].
    apply find_some in E. destruct E as [Hin Hid].
    exists a. repeat split; auto. now apply Nat.eqb_eq.
  - apply getApplications_redact.
  - apply getApplicationById_redact.
Qed.

End Reads.

(* ------------------------------------------------------------------ *)
(** ** controllers/authController.js *)

Lemma replaceOne_found (e : string) (u u' : User.t) (l : list User.t) :
  find (fun x => User.email x =? e) l = Some u ->
  User._id u' = User._id u ->
  User.email u' = e ->
  exists l', replaceOne u' l = Some l'
             /\ find (fun x => User.email x =? e) l' = Some u'
             /\ length l' = length l.
Proof.
  intros Hf Hid He. revert Hf.
  induction l as [|x l IH]; simpl; [discriminate|].
  destruct (User.email x =? e) eqn:Ex.
  - intros [= ->]. rewrite Hid, Nat.eqb_refl.
    exists (u' :: l). simpl. rewrite He, String.eqb_refl. auto.
  - intros Hf. destruct (User._id x =? User._id u')%nat.
    + exists (u' :: l). simpl. rewrite He, String.eqb_refl. auto.
    + destruct (IH Hf) as (l' & -> & Hl' & Hlen).
      exists (x :: l'). simpl. rewrite Ex, Hlen. auto.
Qed.

Section Auth.

Context {P : Platform}.

Lemma User_findOne_absent (email : string) (w : World) :
  (forall u, In u (users w) -> User.email u <> normalize email) ->
  User_findOne email w = None.
Proof.
  intros H. unfold User_findOne. rewrite find_absent; [reflexivity|].
  intros u Hu. apply String.eqb_neq. now apply H.
Qed.

Lemma User_findOne_present (email : string) (w : World) (u : User.t) :
  In u (users w) -> User.email u = normalize email ->
  exists u', User_findOne email w = Some (mkUserDocument u' [])
             /\ In u' (users w) /\ User.email u' = normalize email.
Proof.
  intros Hin He. unfold User_findOne.
  destruct (find_present (fun x => User.email x =? normalize email)
              (users w) u Hin) as (y & -> & Hy & Hey).
  - now apply String.eqb_eq.
  - exists y. repeat split; auto. now apply String.eqb_eq.
Qed.

(** The flag of a successful login is the flag of the request. *)
Lemma loginUser_flag (body : LoginBody) (w : World) (c : nat) (j : Json) :
  fst (loginUser body w) = Responded c j ->
  get "requirePasswordChange" j
  = Some (JBool (or_false (lb_isTemporaryPassword body))).
Proof.
  unfold loginUser.
  destruct (Joi_login body); [discriminate|].
  destruct (User_findOne _ w) as [d|]; [|discriminate].
  destruct (matchPassword _ _); [|discriminate].
  simpl. now intros [= <- <-].
Qed.

Lemma User_save_rotated (e : Env) (email : string) (u : User.t) (w : World) :
  User_findOne email w = Some (mkUserDocument u []) ->
  exists l,
    User_save e
      (user_set_isTemporaryPassword true
         (user_set_password (random_password e) (mkUserDocument u []))) w
    = (inr (mkUserDocument (rotated e u) []), with_users l w)
    /\ User_findOne email (with_users l w)
       = Some (mkUserDocument (rotated e u) [])
    /\ length l = length (users w).
Proof.
  unfold User_findOne. intros H.
  destruct (find _ (users w)) as [u0|] eqn:Hf; [|discriminate].
  injection H as ->.
  assert (Hu : User.email u = normalize email).
  { apply find_some in Hf. now apply String.eqb_eq. }
  destruct (replaceOne_found (normalize email) u (rotated e u) (users w) Hf)
    as (l & Hr & Hfind & Hlen); [reflexivity|exact Hu|].
  exists l. unfold User_save. cbn -[replaceOne].
  fold (rotated e u). rewrite Hr. cbn. now rewrite Hfind.
Qed.

(** C7. A login for an email bound to no Identity and a login for an
    existing email whose secret fails verification (both requests passing
    the request schema) end with the same outcome, status 401 and the
    message "Invalid email or password", and change nothing. *)
Theorem login_does_not_reveal_account_existence
    (b1 b2 : LoginBody) (w1 w2 : World) (u : User.t) :
  Joi_login b1 = None ->
  Joi_login b2 = None ->
  (forall x, In x (users w1) -> User.email x <> normalize (lb_email b1)) ->
  In u (users w2) ->
  User.email u = normalize (lb_email b2) ->
  (forall x, In x (users w2) -> User.email x = normalize (lb_email b2) ->
             matchPassword x (lb_password b2) = false) ->
  loginUser b1 w1 = (Unauthorized, w1)
  /\ loginUser b2 w2 = (Unauthorized, w2)
  /\ fst (loginUser b1 w1) = fst (loginUser b2 w2).
Proof.
  intros J1 J2 Habs Hin He Hbad.
  assert (L1 : loginUser b1 w1 = (Unauthorized, w1)).
  { unfold loginUser. now rewrite J1, User_findOne_absent. }
  assert (L2 : loginUser b2 w2 = (Unauthorized, w2)).
  { unfold loginUser. rewrite J2.
    destruct (User_findOne_present _ _ _ Hin He) as (u' & -> & Hin' & He').
    cbn [ucur]. now rewrite (Hbad u' Hin' He'). }
  now rewrite L1, L2.
Qed.

(** forgotPassword on an existing Identity: the rotation is stored before
    the mail is handed to the transport, and stays stored whatever the
    transport answers. *)
Lemma forgotPassword_found (e : Env) (body : ForgotBody) (w : World)
    (u : User.t) :
  Joi_forgot body = None ->
  User_findOne (fb_email body) w = Some (mkUserDocument u []) ->
  let o := fst (forgotPassword e body w) in
  let w' := snd (forgotPassword e body w) in
  let mail :=
    mkMail (EMAIL_USER e) (Some (fb_email body))
      "Password Reset - LMS Platform" [User.name u; random_password e] in
  User_findOne (fb_email body) w' = Some (mkUserDocument (rotated e u) [])
  /\ User.password (rotated e u) = bcrypt_hash (random_password e) (salt e)
  /\ User.isTemporaryPassword (rotated e u) = true
  /\ length (users w') = length (users w)
  /\ applications w' = applications w
  /\ next_oid w' = next_oid w
  /\ match sendMail_error e with
     | None =>
         o = Responded 200
               (JObj [("message", JStr "Temporary password sent to your email")])
         /\ outbox w' = outbox w ++ [mail]
         /\ console w' = console w
     | Some err =>
         o = DeliveryError
         /\ outbox w' = outbox w
         /\ console w'
            = console w ++ [("Email sending failed: " ++ err)%string]
     end.
Proof.
  intros J Hu. unfold forgotPassword. rewrite J, Hu.
  destruct (User_save_rotated e _ _ _ Hu) as (l & -> & Hfind & Hlen).
  unfold sendMail. cbn [ucur].
  destruct (sendMail_error e) as [err|]; cbn; repeat split; auto.
Qed.

(** C5. With a request that passes the request schema: when no Identity
    has the (normalised) email, forgotPassword throws with status 404 and
    leaves the world as it was; when [findOne] resolves to [u], the stored
    Identity becomes [u] with the hash of the generated secret and the
    temporary flag set, and the mail carrying the generated secret is
    handed to the transport: if the transport accepts it the handler
    answers 200, if it rejects it the handler logs and throws with status
    500 ("Failed to send email. Please try again later."). *)
Theorem forgotPassword_contract (e : Env) (body : ForgotBody) (w : World) :
  Joi_forgot body = None ->
  ((forall x, In x (users w) -> User.email x <> normalize (fb_email body)) ->
   forgotPassword e body w = (NotFound_user, w))
  /\ (forall u,
        User_findOne (fb_email body) w = Some (mkUserDocument u []) ->
        let o := fst (forgotPassword e body w) in
        let w' := snd (forgotPassword e body w) in
        let mail :=
          mkMail (EMAIL_USER e) (Some (fb_email body))
            "Password Reset - LMS Platform" [User.name u; random_password e] in
        User_findOne (fb_email body) w' = Some (mkUserDocument (rotated e u) [])
        /\ User.password (rotated e u)
           = bcrypt_hash (random_password e) (salt e)
        /\ User.isTemporaryPassword (rotated e u) = true
        /\ length (users w') = length (users w)
        /\ applications w' = applications w
        /\ match sendMail_error e with
           | None =>
               o = Responded 200
                     (JObj [("message",
                             JStr "Temporary password sent to your email")])
               /\ outbox w' = outbox w ++ [mail]
               /\ console w' = console w
           | Some err =>
               o = DeliveryError
               /\ outbox w' = outbox w
               /\ console w'
                  = console w ++ [("Email sending failed: " ++ err)%string]
           end).
Proof.
  intros J. split.
  - intros Habs. unfold forgotPassword.
    now rewrite J, User_findOne_absent.
  - intros u Hu.
    destruct (forgotPassword_found e body w u J Hu)
      as (H1 & H2 & H3 & H4 & H5 & _ & H6).
    cbv zeta. auto 10.
Qed.

(** C10. Whenever forgotPassword ends in the delivery error (status 500,
    "Failed to send email. Please try again later."), an Identity [u] had
    been found and the stored Identity is already [u] with the hash of the
    generated secret and the temporary flag set; under the vault contract no
    secret other than the generated one verifies against it any more, and a
    login with such a secret is answered Unauthorized. *)
Theorem forgotPassword_delivery_failure_keeps_rotation
    {V : Vault P} (e : Env) (body : ForgotBody) (w : World) :
  fst (forgotPassword e body w) = DeliveryError ->
  let w' := snd (forgotPassword e body w) in
  exists u,
    User_findOne (fb_email body) w = Some (mkUserDocument u [])
    /\ sendMail_error e <> None
    /\ User_findOne (fb_email body) w' = Some (mkUserDocument (rotated e u) [])
    /\ User.password (rotated e u) = bcrypt_hash (random_password e) (salt e)
    /\ User.isTemporaryPassword (rotated e u) = true
    /\ forall old,
         old <> random_password e ->
         matchPassword (rotated e u) old = false
         /\ forall flag,
              Joi_login (mkLoginBody (fb_email body) old flag) = None ->
              loginUser (mkLoginBody (fb_email body) old flag) w'
              = (Unauthorized, w').
Proof.
  intros Hfail w'.
  destruct (Joi_forgot body) as [m|] eqn:J.
  { unfold forgotPassword in Hfail. rewrite J in Hfail. discriminate. }
  destruct (User_findOne (fb_email body) w) as [[u m]|] eqn:Hu.
  2:{ unfold forgotPassword in Hfail. rewrite J, Hu in Hfail. discriminate. }
  assert (m = []) as ->.
  { unfold User_findOne in Hu. destruct (find _ _); now inversion Hu. }
  pose proof (forgotPassword_found e body w u J Hu) as H.
  cbv zeta in H. fold w' in H.
  destruct H as (Hfind & Hpw & Htmp & _ & _ & _ & H).
  exists u. split; [reflexivity|]. split.
  { destruct (sendMail_error e); [discriminate|].
    destruct H as (Ho & _). rewrite Ho in Hfail. discriminate. }
  repeat split; auto.
  - unfold matchPassword. rewrite Hpw. now apply compare_other.
  - intros flag JL. unfold loginUser. rewrite JL. cbn [lb_email lb_password].
    rewrite Hfind. cbn [ucur]. unfold matchPassword. rewrite Hpw.
    now rewrite compare_other.
Qed.

End Auth.

(* ------------------------------------------------------------------ *)
(** ** Documents, [$set] and the two collections *)

Lemma copy_path_id (src : App.t) (p : string) (dst : App.t) :
  App._id (copy_path src p dst) = App._id dst.
Proof.
  unfold copy_path. repeat (destruct (p =? _); [reflexivity|]). reflexivity.
Qed.

Lemma copy_path_email (src : App.t) (p : string) (dst : App.t) :
  App.email (copy_path src p dst) = App.email dst.
Proof.
  unfold copy_path. repeat (destruct (p =? _); [reflexivity|]). reflexivity.
Qed.

Lemma copy_path_status (src : App.t) (p : string) (dst : App.t) :
  App.status (copy_path src p dst)
  = if p =? "status" then App.status src else App.status dst.
Proof.
  unfold copy_path.
  destruct (String.eqb_spec p "status") as [->|Hn]; [reflexivity|].
  repeat (destruct (p =? _); [reflexivity|]). reflexivity.
Qed.

Lemma set_paths_id (src dst : App.t) (paths : list string) :
  App._id (fold_right (copy_path src) dst paths) = App._id dst.
Proof.
  induction paths as [|p ps IH]; simpl; [reflexivity|].
  now rewrite copy_path_id.
Qed.

Lemma set_paths_email (src dst : App.t) (paths : list string) :
  App.email (fold_right (copy_path src) dst paths) = App.email dst.
Proof.
  induction paths as [|p ps IH]; simpl; [reflexivity|].
  now rewrite copy_path_email.
Qed.

Lemma set_paths_status (src dst : App.t) (paths : list string) :
  App.status (fold_right (copy_path src) dst paths)
  = if mem "status" paths then App.status src else App.status dst.
Proof.
  unfold mem. induction paths as [|p ps IH]; cbn [existsb fold_right];
    [reflexivity|].
  rewrite copy_path_status, (String.eqb_sym "status" p), IH.
  now destruct (p =? "status").
Qed.

Lemma updateOne_found (id : nat) (f : App.t -> App.t) (l : list App.t)
    (a : App.t) :
  find (fun x => (App._id x =? id)%nat) l = Some a ->
  (forall x, App._id (f x) = App._id x) ->
  exists l1 l2,
    l = l1 ++ a :: l2
    /\ updateOne id f l = Some (l1 ++ f a :: l2)
    /\ find (fun x => (App._id x =? id)%nat) (l1 ++ f a :: l2) = Some (f a).
Proof.
  intros Hf Hid. revert Hf.
  induction l as [|x l IH]; simpl; [discriminate|].
  destruct (App._id x =? id)%nat eqn:Ex.
  - intros [= ->]. exists [], l. simpl. now rewrite Hid, Ex.
  - intros Hf. destruct (IH Hf) as (l1 & l2 & -> & -> & Hl').
    exists (x :: l1), l2. simpl. now rewrite Ex, Hl'.
Qed.

Lemma updateOne_absent (id : nat) (f : App.t -> App.t) (l : list App.t) :
  find (fun x => (App._id x =? id)%nat) l = None -> updateOne id f l = None.
Proof.
  induction l as [|x l IH]; simpl; [reflexivity|].
  destruct (App._id x =? id)%nat; [discriminate|].
  intros H. now rewrite IH.
Qed.

Lemma deleteOne_incl (id : nat) (l : list App.t) (x : App.t) :
  In x (deleteOne id l) -> In x l.
Proof.
  induction l as [|a l IH]; simpl; [auto|].
  destruct (App._id a =? id)%nat; simpl; intuition.
Qed.

Lemma assign_cases (path : string) (same : bool) (f : App.t -> App.t)
    (d : Document) :
  (same = true /\ assign path same f d = d)
  \/ (same = false /\ cur (assign path same f d) = f (cur d)
      /\ isModified path (assign path same f d) = true
      /\ forall q, isModified q d = true ->
                   isModified q (assign path same f d) = true).
Proof.
  unfold assign. destruct same; [now left|right].
  split; [reflexivity|]. split; [reflexivity|]. unfold isModified, mem. simpl.
  destruct (existsb (String.eqb path) (modified d)) eqn:E.
  - auto.
  - split.
    + rewrite existsb_app. simpl. now rewrite String.eqb_refl, orb_true_r.
    + intros q Hq. rewrite existsb_app, Hq. reflexivity.
Qed.

(** An assignment that leaves a field alone keeps that field and the marks
    already set. *)
Lemma assign_keeps {B : Type} (g : App.t -> B) (path : string) (same : bool)
    (f : App.t -> App.t) (d : Document) :
  (forall a, g (f a) = g a) ->
  g (cur (assign path same f d)) = g (cur d).
Proof.
  intros H. destruct (assign_cases path same f d) as [[_ ->]|(_ & -> & _)]; auto.
Qed.

Lemma assign_marks (q path : string) (same : bool) (f : App.t -> App.t)
    (d : Document) :
  isModified q d = true -> isModified q (assign path same f d) = true.
Proof.
  intros H.
  destruct (assign_cases path same f d) as [[_ ->]|(_ & _ & _ & Hm)]; auto.
Qed.

Lemma set_status_changed (v : string) (d : Document) :
  App.status (cur d) <> v ->
  App.status (cur (set_status v d)) = v
  /\ isModified "status" (set_status v d) = true.
Proof.
  intros H. unfold set_status.
  destruct (assign_cases "status" (App.status (cur d) =? v)
              (App.with_status v) d) as [[E _]|(_ & -> & Hm & _)].
  - apply String.eqb_eq in E. contradiction.
  - now split.
Qed.

Lemma notify_database (e : Env) (label : string) (m : Mail) (w : World) :
  database (notify e label m w) = database w.
Proof. unfold notify, sendMail. now destruct (sendMail_error e). Qed.

Lemma notify_applications (e : Env) (label : string) (m : Mail) (w : World) :
  applications (notify e label m w) = applications w.
Proof. unfold notify, sendMail. now destruct (sendMail_error e). Qed.

Lemma notify_users (e : Env) (label : string) (m : Mail) (w : World) :
  users (notify e label m w) = users w.
Proof. unfold notify, sendMail. now destruct (sendMail_error e). Qed.

Lemma notify_next_oid (e : Env) (label : string) (m : Mail) (w : World) :
  next_oid (notify e label m w) = next_oid w.
Proof. unfold notify, sendMail. now destruct (sendMail_error e). Qed.

Lemma notify_failed (e : Env) (label err : string) (m : Mail) (w : World) :
  sendMail_error e = Some err ->
  notify e label m w = console_error label err w.
Proof. unfold notify, sendMail. now intros ->. Qed.

(* ------------------------------------------------------------------ *)
(** ** The instructor-application controller *)

Section Applications.

Context {P : Platform}.

Lemma pre_save_keeps {B : Type} (g : App.t -> B) (e : Env) (d : Document) :
  (forall v a, g (App.with_password v a) = g a) ->
  g (cur (pre_save e d)) = g (cur d).
Proof.
  intros H. unfold pre_save, set_password.
  destruct (isModified "password" d); [now apply assign_keeps|reflexivity].
Qed.

Lemma pre_save_marks (q : string) (e : Env) (d : Document) :
  isModified q d = true -> isModified q (pre_save e d) = true.
Proof.
  intros H. unfold pre_save, set_password.
  destruct (isModified "password" d); [now apply assign_marks|exact H].
Qed.

Lemma User_create_cases (c : NewUser) (w : World) :
  User_create c w = (inl E11000, w)
  \/ exists u,
       User_create c w
       = (inr u, with_next_oid (S (next_oid w)) (with_users (users w ++ [u]) w))
       /\ User._id u = next_oid w.
Proof.
  unfold User_create. destruct (existsb _ (users w)); [now left|right].
  eexists. split; reflexivity.
Qed.

(** A save that carries a new status reaches the stored document of the
    same [_id], whatever that document's status is by then. *)
Lemma save_writes_status (e : Env) (d : Document) (w : World) (a : App.t) :
  find (fun x => (App._id x =? App._id (cur d))%nat) (applications w) = Some a ->
  isModified "status" d = true ->
  exists l1 l2 d' a',
    applications w = l1 ++ a :: l2
    /\ save e d w = (inr d', with_applications (l1 ++ a' :: l2) w)
    /\ find (fun x => (App._id x =? App._id (cur d))%nat) (l1 ++ a' :: l2)
       = Some a'
    /\ App.status a' = App.status (cur d)
    /\ App._id a' = App._id a
    /\ App.email a' = App.email a
    /\ App.name (cur d') = App.name (cur d)
    /\ App.email (cur d') = App.email (cur d).
Proof.
  intros Hf Hm. unfold save.
  assert (Hm' : isModified "status" (pre_save e d) = true)
    by (now apply pre_save_marks).
  assert (Hid : App._id (cur (pre_save e d)) = App._id (cur d))
    by (now apply pre_save_keeps).
  destruct (modified (pre_save e d)) as [|p ps] eqn:Hp.
  { unfold isModified in Hm'. rewrite Hp in Hm'. discriminate. }
  rewrite <- Hp, Hid.
  set (f := fun x => App.with_updatedAt (now e)
                       (fold_right (copy_path (cur (pre_save e d))) x
                          (modified (pre_save e d)))).
  destruct (updateOne_found (App._id (cur d)) f (applications w) a Hf)
    as (l1 & l2 & Hsplit & -> & Hl).
  { intros x. unfold f. cbn. apply set_paths_id. }
  exists l1, l2,
    (mkDocument (App.with_updatedAt (now e) (cur (pre_save e d))) []), (f a).
  split; [exact Hsplit|]. split; [reflexivity|]. split; [exact Hl|].
  unfold f.
  cbn [App.status App.email App.name App._id App.with_updatedAt cur].
  rewrite set_paths_status, set_paths_email, set_paths_id.
  unfold isModified in Hm'. rewrite Hm'.
  rewrite !(pre_save_keeps _ e d) by reflexivity. auto.
Qed.

Lemma save_missing (e : Env) (d : Document) (w : World) :
  find (fun x => (App._id x =? App._id (cur d))%nat) (applications w) = None ->
  isModified "status" d = true ->
  save e d w = (inl DocumentNotFound, w).
Proof.
  intros Hf Hm. unfold save.
  assert (Hm' : isModified "status" (pre_save e d) = true)
    by (now apply pre_save_marks).
  destruct (modified (pre_save e d)) as [|p ps] eqn:Hp.
  { unfold isModified in Hm'. rewrite Hp in Hm'. discriminate. }
  rewrite updateOne_absent; [reflexivity|].
  now rewrite (pre_save_keeps App._id e d).
Qed.

Lemma findOne_absent (email : string) (w : World) :
  (forall a, In a (applications w) -> App.email a <> normalize email) ->
  InstructorApplication_findOne email w = None.
Proof.
  intros H. unfold InstructorApplication_findOne. apply find_absent.
  intros a Ha. apply String.eqb_neq. now apply H.
Qed.

Lemma findById_appended (a : App.t) (w : World) :
  Forall (fun x => (App._id x < App._id a)%nat) (applications w) ->
  InstructorApplication_findById (App._id a)
    (with_applications (applications w ++ [a]) w)
  = Some (mkDocument a []).
Proof.
  unfold InstructorApplication_findById. cbn [applications with_applications].
  induction (applications w) as [|x l IH]; intros H; simpl.
  - now rewrite Nat.eqb_refl.
  - inversion H as [|? ? Hx Hl]; subst.
    destruct (Nat.eqb_spec (App._id x) (App._id a)); [lia|]. now apply IH.
Qed.

(** C2. When the application loaded by approveApplication is pending and
    [User.create] rejects, the handler throws that error and the world is
    the one it started from: the stored application is the loaded one,
    still pending, its [approvedBy] and [approvedAt] untouched, and no
    Identity was added. *)
Theorem approve_identity_failure_leaves_application_pending
    (e : Env) (id admin : nat) (w : World) (d : Document) (err : string) :
  InstructorApplication_findById id w = Some d ->
  App.status (cur d) = "pending" ->
  fst (User_create
         (mkNewUser (App.name (cur d)) (App.email (cur d))
            (App.password (cur d)) true "instructor"
            (Some (App.profile (cur d)))) w) = inl err ->
  let w' := snd (approveApplication e id admin w) in
  approveApplication e id admin w = (Threw 200 err, w)
  /\ InstructorApplication_findById id w' = Some d
  /\ applications w' = applications w
  /\ users w' = users w.
Proof.
  intros Hd Hs Hc w'.
  assert (H : approveApplication e id admin w = (Threw 200 err, w)).
  { unfold approveApplication, approve_loaded. rewrite Hd, Hs. cbn [negb String.eqb].
    change ("pending" =? "pending") with true. cbn [negb].
    destruct (User_create _ w) as [[err'|u] w1]; simpl in Hc; [|discriminate].
    now injection Hc as ->. }
  subst w'. rewrite H. cbn [snd]. auto.
Qed.

(** C4. With a request that passes the request schema: when an Identity
    or an application already has the normalised email, submitApplication
    throws with status 400 and the world is unchanged; when neither has
    it and the new document passes the validators of the schema, an
    application with status "pending" and the normalised email is appended
    to the collection, nothing else is stored, and the answer is 201 with
    that application's [_id] -- whether or not the notification mail could
    be sent; when neither has it and the new document fails a validator,
    the validation error of the model leaves the handler and the world is
    unchanged. *)
Theorem submitApplication_contract (e : Env) (body : SubmitBody) (w : World) :
  Joi_submit body = None ->
  ((exists u, In u (users w) /\ User.email u = normalize (sb_email body)) ->
   submitApplication e body w = (Conflict_user, w))
  /\ ((forall u, In u (users w) -> User.email u <> normalize (sb_email body)) ->
      (exists a, In a (applications w)
                 /\ App.email a = normalize (sb_email body)) ->
      submitApplication e body w = (Conflict_application, w))
  /\ ((forall u, In u (users w) -> User.email u <> normalize (sb_email body)) ->
      (forall a, In a (applications w) ->
                 App.email a <> normalize (sb_email body)) ->
      validate (new_document (next_oid w) (now e)
                  (mkNewApplication (sb_name body) (sb_email body)
                     (sb_password body) (sb_profile body) "pending")) = [] ->
      let w' := snd (submitApplication e body w) in
      exists a,
        fst (submitApplication e body w)
        = Responded 201
            (JObj [("success", JBool true);
                   ("message",
                    JStr "Instructor application submitted successfully");
                   ("applicationId", JId (App._id a))])
        /\ applications w' = applications w ++ [a]
        /\ users w' = users w
        /\ App.status a = "pending"
        /\ App.email a = normalize (sb_email body)
        /\ App._id a = next_oid w
        /\ (fresh_ids w ->
            InstructorApplication_findById (App._id a) w'
            = Some (mkDocument a [])))
  /\ ((forall u, In u (users w) -> User.email u <> normalize (sb_email body)) ->
      (forall a, In a (applications w) ->
                 App.email a <> normalize (sb_email body)) ->
      validate (new_document (next_oid w) (now e)
                  (mkNewApplication (sb_name body) (sb_email body)
                     (sb_password body) (sb_profile body) "pending")) <> [] ->
      submitApplication e body w
      = (Threw 200
           (ValidationError_message
              (validate (new_document (next_oid w) (now e)
                           (mkNewApplication (sb_name body) (sb_email body)
                              (sb_password body) (sb_profile body)
                              "pending")))), w)).
Proof.
  intros J. split; [|split; [|split]].
  4:{ intros Hu Ha Hv. unfold submitApplication.
      rewrite J, User_findOne_absent, findOne_absent by assumption.
      unfold InstructorApplication_create.
      destruct (validate _); [contradiction|reflexivity]. }
  - intros (u & Hin & He). unfold submitApplication. rewrite J.
    destruct (User_findOne_present _ _ _ Hin He) as (u' & -> & _).
    reflexivity.
  - intros Hu (a & Hin & He). unfold submitApplication.
    rewrite J, User_findOne_absent by exact Hu.
    unfold InstructorApplication_findOne.
    destruct (find_present (fun x => App.email x =? normalize (sb_email body))
                (applications w) a Hin) as (y & -> & _).
    + now apply String.eqb_eq.
    + reflexivity.
  - intros Hu Ha Hv w'. subst w'. unfold submitApplication.
    rewrite J, User_findOne_absent, findOne_absent by assumption.
    unfold InstructorApplication_create. rewrite Hv.
    set (a0 := new_document _ _ _).
    set (a := cur (pre_save e (mkDocument a0 ["password"]))).
    assert (Hemail : App.email a = normalize (sb_email body))
      by (unfold a; now rewrite (pre_save_keeps App.email)).
    assert (Hst : App.status a = "pending")
      by (unfold a; now rewrite (pre_save_keeps App.status)).
    assert (Hid : App._id a = next_oid w)
      by (unfold a; now rewrite (pre_save_keeps App._id)).
    rewrite existsb_absent.
    2:{ intros x Hx. rewrite Hemail. apply String.eqb_neq. now apply Ha. }
    cbn [fst snd]. exists a.
    rewrite notify_applications, notify_users.
    cbn [applications users with_applications with_next_oid].
    repeat split; auto.
    intros [_ Hfresh]. unfold InstructorApplication_findById.
    rewrite notify_applications.
    cbn [applications with_applications with_next_oid].
    rewrite <- Hid in Hfresh.
    apply (findById_appended a w Hfresh).
Qed.

(** The environment reaches the stores through the clock and the salt
    only. *)
Lemma create_env (v : option string) (e : Env) :
  InstructorApplication_create (with_sendMail_error v e)
  = InstructorApplication_create e.
Proof. reflexivity. Qed.

Lemma save_env (v : option string) (e : Env) :
  save (with_sendMail_error v e) = save e.
Proof. reflexivity. Qed.

Lemma create_side (e : Env) (c : NewApplication) (w : World) :
  let w1 := snd (InstructorApplication_create e c w) in
  console w1 = console w /\ outbox w1 = outbox w /\ users w1 = users w.
Proof.
  unfold InstructorApplication_create.
  destruct (validate _); [|now cbn].
  destruct (existsb _ _); now cbn.
Qed.

Lemma save_side (e : Env) (d : Document) (w : World) :
  let w1 := snd (save e d w) in
  console w1 = console w /\ outbox w1 = outbox w /\ users w1 = users w
  /\ next_oid w1 = next_oid w.
Proof.
  unfold save. destruct (modified _); [now cbn|].
  destruct (updateOne _ _ _); now cbn.
Qed.

Lemma User_create_side (c : NewUser) (w : World) :
  let w1 := snd (User_create c w) in
  console w1 = console w /\ outbox w1 = outbox w
  /\ applications w1 = applications w.
Proof. unfold User_create. destruct (existsb _ _); now cbn. Qed.

Lemma submit_mail_failure (e : Env) (err : string) (body : SubmitBody)
    (w : World) :
  let ok := submitApplication (with_sendMail_error None e) body w in
  let ko := submitApplication (with_sendMail_error (Some err) e) body w in
  fst ko = fst ok
  /\ database (snd ko) = database (snd ok)
  /\ (succeeded (fst ok) = true ->
      outbox (snd ko) = outbox w
      /\ console (snd ko)
         = console w
           ++ [("Failed to send admin notification email: " ++ err)%string]).
Proof.
  unfold submitApplication. rewrite !create_env.
  destruct (Joi_submit body); [now cbn|].
  destruct (User_findOne _ w); [now cbn|].
  destruct (InstructorApplication_findOne _ w); [now cbn|].
  pose proof (create_side e (mkNewApplication (sb_name body) (sb_email body)
                               (sb_password body) (sb_profile body) "pending") w)
    as Hs.
  destruct (InstructorApplication_create e _ w) as [[err'|a] w1];
    [now cbn|].
  cbn [fst snd] in *. destruct Hs as (Hc & Ho & _).
  rewrite !notify_database. split; [reflexivity|]. split; [reflexivity|].
  intros _. rewrite (notify_failed _ _ err) by reflexivity.
  cbn. now rewrite Hc, Ho.
Qed.

Lemma approve_mail_failure (e : Env) (err : string) (id admin : nat)
    (w : World) :
  let ok := approveApplication (with_sendMail_error None e) id admin w in
  let ko := approveApplication (with_sendMail_error (Some err) e) id admin w in
  fst ko = fst ok
  /\ database (snd ko) = database (snd ok)
  /\ (succeeded (fst ok) = true ->
      outbox (snd ko) = outbox w
      /\ console (snd ko)
         = console w ++ [("Failed to send approval email: " ++ err)%string]).
Proof.
  unfold approveApplication, approve_loaded. rewrite !save_env.
  cbn [now with_sendMail_error].
  destruct (InstructorApplication_findById id w) as [d|]; [|now cbn].
  destruct (negb _); [now cbn|].
  match goal with |- context [User_create ?c w] =>
    pose proof (User_create_side c w) as Hu;
    destruct (User_create c w) as [[err'|u] w1] end; [now cbn|].
  match goal with |- context [save e ?x w1] =>
    pose proof (save_side e x w1) as Hs;
    destruct (save e x w1) as [[err'|d'] w2] end; [now cbn|].
  cbn [fst snd] in *. destruct Hu as (Hc & Ho & _), Hs as (Hc' & Ho' & _).
  rewrite !notify_database. split; [reflexivity|]. split; [reflexivity|].
  intros _. rewrite (notify_failed _ _ err) by reflexivity.
  cbn. now rewrite Hc', Ho', Hc, Ho.
Qed.

Lemma reject_mail_failure (e : Env) (err : string) (id admin : nat)
    (reason : option string) (w : World) :
  let ok := rejectApplication (with_sendMail_error None e) id admin reason w in
  let ko :=
    rejectApplication (with_sendMail_error (Some err) e) id admin reason w in
  fst ko = fst ok
  /\ database (snd ko) = database (snd ok)
  /\ (succeeded (fst ok) = true ->
      outbox (snd ko) = outbox w
      /\ console (snd ko)
         = console w ++ [("Failed to send rejection email: " ++ err)%string]).
Proof.
  unfold rejectApplication, reject_loaded. rewrite !save_env.
  cbn [now with_sendMail_error].
  destruct (InstructorApplication_findById id w) as [d|]; [|now cbn].
  destruct (negb _); [now cbn|].
  match goal with |- context [save e ?x w] =>
    pose proof (save_side e x w) as Hs;
    destruct (save e x w) as [[err'|d'] w2] end; [now cbn|].
  cbn [fst snd] in *. destruct Hs as (Hc' & Ho' & _).
  rewrite !notify_database. split; [reflexivity|]. split; [reflexivity|].
  intros _. rewrite (notify_failed _ _ err) by reflexivity.
  cbn. now rewrite Hc', Ho'.
Qed.

(** C6. For submitApplication, approveApplication and rejectApplication
    alike: a run in which the mail transport rejects the notification ends
    with the same outcome and the same stored users and applications as
    the run in which the transport accepts it; and when that outcome is a
    success, the failed run has queued no mail and has written exactly one
    line, the error, to the console. *)
Theorem notification_failure_is_swallowed (e : Env) (err : string)
    (w : World) :
  let ok := with_sendMail_error None e in
  let ko := with_sendMail_error (Some err) e in
  (forall body,
     fst (submitApplication ko body w) = fst (submitApplication ok body w)
     /\ database (snd (submitApplication ko body w))
        = database (snd (submitApplication ok body w))
     /\ (succeeded (fst (submitApplication ok body w)) = true ->
         outbox (snd (submitApplication ko body w)) = outbox w
         /\ console (snd (submitApplication ko body w))
            = console w
              ++ [("Failed to send admin notification email: " ++ err)%string]))
  /\ (forall id admin,
        fst (approveApplication ko id admin w)
        = fst (approveApplication ok id admin w)
        /\ database (snd (approveApplication ko id admin w))
           = database (snd (approveApplication ok id admin w))
        /\ (succeeded (fst (approveApplication ok id admin w)) = true ->
            outbox (snd (approveApplication ko id admin w)) = outbox w
            /\ console (snd (approveApplication ko id admin w))
               = console w
                 ++ [("Failed to send approval email: " ++ err)%string]))
  /\ (forall id admin reason,
        fst (rejectApplication ko id admin reason w)
        = fst (rejectApplication ok id admin reason w)
        /\ database (snd (rejectApplication ko id admin reason w))
           = database (snd (rejectApplication ok id admin reason w))
        /\ (succeeded (fst (rejectApplication ok id admin reason w)) = true ->
            outbox (snd (rejectApplication ko id admin reason w)) = outbox w
            /\ console (snd (rejectApplication ko id admin reason w))
               = console w
                 ++ [("Failed to send rejection email: " ++ err)%string])).
Proof.
  intros ok ko. split; [|split].
  - intros body. apply submit_mail_failure.
  - intros id admin. apply approve_mail_failure.
  - intros id admin reason. apply reject_mail_failure.
Qed.

(** The document in memory when approveApplication and rejectApplication
    call [save]. *)
Lemma approved_document (e : Env) (admin : nat) (d : Document) :
  App.status (cur d) = "pending" ->
  let d' :=
    set_approvedAt (Some (now e))
      (set_approvedBy (Some admin) (set_status "approved" d)) in
  App.status (cur d') = "approved"
  /\ isModified "status" d' = true
  /\ App._id (cur d') = App._id (cur d).
Proof.
  intros Hs d'. subst d'.
  destruct (set_status_changed "approved" d) as [H1 H2];
    [rewrite Hs; discriminate|].
  unfold set_approvedAt, set_approvedBy.
  rewrite !(assign_keeps App.status), !(assign_keeps App._id) by reflexivity.
  split; [exact H1|]. split; [do 2 apply assign_marks; exact H2|].
  unfold set_status. now rewrite (assign_keeps App._id).
Qed.

Lemma rejected_document (e : Env) (admin : nat) (reason : option string)
    (d : Document) :
  App.status (cur d) = "pending" ->
  let d' :=
    set_rejectionReason reason
      (set_rejectedAt (Some (now e))
         (set_rejectedBy (Some admin) (set_status "rejected" d))) in
  App.status (cur d') = "rejected"
  /\ isModified "status" d' = true
  /\ App._id (cur d') = App._id (cur d).
Proof.
  intros Hs d'. subst d'.
  destruct (set_status_changed "rejected" d) as [H1 H2];
    [rewrite Hs; discriminate|].
  unfold set_rejectionReason, set_rejectedAt, set_rejectedBy.
  rewrite !(assign_keeps App.status), !(assign_keeps App._id) by reflexivity.
  split; [exact H1|]. split; [do 3 apply assign_marks; exact H2|].
  unfold set_status. now rewrite (assign_keeps App._id).
Qed.

(** rejectApplication resumed with a document that was pending when it
    was loaded: the save goes through on whatever is stored under that
    [_id] by now. *)
Lemma reject_loaded_pending (e : Env) (admin : nat) (reason : option string)
    (d : Document) (w : World) (a : App.t) :
  App.status (cur d) = "pending" ->
  find (fun x => (App._id x =? App._id (cur d))%nat) (applications w) = Some a ->
  exists l1 l2 a' w',
    reject_loaded e admin reason (Some d) w
    = (Responded 200
         (JObj [("message", JStr "Application rejected successfully")]), w')
    /\ applications w = l1 ++ a :: l2
    /\ applications w' = l1 ++ a' :: l2
    /\ find (fun x => (App._id x =? App._id (cur d))%nat) (applications w')
       = Some a'
    /\ App.status a' = "rejected"
    /\ App._id a' = App._id a
    /\ users w' = users w
    /\ next_oid w' = next_oid w.
Proof.
  intros Hs Hf. unfold reject_loaded. rewrite Hs.
  change (negb ("pending" =? "pending")) with false. cbv iota.
  destruct (rejected_document e admin reason d Hs) as (Hst & Hm & Hid).
  rewrite <- Hid in Hf.
  destruct (save_writes_status e _ w a Hf Hm)
    as (l1 & l2 & d' & a' & Hsplit & -> & Hfind & Hst' & Hid' & _).
  exists l1, l2, a'. eexists. split; [reflexivity|].
  rewrite notify_applications, notify_users, notify_next_oid.
  cbn [applications users next_oid with_applications].
  rewrite Hid in Hfind. rewrite Hst' , Hst. auto 10.
Qed.

(** approveApplication resumed with a document that was pending when it
    was loaded, in a world where [User.create] accepts. *)
Lemma approve_loaded_pending (e : Env) (admin : nat) (d : Document)
    (w : World) (a : App.t) (u : User.t) (w1 : World) :
  App.status (cur d) = "pending" ->
  find (fun x => (App._id x =? App._id (cur d))%nat) (applications w) = Some a ->
  User_create
    (mkNewUser (App.name (cur d)) (App.email (cur d)) (App.password (cur d))
       true "instructor" (Some (App.profile (cur d)))) w = (inr u, w1) ->
  exists l1 l2 a' w',
    approve_loaded e admin (Some d) w
    = (Responded 200
         (JObj [("message", JStr "Application approved successfully");
                ("user",
                 JObj [("_id", JId (User._id u)); ("name", JStr (User.name u));
                       ("email", JStr (User.email u));
                       ("role", JStr (User.role u))])]), w')
    /\ applications w = l1 ++ a :: l2
    /\ applications w' = l1 ++ a' :: l2
    /\ find (fun x => (App._id x =? App._id (cur d))%nat) (applications w')
       = Some a'
    /\ App.status a' = "approved"
    /\ App._id a' = App._id a
    /\ users w' = users w ++ [u]
    /\ next_oid w' = S (next_oid w).
Proof.
  intros Hs Hf Hc. unfold approve_loaded. rewrite Hs.
  change (negb ("pending" =? "pending")) with false. cbv iota.
  rewrite Hc.
  destruct (User_create_cases
              (mkNewUser (App.name (cur d)) (App.email (cur d))
                 (App.password (cur d)) true "instructor"
                 (Some (App.profile (cur d)))) w)
    as [H|(u' & H & _)]; rewrite H in Hc; [discriminate|].
  injection Hc as -> <-.
  destruct (approved_document e admin d Hs) as (Hst & Hm & Hid).
  rewrite <- Hid in Hf.
  destruct (save_writes_status e _
              (with_next_oid (S (next_oid w)) (with_users (users w ++ [u]) w))
              a Hf Hm)
    as (l1 & l2 & d' & a' & Hsplit & -> & Hfind & Hst' & Hid' & _).
  exists l1, l2, a'. eexists. split; [reflexivity|].
  rewrite notify_applications, notify_users, notify_next_oid.
  cbn [applications users next_oid with_applications with_users
       with_next_oid] in *.
  rewrite Hid in Hfind. rewrite Hst', Hst. auto 10.
Qed.

Lemma loaded_not_pending (e : Env) (admin : nat) (reason : option string)
    (d : Document) (w : World) :
  App.status (cur d) <> "pending" ->
  approve_loaded e admin (Some d) w = (InvalidState, w)
  /\ reject_loaded e admin reason (Some d) w = (InvalidState, w).
Proof.
  intros H. apply String.eqb_neq in H.
  unfold approve_loaded, reject_loaded. now rewrite H.
Qed.

Lemma findById_Some (id : nat) (w : World) (d : Document) :
  InstructorApplication_findById id w = Some d ->
  exists a, d = mkDocument a []
            /\ find (fun x => (App._id x =? id)%nat) (applications w) = Some a
            /\ App._id a = id /\ In a (applications w).
Proof.
  unfold InstructorApplication_findById.
  destruct (find _ (applications w)) as [a|] eqn:E; [|discriminate].
  intros [= <-]. exists a. apply find_some in E. destruct E as [Hin Hid].
  apply Nat.eqb_eq in Hid. auto.
Qed.

(** The two ways approveApplication ends when requests are served one
    after the other. *)
Lemma approve_cases (e : Env) (id admin : nat) (w : World) :
  (exists o, approveApplication e id admin w = (o, w) /\ succeeded o = false)
  \/ (exists a a' l1 l2 u w',
        approveApplication e id admin w
        = (Responded 200
             (JObj [("message", JStr "Application approved successfully");
                    ("user",
                     JObj [("_id", JId (User._id u));
                           ("name", JStr (User.name u));
                           ("email", JStr (User.email u));
                           ("role", JStr (User.role u))])]), w')
        /\ InstructorApplication_findById id w = Some (mkDocument a [])
        /\ App.status a = "pending"
        /\ applications w = l1 ++ a :: l2
        /\ applications w' = l1 ++ a' :: l2
        /\ InstructorApplication_findById id w' = Some (mkDocument a' [])
        /\ App.status a' = "approved"
        /\ App._id a = id /\ App._id a' = id
        /\ users w' = users w ++ [u]
        /\ next_oid w' = S (next_oid w)).
Proof.
  unfold approveApplication.
  destruct (InstructorApplication_findById id w) as [d|] eqn:Hd.
  2:{ left. eexists. split; reflexivity. }
  destruct (findById_Some _ _ _ Hd) as (a & -> & Hf & <- & _).
  destruct (String.eqb_spec (App.status a) "pending") as [Hs|Hs].
  2:{ left. exists InvalidState. split; [|reflexivity].
      now apply (loaded_not_pending e admin None (mkDocument a []) w). }
  destruct (User_create_cases
              (mkNewUser (App.name a) (App.email a) (App.password a) true
                 "instructor" (Some (App.profile a))) w)
    as [Hc|(u & Hc & _)].
  - left. exists (Threw 200 E11000). split; [|reflexivity].
    unfold approve_loaded. cbn [cur]. rewrite Hs, Hc. reflexivity.
  - right.
    destruct (approve_loaded_pending e admin (mkDocument a []) w a u _ Hs Hf Hc)
      as (l1 & l2 & a' & w' & -> & H1 & H2 & H3 & H4 & H5 & H6 & H7).
    exists a, a', l1, l2, u, w'. cbn [cur] in *.
    unfold InstructorApplication_findById.
    rewrite H3. repeat split; auto.
Qed.

Lemma reject_cases (e : Env) (id admin : nat) (reason : option string)
    (w : World) :
  (exists o, rejectApplication e id admin reason w = (o, w)
             /\ succeeded o = false)
  \/ (exists a a' l1 l2 w',
        rejectApplication e id admin reason w
        = (Responded 200
             (JObj [("message", JStr "Application rejected successfully")]),
           w')
        /\ InstructorApplication_findById id w = Some (mkDocument a [])
        /\ App.status a = "pending"
        /\ applications w = l1 ++ a :: l2
        /\ applications w' = l1 ++ a' :: l2
        /\ InstructorApplication_findById id w' = Some (mkDocument a' [])
        /\ App.status a' = "rejected"
        /\ App._id a = id /\ App._id a' = id
        /\ users w' = users w
        /\ next_oid w' = next_oid w).
Proof.
  unfold rejectApplication.
  destruct (InstructorApplication_findById id w) as [d|] eqn:Hd.
  2:{ left. eexists. split; reflexivity. }
  destruct (findById_Some _ _ _ Hd) as (a & -> & Hf & <- & _).
  destruct (String.eqb_spec (App.status a) "pending") as [Hs|Hs].
  2:{ left. exists InvalidState. split; [|reflexivity].
      now apply (loaded_not_pending e admin reason (mkDocument a []) w). }
  right.
  destruct (reject_loaded_pending e admin reason (mkDocument a []) w a Hs Hf)
    as (l1 & l2 & a' & w' & -> & H1 & H2 & H3 & H4 & H5 & H6 & H7).
  exists a, a', l1, l2, w'. cbn [cur] in *.
  unfold InstructorApplication_findById.
  rewrite H3. repeat split; auto.
Qed.

Lemma submit_cases (e : Env) (body : SubmitBody) (w : World) :
  snd (submitApplication e body w) = w
  \/ exists a,
       applications (snd (submitApplication e body w)) = applications w ++ [a]
       /\ App._id a = next_oid w
       /\ next_oid (snd (submitApplication e body w)) = S (next_oid w)
       /\ users (snd (submitApplication e body w)) = users w.
Proof.
  unfold submitApplication.
  destruct (Joi_submit body); [now left|].
  destruct (User_findOne _ w); [now left|].
  destruct (InstructorApplication_findOne _ w); [now left|].
  unfold InstructorApplication_create.
  destruct (validate _); [|now left].
  destruct (existsb _ _); [now left|]. right.
  eexists. cbn [snd].
  rewrite notify_applications, notify_next_oid, notify_users.
  cbn [applications next_oid users with_applications with_next_oid].
  repeat split. now rewrite (pre_save_keeps App._id).
Qed.

Lemma forgot_cases (e : Env) (body : ForgotBody) (w : World) :
  applications (snd (forgotPassword e body w)) = applications w
  /\ next_oid (snd (forgotPassword e body w)) = next_oid w
  /\ length (users (snd (forgotPassword e body w))) = length (users w).
Proof.
  destruct (Joi_forgot body) as [m|] eqn:J.
  { unfold forgotPassword. rewrite J. auto. }
  destruct (User_findOne (fb_email body) w) as [[u m]|] eqn:Hu.
  2:{ unfold forgotPassword. rewrite J, Hu. auto. }
  assert (m = []) as ->.
  { unfold User_findOne in Hu. destruct (find _ _); now inversion Hu. }
  destruct (forgotPassword_found e body w u J Hu)
    as (_ & _ & _ & Hl & Ha & Hn & _).
  auto.
Qed.

Lemma handle_store_step (e : Env) (r : Request) (w : World) :
  store_step w (snd (handle e r w)).
Proof.
  destruct r as [body|q|id|id admin|id admin reason|id|body|body];
    cbn [handle].
  - destruct (submit_cases e body w) as [->|(a & Ha & Hid & Hn & _)].
    + now apply step_same.
    + apply (step_insert _ _ a); auto. lia.
  - unfold getApplications. destruct (_ <? 0)%Z; now apply step_same.
  - unfold getApplicationById.
    destruct (InstructorApplication_findById id w); now apply step_same.
  - destruct (approve_cases e id admin w)
      as [(o & -> & _)|(a & a' & l1 & l2 & u & w' & -> & H)].
    + now apply step_same.
    + destruct H as (_ & Hs & H1 & H2 & _ & Hs' & Hi & Hi' & _ & Hn).
      apply (step_decide _ _ l1 l2 a a'); cbn [snd]; auto; try congruence.
      lia.
  - destruct (reject_cases e id admin reason w)
      as [(o & -> & _)|(a & a' & l1 & l2 & w' & -> & H)].
    + now apply step_same.
    + destruct H as (_ & Hs & H1 & H2 & _ & Hs' & Hi & Hi' & _ & Hn).
      apply (step_decide _ _ l1 l2 a a'); cbn [snd]; auto; try congruence.
      lia.
  - unfold deleteApplication.
    destruct (InstructorApplication_findById id w) as [d|].
    + now apply (step_delete _ _ (App._id (cur d))).
    + now apply step_same.
  - unfold loginUser. destruct (Joi_login body); [now apply step_same|].
    destruct (User_findOne _ w); [|now apply step_same].
    destruct (matchPassword _ _); now apply step_same.
  - destruct (forgot_cases e body w) as (Ha & Hn & _).
    apply step_same; [exact Ha|lia].
Qed.

(** *** ObjectIds stay fresh, decided applications stay decided *)

Lemma deleteOne_NoDup (i : nat) (l : list App.t) :
  NoDup (map App._id l) -> NoDup (map App._id (deleteOne i l)).
Proof.
  induction l as [|a l IH]; simpl; [auto|]. intros H.
  inversion H as [|? ? Hn Hl]; subst.
  destruct (App._id a =? i)%nat; [exact Hl|]. simpl. constructor; auto.
  intros Hin. apply Hn. apply in_map_iff in Hin.
  destruct Hin as (x & Hx & Hin). apply in_map_iff. exists x.
  split; [exact Hx|]. now apply deleteOne_incl in Hin.
Qed.

Lemma store_step_fresh (w w' : World) :
  fresh_ids w -> store_step w w' -> fresh_ids w'.
Proof.
  intros [Hnd Hlt] Hstep. unfold fresh_ids.
  destruct Hstep as [Ha Hn|a Ha Hid Hn|l1 l2 a a' H1 H2 Hid Hs Hs' Hn|i Ha Hn];
    rewrite ?Ha, ?H2.
  - split; [exact Hnd|]. eapply Forall_impl; [|exact Hlt]. cbv beta. lia.
  - split.
    + rewrite map_app. apply NoDup_app; [exact Hnd|repeat constructor; auto|].
      intros x Hx [<-|[]]. apply in_map_iff in Hx.
      destruct Hx as (y & Hy & Hin).
      rewrite Forall_forall in Hlt. specialize (Hlt y Hin). cbv beta in Hlt. lia.
    + apply Forall_app. split.
      * eapply Forall_impl; [|exact Hlt]. cbv beta. lia.
      * repeat constructor. lia.
  - rewrite H1 in Hnd, Hlt. split.
    + rewrite map_app in *. cbn [map] in *. now rewrite Hid.
    + apply Forall_app in Hlt. destruct Hlt as [Hl1 Hl2].
      inversion Hl2 as [|? ? Hx Hl2']; subst.
      apply Forall_app. split.
      * eapply Forall_impl; [|exact Hl1]. cbv beta. lia.
      * constructor; [lia|]. eapply Forall_impl; [|exact Hl2']. cbv beta. lia.
  - split; [now apply deleteOne_NoDup|].
    rewrite Forall_forall in *. intros x Hx. rewrite Hn.
    apply Hlt. now apply deleteOne_incl in Hx.
Qed.

Lemma store_step_settled (id : nat) (w w' : World) :
  settled id w -> store_step w w' -> settled id w'.
Proof.
  intros [Hlt Hall] Hstep. unfold settled.
  destruct Hstep as [Ha Hn|a Ha Hid Hn|l1 l2 a a' H1 H2 Hid Hs Hs' Hn|i Ha Hn];
    rewrite ?Ha, ?H2.
  - split; [lia|exact Hall].
  - split; [lia|]. intros x Hx Hxid. apply in_app_or in Hx.
    destruct Hx as [Hx|[<-|[]]]; [now apply Hall|lia].
  - split; [lia|]. intros x Hx Hxid. apply in_app_or in Hx.
    destruct Hx as [Hx|[<-|Hx]]; [| exact Hs' |];
      apply Hall; auto; rewrite H1; apply in_or_app; [now left|now right; right].
  - split; [lia|]. intros x Hx. apply Hall. now apply deleteOne_incl in Hx.
Qed.

(** Deciding the one document of an [_id] settles that [_id]. *)
Lemma decide_settles (w w' : World) (l1 l2 : list App.t) (a a' : App.t) :
  fresh_ids w ->
  applications w = l1 ++ a :: l2 ->
  applications w' = l1 ++ a' :: l2 ->
  App._id a' = App._id a ->
  App.status a' <> "pending" ->
  (next_oid w <= next_oid w')%nat ->
  settled (App._id a) w'.
Proof.
  intros [Hnd Hlt] H1 H2 Hid Hs Hn. rewrite H1 in Hnd, Hlt. split.
  - apply Forall_elt in Hlt. lia.
  - rewrite H2. intros x Hx Hxid.
    rewrite map_app in Hnd. cbn [map] in Hnd. apply NoDup_remove_2 in Hnd.
    apply in_app_or in Hx. destruct Hx as [Hx|[<-|Hx]]; [|exact Hs|];
      exfalso; apply Hnd; rewrite <- Hxid; apply in_or_app;
      [left|right]; now apply in_map.
Qed.

Lemma settled_blocks (id : nat) (w : World) :
  settled id w ->
  forall e admin reason,
    (approveApplication e id admin w = (InvalidState, w)
     \/ approveApplication e id admin w = (NotFound_application, w))
    /\ (rejectApplication e id admin reason w = (InvalidState, w)
        \/ rejectApplication e id admin reason w = (NotFound_application, w)).
Proof.
  intros [_ Hall] e admin reason.
  unfold approveApplication, rejectApplication.
  destruct (InstructorApplication_findById id w) as [d|] eqn:Hd.
  - destruct (findById_Some _ _ _ Hd) as (a & -> & _ & Hid & Hin).
    destruct (loaded_not_pending e admin reason (mkDocument a []) w) as [-> ->];
      [now apply Hall|]. auto.
  - split; right; reflexivity.
Qed.

Lemma run_fresh (l : list (Env * Request)) (w : World) :
  fresh_ids w -> fresh_ids (snd (run l w)).
Proof.
  revert w. induction l as [|[e r] l IH]; intros w H; [exact H|].
  cbn [run]. pose proof (handle_store_step e r w) as Hs.
  destruct (handle e r w) as [o w1]. cbn [snd] in Hs.
  specialize (IH w1 (store_step_fresh _ _ H Hs)).
  now destruct (run l w1).
Qed.

Lemma run_settled (id : nat) (l : list (Env * Request)) (w : World) :
  settled id w -> settled id (snd (run l w)).
Proof.
  revert w. induction l as [|[e r] l IH]; intros w H; [exact H|].
  cbn [run]. pose proof (handle_store_step e r w) as Hs.
  destruct (handle e r w) as [o w1]. cbn [snd] in Hs.
  specialize (IH w1 (store_step_settled _ _ _ H Hs)).
  now destruct (run l w1).
Qed.

Lemma settled_creates_nothing (id : nat) (l : list (Env * Request))
    (w : World) :
  settled id w -> identities_created id l w = 0.
Proof.
  revert w. induction l as [|[e r] l IH]; intros w H; [reflexivity|].
  cbn [identities_created].
  rewrite IH by (eapply store_step_settled; [exact H|apply handle_store_step]).
  destruct r as [| | |i admin| | | |]; try reflexivity.
  destruct (Nat.eqb_spec i id) as [->|]; [|reflexivity].
  cbn [handle].
  destruct (settled_blocks _ _ H e admin None) as [[-> | ->] _];
    cbn [snd]; lia.
Qed.

Lemma identities_created_once (id : nat) (l : list (Env * Request))
    (w : World) :
  fresh_ids w -> identities_created id l w <= 1.
Proof.
  revert w. induction l as [|[e r] l IH]; intros w H; [cbn; lia|].
  cbn [identities_created].
  pose proof (handle_store_step e r w) as Hstep.
  pose proof (store_step_fresh _ _ H Hstep) as H'.
  destruct r as [| | |i admin| | | |];
    try (specialize (IH _ H'); lia).
  destruct (Nat.eqb_spec i id) as [->|]; [|specialize (IH _ H'); lia].
  cbn [handle] in *.
  destruct (approve_cases e id admin w)
    as [(o & E & _)|(a & a' & l1 & l2 & u & w' & E & Hrest)];
    rewrite E in *; cbn [snd] in *.
  - specialize (IH _ H). lia.
  - destruct Hrest as (_ & _ & H1 & H2 & _ & Hs' & Hi & Hi' & Hu & Hn).
    rewrite settled_creates_nothing.
    + rewrite Hu, length_app. cbn. lia.
    + rewrite <- Hi. apply (decide_settles w w' l1 l2 a a'); auto;
        try congruence; try lia.
Qed.

(** C3. approveApplication and rejectApplication answer "Application has
    already been processed" (status 400), changing nothing, whenever the
    loaded application is not pending, and succeed only on a pending one;
    after a successful approve or reject of an application, a further
    approve or reject of it is answered in that way, and after any run of
    further requests it is answered in that way or, once the application
    was deleted, with "Application not found" -- never with a success;
    over any run of requests from a store with fresh ObjectIds, the
    approvals of one application add at most one Identity. *)
Theorem application_status_is_monotonic :
  (forall e id admin reason w d,
     InstructorApplication_findById id w = Some d ->
     App.status (cur d) <> "pending" ->
     approveApplication e id admin w = (InvalidState, w)
     /\ rejectApplication e id admin reason w = (InvalidState, w))
  /\ (forall e id admin reason w,
        succeeded (fst (approveApplication e id admin w)) = true
        \/ succeeded (fst (rejectApplication e id admin reason w)) = true ->
        exists d, InstructorApplication_findById id w = Some d
                  /\ App.status (cur d) = "pending")
  /\ (forall e id admin reason w o w1,
        approveApplication e id admin w = (o, w1)
        \/ rejectApplication e id admin reason w = (o, w1) ->
        succeeded o = true ->
        (forall e' admin' reason',
           approveApplication e' id admin' w1 = (InvalidState, w1)
           /\ rejectApplication e' id admin' reason' w1 = (InvalidState, w1))
        /\ (fresh_ids w ->
            forall l e' admin' reason',
              let w2 := snd (run l w1) in
              (approveApplication e' id admin' w2 = (InvalidState, w2)
               \/ approveApplication e' id admin' w2
                  = (NotFound_application, w2))
              /\ (rejectApplication e' id admin' reason' w2
                  = (InvalidState, w2)
                  \/ rejectApplication e' id admin' reason' w2
                     = (NotFound_application, w2))))
  /\ (forall id l w, fresh_ids w -> identities_created id l w <= 1).
Proof.
  split; [|split; [|split]].
  - intros e id admin reason w d Hd Hs.
    unfold approveApplication, rejectApplication. rewrite Hd.
    now apply loaded_not_pending.
  - intros e id admin reason w [H|H].
    + destruct (approve_cases e id admin w)
        as [(o & E & Ho)|(a & a' & l1 & l2 & u & w' & E & Hd & Hs & _)].
      * rewrite E in H. cbn in H. congruence.
      * exists (mkDocument a []). now split.
    + destruct (reject_cases e id admin reason w)
        as [(o & E & Ho)|(a & a' & l1 & l2 & w' & E & Hd & Hs & _)].
      * rewrite E in H. cbn in H. congruence.
      * exists (mkDocument a []). now split.
  - intros e id admin reason w o w1 Hfirst Ho.
    assert (H : exists a a' l1 l2,
               applications w = l1 ++ a :: l2
               /\ applications w1 = l1 ++ a' :: l2
               /\ InstructorApplication_findById id w1 = Some (mkDocument a' [])
               /\ App.status a' <> "pending"
               /\ App._id a = id /\ App._id a' = id
               /\ (next_oid w <= next_oid w1)%nat).
    { destruct Hfirst as [E|E].
      - destruct (approve_cases e id admin w)
          as [(o' & E' & Ho')|(a & a' & l1 & l2 & u & w' & E' & Hr)];
          rewrite E' in E; injection E as <- <-; [congruence|].
        destruct Hr as (_ & _ & H1 & H2 & H3 & H4 & H5 & H6 & _ & H7).
        exists a, a', l1, l2. rewrite H4, H7.
        repeat split; auto; try discriminate; try lia.
      - destruct (reject_cases e id admin reason w)
          as [(o' & E' & Ho')|(a & a' & l1 & l2 & w' & E' & Hr)];
          rewrite E' in E; injection E as <- <-; [congruence|].
        destruct Hr as (_ & _ & H1 & H2 & H3 & H4 & H5 & H6 & _ & H7).
        exists a, a', l1, l2. rewrite H4, H7.
        repeat split; auto; try discriminate; try lia. }
    destruct H as (a & a' & l1 & l2 & H1 & H2 & H3 & H4 & H5 & H6 & H7).
    split.
    + intros e' admin' reason'.
      unfold approveApplication, rejectApplication. rewrite H3.
      now apply loaded_not_pending.
    + intros Hfresh l e' admin' reason' w2. subst w2.
      apply settled_blocks, run_settled. rewrite <- H5.
      apply (decide_settles w w1 l1 l2 a a'); auto. congruence.
  - intros id l w. apply identities_created_once.
Qed.

(** C9, as the code has it. The status is checked on the document as it
    was loaded: a handler resumed with a loaded document that is not
    pending answers "Application has already been processed" and changes
    nothing. The save that follows is an update by [_id] alone: a handler
    resumed with a loaded document that was pending writes its status over
    the stored document of that [_id] and answers with a success, whatever
    status is stored by then (for approveApplication, provided
    [User.create] accepts). *)
Theorem status_check_reads_loaded_document
    (e : Env) (admin : nat) (reason : option string) (d : Document)
    (w : World) :
  (App.status (cur d) <> "pending" ->
   approve_loaded e admin (Some d) w = (InvalidState, w)
   /\ reject_loaded e admin reason (Some d) w = (InvalidState, w))
  /\ (App.status (cur d) = "pending" ->
      forall stored,
        find (fun x => (App._id x =? App._id (cur d))%nat) (applications w)
        = Some stored ->
        (exists a' w',
           reject_loaded e admin reason (Some d) w
           = (Responded 200
                (JObj [("message", JStr "Application rejected successfully")]),
              w')
           /\ find (fun x => (App._id x =? App._id (cur d))%nat)
                (applications w') = Some a'
           /\ App.status a' = "rejected")
        /\ (forall u w1,
              User_create
                (mkNewUser (App.name (cur d)) (App.email (cur d))
                   (App.password (cur d)) true "instructor"
                   (Some (App.profile (cur d)))) w = (inr u, w1) ->
              exists a' w',
                approve_loaded e admin (Some d) w
                = (Responded 200
                     (JObj [("message",
                             JStr "Application approved successfully");
                            ("user",
                             JObj [("_id", JId (User._id u));
                                   ("name", JStr (User.name u));
                                   ("email", JStr (User.email u));
                                   ("role", JStr (User.role u))])]), w')
                /\ find (fun x => (App._id x =? App._id (cur d))%nat)
                     (applications w') = Some a'
                /\ App.status a' = "approved")).
Proof.
  split.
  - apply loaded_not_pending.
  - intros Hs stored Hf. split.
    + destruct (reject_loaded_pending e admin reason d w stored Hs Hf)
        as (l1 & l2 & a' & w' & E & _ & _ & Hf' & Hs' & _).
      exists a', w'. split; [exact E|]. split; assumption.
    + intros u w1 Hc.
      destruct (approve_loaded_pending e admin d w stored u w1 Hs Hf Hc)
        as (l1 & l2 & a' & w' & E & _ & _ & Hf' & Hs' & _).
      exists a', w'. split; [exact E|]. split; assumption.
Qed.

End Applications.

(* ------------------------------------------------------------------ *)
(** ** The statements on the concrete platform *)

Lemma demo_vault : Vault Demo.platform.
Proof.
  split.
  - intros s salt. cbn. apply String.eqb_refl.
  - intros s s' salt H. cbn. apply String.eqb_neq. congruence.
Qed.

(** C1. Cy asks for a new secret and the mail goes out; the stored Identity
    is now marked temporary. Cy logs in with the secret of the mail, sending
    no [isTemporaryPassword] of his own: the login succeeds and answers
    [requirePasswordChange: false]. *)
Theorem login_after_forgot_reports_no_password_change :
  fst (forgotPassword Demo.env Demo.cy_forgot Demo.with_cy)
  = Responded 200 (JObj [("message", JStr "Temporary password sent to your email")])
  /\ option_map (fun d => User.isTemporaryPassword (ucur d))
       (User_findOne "cy@x.com" Demo.cy_reset) = Some true
  /\ exists body,
       fst (loginUser (mkLoginBody "cy@x.com" "k3x9q2ab" None) Demo.cy_reset)
       = Responded 200 body
       /\ get "requirePasswordChange" body = Some (JBool false).
Proof.
  split; [vm_compute; reflexivity|]. split; [vm_compute; reflexivity|].
  eexists. split; vm_compute; reflexivity.
Qed.

(** The converse at the same place: an Identity whose stored secret is not
    temporary is told to change it when the request says so. *)
Example login_flag_follows_request :
  option_map (fun d => User.isTemporaryPassword (ucur d))
    (User_findOne "cy@x.com" Demo.with_cy) = Some false
  /\ exists body,
       fst (loginUser (mkLoginBody "cy@x.com" "secret1" (Some true)) Demo.with_cy)
       = Responded 200 body
       /\ get "requirePasswordChange" body = Some (JBool true).
Proof.
  split; [vm_compute; reflexivity|]. eexists. split; vm_compute; reflexivity.
Qed.

(** C9, as the claim has it, fails: [admin1] and [admin2] both load Ada's
    pending application; [admin1]'s approval completes, so the stored status
    is "approved"; [admin2]'s rejection then resumes with the document it
    had loaded and is answered with a success, not with "Application has
    already been processed", and the stored status becomes "rejected" while
    the Identity created by the approval stays. *)
Lemma reject_after_concurrent_approve_succeeds :
  let loaded := InstructorApplication_findById 2 Demo.ada_pending in
  let w1 := snd (approve_loaded Demo.env Demo.admin1 loaded Demo.ada_pending) in
  let late := reject_loaded Demo.env Demo.admin2 (Some "late") loaded w1 in
  option_map (fun d => App.status (cur d)) loaded = Some "pending"
  /\ succeeded (fst (approve_loaded Demo.env Demo.admin1 loaded Demo.ada_pending))
     = true
  /\ option_map (fun d => App.status (cur d))
       (InstructorApplication_findById 2 w1) = Some "approved"
  /\ fst late
     = Responded 200 (JObj [("message", JStr "Application rejected successfully")])
  /\ fst late <> InvalidState
  /\ option_map (fun d => App.status (cur d))
       (InstructorApplication_findById 2 (snd late)) = Some "rejected"
  /\ length (users (snd late)) = S (length (users Demo.ada_pending)).
Proof.
  cbv zeta. repeat split; vm_compute; try reflexivity. discriminate.
Qed.

(* ------------------------------------------------------------------ *)
(** ** The theorems at concrete requests *)

Example parseInt_examples :
  parseInt (Some " -12px") = Some (-12)%Z
  /\ parseInt (Some "0x1F") = Some 31%Z
  /\ parseInt (Some "abc") = None
  /\ parseInt_or (Some "0") 10 = 10%Z
  /\ parseInt_or None 1 = 1%Z.
Proof. repeat split; evaluate. Qed.

Example email_pattern_examples :
  Regex.test Regex.email_pattern "ada@x.com" = true
  /\ Regex.test Regex.email_pattern "a.b-c@x-y.co.uk" = true
  /\ Regex.test Regex.email_pattern "a@b.info" = false
  /\ Regex.test Regex.email_pattern "a+b@x.com" = false
  /\ normalize "  Ada@X.com " = "ada@x.com".
Proof. repeat split; evaluate. Qed.

(** Ada's submission is stored pending and is listed without its secret. *)
Example ada_is_listed_without_password :
  InstructorApplication_findById 2 Demo.ada_pending
  = Some (mkDocument Demo.ada_application [])
  /\ listed (fst (getApplications (mkListQuery None None (Some "pending"))
                    Demo.ada_pending))
     = [select_minus "password" (toJSON Demo.ada_application)]
  /\ get "password" (toJSON Demo.ada_application)
     = Some (JStr (Demo.hash "secret1" "salt"))
  /\ get "password" (select_minus "password" (toJSON Demo.ada_application))
     = None.
Proof. repeat split; evaluate. Qed.

(** The approval creates the instructor and records the approver; the
    rejection records the reason and creates nobody. *)
Example ada_approved_and_rejected :
  option_map (fun d => (App.status (cur d), App.approvedBy (cur d)))
    (InstructorApplication_findById 2 Demo.ada_approved)
  = Some ("approved", Some Demo.admin1)
  /\ map (fun u => (User.email u, User.role u)) (users Demo.ada_approved)
     = [("cy@x.com", "student"); ("ada@x.com", "instructor")]
  /\ option_map (fun d => (App.status (cur d), App.rejectionReason (cur d)))
       (InstructorApplication_findById 2 Demo.ada_rejected)
     = Some ("rejected", Some "insufficient experience")
  /\ users Demo.ada_rejected = users Demo.ada_pending.
Proof. repeat split; evaluate. Qed.

(** A decision is saved without the password: the stored hash is the one the
    submission stored. *)
Example decision_keeps_the_stored_hash :
  option_map (fun d => App.password (cur d))
    (InstructorApplication_findById 2 Demo.ada_approved)
  = Some (Demo.hash "secret1" "salt")
  /\ option_map (fun d => App.password (cur d))
       (InstructorApplication_findById 2 Demo.ada_rejected)
     = Some (Demo.hash "secret1" "salt")
  /\ map User.password (users Demo.ada_approved)
     = [Demo.hash "secret1" "salt"; Demo.hash "secret1" "salt"].
Proof. repeat split; evaluate. Qed.

(** The setters on code units beyond ASCII: the no-break space is trimmed,
    the Latin-1 capitals are folded, the multiplication sign is not. *)
Example setters_examples :
  Str.trim (String (ascii_of_nat 160) ("Zed" ++ String (ascii_of_nat 160) ""))
  = "Zed"
  /\ Str.trim (String (ascii_of_nat 160) "") = ""
  /\ Str.toLowerCase (String (ascii_of_nat 201) "COLE")
     = String (ascii_of_nat 233) "cole"
  /\ Str.toLowerCase (String (ascii_of_nat 215) "")
     = String (ascii_of_nat 215) ""
  /\ parseInt (Some (String (ascii_of_nat 160) "7")) = Some 7%Z.
Proof. repeat split; evaluate. Qed.

(** The stand-in request schemas refuse an address with a blank around it,
    as Joi does. *)
Example request_schema_examples :
  Joi_submit (mkSubmitBody "Ada" " ADA@x.com" "secret1" Demo.profile) <> None
  /\ Joi_login (mkLoginBody "cy@x.com " "secret1" None) <> None
  /\ Joi_submit (mkSubmitBody "Ada" "ADA@x.com" "secret1" Demo.profile) = None
  /\ Joi_submit Tour.eve = None.
Proof. repeat split; evaluate. Qed.

(** A submission that passes the request schema can still be turned down by
    the validators of the model: nothing is stored and the error leaves the
    handler with the status untouched. *)
Example bob_fails_model_validation :
  Joi_submit Demo.bob = None
  /\ submitApplication Demo.env Demo.bob Demo.with_cy
     = (Threw 200
          "InstructorApplication validation failed: profile.experience: `expert` is not a valid enum value for path `profile.experience`.",
        Demo.with_cy).
Proof. repeat split; evaluate. Qed.

(** Bob's email is in neither store and his request passes the request
    schema, yet no application is stored and the handler does not answer:
    his experience is not of the enumeration of the schema. *)
Lemma fresh_submission_can_store_nothing :
  Joi_submit Demo.bob = None
  /\ User_findOne (sb_email Demo.bob) Demo.with_cy = None
  /\ InstructorApplication_findOne (sb_email Demo.bob) Demo.with_cy = None
  /\ succeeded (fst (submitApplication Demo.env Demo.bob Demo.with_cy)) = false
  /\ snd (submitApplication Demo.env Demo.bob Demo.with_cy) = Demo.with_cy.
Proof. repeat split; evaluate. Qed.

Lemma ada_pending_fresh : fresh_ids Demo.ada_pending.
Proof.
  split.
  - vm_compute. repeat constructor. intros [].
  - vm_compute. repeat constructor.
Qed.

Lemma approve_identity_failure_witness :
  InstructorApplication_findById 2 Demo.ada_registered
  = Some (mkDocument Demo.ada_application [])
  /\ App.status Demo.ada_application = "pending"
  /\ (let w' := snd (approveApplication Demo.env 2 Demo.admin1
                       Demo.ada_registered) in
      approveApplication Demo.env 2 Demo.admin1 Demo.ada_registered
      = (Threw 200 E11000, Demo.ada_registered)
      /\ InstructorApplication_findById 2 w'
         = Some (mkDocument Demo.ada_application [])
      /\ applications w' = applications Demo.ada_registered
      /\ users w' = users Demo.ada_registered).
Proof.
  split; [evaluate|]. split; [evaluate|].
  apply (approve_identity_failure_leaves_application_pending
           (P := Demo.platform) Demo.env 2 Demo.admin1 Demo.ada_registered
           (mkDocument Demo.ada_application []) E11000); evaluate.
Defined.

Lemma application_status_witness :
  (approveApplication Demo.env 2 Demo.admin2 Demo.ada_approved
   = (InvalidState, Demo.ada_approved)
   /\ rejectApplication Demo.env 2 Demo.admin2 None Demo.ada_approved
      = (InvalidState, Demo.ada_approved))
  /\ (exists d, InstructorApplication_findById 2 Demo.ada_pending = Some d
                /\ App.status (cur d) = "pending")
  /\ (approveApplication Demo.env 2 Demo.admin1 Demo.ada_rejected
      = (InvalidState, Demo.ada_rejected)
      /\ rejectApplication Demo.env 2 Demo.admin1 None Demo.ada_rejected
         = (InvalidState, Demo.ada_rejected))
  /\ (let w2 := snd (run [(Demo.env, DeleteApplication 2)] Demo.ada_approved) in
      approveApplication Demo.env 2 Demo.admin2 w2 = (InvalidState, w2)
      \/ approveApplication Demo.env 2 Demo.admin2 w2
         = (NotFound_application, w2))
  /\ identities_created 2
       [(Demo.env, ApproveApplication 2 Demo.admin1);
        (Demo.env, ApproveApplication 2 Demo.admin2)] Demo.ada_pending <= 1.
Proof.
  destruct (application_status_is_monotonic (P := Demo.platform))
    as (A & A' & B & C).
  split; [|split; [|split; [|split]]].
  - eapply A; evaluate.
  - apply (A' Demo.env 2 Demo.admin1 None Demo.ada_pending). left. evaluate.
  - apply (B Demo.env 2 Demo.admin2 (Some "insufficient experience")
             Demo.ada_pending
             (Responded 200
                (JObj [("message", JStr "Application rejected successfully")]))
             Demo.ada_rejected); [right; evaluate|evaluate].
  - destruct (B Demo.env 2 Demo.admin1 None Demo.ada_pending
                (fst (approveApplication Demo.env 2 Demo.admin1 Demo.ada_pending))
                Demo.ada_approved) as [_ B2]; [left; evaluate|evaluate|].
    apply (B2 ada_pending_fresh [(Demo.env, DeleteApplication 2)] Demo.env
             Demo.admin2 None).
  - apply C. exact ada_pending_fresh.
Defined.

Lemma submitApplication_witness :
  Joi_submit Demo.ada = None
  /\ submitApplication Demo.env Demo.ada Demo.ada_registered
     = (Conflict_user, Demo.ada_registered)
  /\ submitApplication Demo.env Demo.ada Demo.ada_pending
     = (Conflict_application, Demo.ada_pending)
  /\ Joi_submit Demo.bob = None
  /\ submitApplication Demo.env Demo.bob Demo.with_cy
     = (Threw 200
          (ValidationError_message
             (validate
                (new_document (next_oid Demo.with_cy) (now Demo.env)
                   (mkNewApplication (sb_name Demo.bob) (sb_email Demo.bob)
                      (sb_password Demo.bob) (sb_profile Demo.bob)
                      "pending")))), Demo.with_cy)
  /\ exists a,
       fst (submitApplication Demo.env_mail_down Demo.ada Demo.with_cy)
       = Responded 201
           (JObj [("success", JBool true);
                  ("message", JStr "Instructor application submitted successfully");
                  ("applicationId", JId (App._id a))])
       /\ applications (snd (submitApplication Demo.env_mail_down Demo.ada
                               Demo.with_cy))
          = applications Demo.with_cy ++ [a]
       /\ App.status a = "pending"
       /\ App.email a = normalize "Ada@X.com".
Proof.
  assert (J : Joi_submit Demo.ada = None) by evaluate.
  assert (J' : Joi_submit Demo.bob = None) by evaluate.
  split; [exact J|]. split; [|split; [|split; [exact J'|split]]].
  3:{ apply (submitApplication_contract (P := Demo.platform) Demo.env Demo.bob
               Demo.with_cy J').
      - vm_compute. intros u [<-|[]]. discriminate.
      - intros a [].
      - vm_compute. discriminate. }
  - apply (submitApplication_contract (P := Demo.platform) Demo.env Demo.ada
             Demo.ada_registered J).
    exists (User.mk 7 "Ada" "ada@x.com" (Demo.hash "other" "salt") "student"
              false false false None).
    split; [vm_compute; right; left; reflexivity|evaluate].
  - apply (submitApplication_contract (P := Demo.platform) Demo.env Demo.ada
             Demo.ada_pending J).
    + vm_compute. intros u [<-|[]]. discriminate.
    + exists Demo.ada_application.
      split; [vm_compute; left; reflexivity|evaluate].
  - destruct (submitApplication_contract (P := Demo.platform)
                Demo.env_mail_down Demo.ada Demo.with_cy J) as (_ & _ & H & _).
    destruct H as (a & H1 & H2 & _ & H4 & H5 & _).
    + vm_compute. intros u [<-|[]]. discriminate.
    + intros a [].
    + evaluate.
    + exists a. auto.
Defined.

Lemma forgotPassword_witness :
  Joi_forgot Demo.cy_forgot = None
  /\ forgotPassword Demo.env Demo.cy_forgot Demo.empty
     = (NotFound_user, Demo.empty)
  /\ User_findOne "cy@x.com" Demo.with_cy = Some (mkUserDocument Demo.cy [])
  /\ User_findOne "cy@x.com" Demo.cy_reset
     = Some (mkUserDocument (rotated Demo.env Demo.cy) [])
  /\ fst (forgotPassword Demo.env_mail_down Demo.cy_forgot Demo.with_cy)
     = DeliveryError.
Proof.
  assert (J : Joi_forgot Demo.cy_forgot = None) by evaluate.
  assert (F : User_findOne "cy@x.com" Demo.with_cy
              = Some (mkUserDocument Demo.cy [])) by evaluate.
  split; [exact J|]. split; [|split; [exact F|split]].
  - apply (forgotPassword_contract (P := Demo.platform) Demo.env
             Demo.cy_forgot Demo.empty J).
    intros x [].
  - destruct (forgotPassword_contract (P := Demo.platform) Demo.env
                Demo.cy_forgot Demo.with_cy J) as [_ H].
    exact (proj1 (H Demo.cy F)).
  - destruct (forgotPassword_contract (P := Demo.platform) Demo.env_mail_down
                Demo.cy_forgot Demo.with_cy J) as [_ H].
    exact (proj1 (proj2 (proj2 (proj2 (proj2 (proj2 (H Demo.cy F))))))).
Defined.

Lemma notification_failure_witness :
  succeeded (fst (submitApplication (with_sendMail_error None Demo.env)
                    Demo.ada Demo.with_cy)) = true
  /\ fst (submitApplication Demo.env_mail_down Demo.ada Demo.with_cy)
     = fst (submitApplication (with_sendMail_error None Demo.env) Demo.ada
              Demo.with_cy)
  /\ console (snd (submitApplication Demo.env_mail_down Demo.ada Demo.with_cy))
     = console Demo.with_cy
       ++ ["Failed to send admin notification email: ECONNREFUSED"]
  /\ succeeded (fst (approveApplication (with_sendMail_error None Demo.env) 2
                       Demo.admin1 Demo.ada_pending)) = true
  /\ console (snd (approveApplication Demo.env_mail_down 2 Demo.admin1
                     Demo.ada_pending))
     = console Demo.ada_pending
       ++ ["Failed to send approval email: ECONNREFUSED"]
  /\ succeeded (fst (rejectApplication (with_sendMail_error None Demo.env) 2
                       Demo.admin1 None Demo.ada_pending)) = true
  /\ console (snd (rejectApplication Demo.env_mail_down 2 Demo.admin1 None
                     Demo.ada_pending))
     = console Demo.ada_pending
       ++ ["Failed to send rejection email: ECONNREFUSED"].
Proof.
  destruct (notification_failure_is_swallowed (P := Demo.platform) Demo.env
              "ECONNREFUSED" Demo.with_cy) as (S & _ & _).
  destruct (notification_failure_is_swallowed (P := Demo.platform) Demo.env
              "ECONNREFUSED" Demo.ada_pending) as (_ & A & R).
  destruct (S Demo.ada) as (S1 & _ & S3).
  destruct (A 2 Demo.admin1) as (_ & _ & A3).
  destruct (R 2 Demo.admin1 None) as (_ & _ & R3).
  assert (HS : succeeded (fst (submitApplication
                                 (with_sendMail_error None Demo.env)
                                 Demo.ada Demo.with_cy)) = true) by evaluate.
  assert (HA : succeeded (fst (approveApplication
                                 (with_sendMail_error None Demo.env) 2
                                 Demo.admin1 Demo.ada_pending)) = true) by evaluate.
  assert (HR : succeeded (fst (rejectApplication
                                 (with_sendMail_error None Demo.env) 2
                                 Demo.admin1 None Demo.ada_pending)) = true)
    by evaluate.
  split; [exact HS|]. split; [exact S1|].
  split; [exact (proj2 (S3 HS))|]. split; [exact HA|].
  split; [exact (proj2 (A3 HA))|]. split; [exact HR|].
  exact (proj2 (R3 HR)).
Defined.

Lemma login_witness :
  loginUser (mkLoginBody "nobody@x.com" "secret1" None) Demo.with_cy
  = (Unauthorized, Demo.with_cy)
  /\ loginUser (mkLoginBody "Cy@x.com" "secret2" None) Demo.with_cy
     = (Unauthorized, Demo.with_cy)
  /\ fst (loginUser (mkLoginBody "nobody@x.com" "secret1" None) Demo.with_cy)
     = fst (loginUser (mkLoginBody "Cy@x.com" "secret2" None) Demo.with_cy).
Proof.
  apply (login_does_not_reveal_account_existence (P := Demo.platform)
           (mkLoginBody "nobody@x.com" "secret1" None)
           (mkLoginBody "Cy@x.com" "secret2" None)
           Demo.with_cy Demo.with_cy Demo.cy).
  - evaluate.
  - evaluate.
  - vm_compute. intros x [<-|[]]. discriminate.
  - vm_compute. now left.
  - evaluate.
  - vm_compute. intros x [<-|[]] _. reflexivity.
Defined.

Lemma status_check_witness :
  (approve_loaded Demo.env Demo.admin2
     (InstructorApplication_findById 2 Demo.ada_approved) Demo.ada_approved
   = (InvalidState, Demo.ada_approved))
  /\ (exists a' w',
        reject_loaded Demo.env Demo.admin2 None
          (Some (mkDocument Demo.ada_application [])) Demo.ada_approved
        = (Responded 200
             (JObj [("message", JStr "Application rejected successfully")]), w')
        /\ find (fun x => (App._id x =? 2)%nat) (applications w') = Some a'
        /\ App.status a' = "rejected")
  /\ (exists a' w',
        approve_loaded Demo.env Demo.admin1
          (Some (mkDocument Demo.ada_application [])) Demo.ada_rejected
        = (fst (approveApplication Demo.env 2 Demo.admin1 Demo.ada_pending), w')
        /\ find (fun x => (App._id x =? 2)%nat) (applications w') = Some a'
        /\ App.status a' = "approved").
Proof.
  assert (L : exists d, InstructorApplication_findById 2 Demo.ada_approved
                        = Some d /\ App.status (cur d) <> "pending").
  { eexists. split; evaluate. }
  destruct L as (d & Ld & Ls).
  assert (F1 : exists stored,
             find (fun x => (App._id x =? 2)%nat) (applications Demo.ada_approved)
             = Some stored) by (eexists; evaluate).
  assert (F2 : exists stored,
             find (fun x => (App._id x =? 2)%nat) (applications Demo.ada_rejected)
             = Some stored) by (eexists; evaluate).
  assert (C : exists u w1,
             User_create
               (mkNewUser "Ada" "ada@x.com" (Demo.hash "secret1" "salt") true
                  "instructor" (Some Demo.profile)) Demo.ada_rejected
             = (inr u, w1)) by (do 2 eexists; evaluate).
  destruct F1 as (s1 & F1), F2 as (s2 & F2), C as (u & w1 & C).
  split; [|split].
  - rewrite Ld.
    exact (proj1 (proj1 (status_check_reads_loaded_document
                           (P := Demo.platform) Demo.env Demo.admin2 None d
                           Demo.ada_approved) Ls)).
  - exact (proj1 (proj2 (status_check_reads_loaded_document
                           (P := Demo.platform) Demo.env Demo.admin2 None
                           (mkDocument Demo.ada_application [])
                           Demo.ada_approved) eq_refl s1 F1)).
  - destruct (proj2 (proj2 (status_check_reads_loaded_document
                              (P := Demo.platform) Demo.env Demo.admin1 None
                              (mkDocument Demo.ada_application [])
                              Demo.ada_rejected) eq_refl s2 F2) u w1 C)
      as (a' & w' & E & Hf & Hs).
    exists a', w'. split; [|split; assumption].
    rewrite E. f_equal.
    assert (U : u = User.mk 3 "Ada" "ada@x.com" (Demo.hash "secret1" "salt")
                      "instructor" false true false (Some Demo.profile)).
    { assert (C' : fst (User_create
                          (mkNewUser "Ada" "ada@x.com"
                             (Demo.hash "secret1" "salt") true "instructor"
                             (Some Demo.profile)) Demo.ada_rejected)
                   = inr (User.mk 3 "Ada" "ada@x.com"
                            (Demo.hash "secret1" "salt") "instructor" false true
                            false (Some Demo.profile))) by evaluate.
      rewrite C in C'. now injection C'. }
    rewrite U. evaluate.
Defined.

Lemma forgotPassword_delivery_failure_witness :
  fst (forgotPassword Demo.env_mail_down Demo.cy_forgot Demo.with_cy)
  = DeliveryError
  /\ matchPassword Demo.cy "secret1" = true
  /\ exists u,
       User_findOne "cy@x.com" Demo.with_cy = Some (mkUserDocument u [])
       /\ User_findOne "cy@x.com" Demo.cy_reset_undelivered
          = Some (mkUserDocument (rotated Demo.env_mail_down u) [])
       /\ User.isTemporaryPassword (rotated Demo.env_mail_down u) = true
       /\ matchPassword (rotated Demo.env_mail_down u) "secret1" = false
       /\ loginUser (mkLoginBody "cy@x.com" "secret1" None)
            Demo.cy_reset_undelivered
          = (Unauthorized, Demo.cy_reset_undelivered).
Proof.
  assert (F : fst (forgotPassword Demo.env_mail_down Demo.cy_forgot Demo.with_cy)
              = DeliveryError) by evaluate.
  split; [exact F|]. split; [evaluate|].
  destruct (forgotPassword_delivery_failure_keeps_rotation
              (P := Demo.platform) (V := demo_vault) Demo.env_mail_down
              Demo.cy_forgot Demo.with_cy F)
    as (u & H0 & _ & H2 & _ & H4 & H5).
  destruct (H5 "secret1") as [H6 H7]; [evaluate|].
  exists u. split; [exact H0|]. split; [exact H2|]. split; [exact H4|].
  split; [exact H6|]. apply (H7 None). evaluate.
Defined.

(* ------------------------------------------------------------------ *)
(** ** What a save writes, field by field *)

Ltac copy_path_cases p :=
  repeat (destruct (p =? _); [reflexivity|]); reflexivity.

Lemma copy_path_approvedBy (src : App.t) (p : string) (dst : App.t) :
  App.approvedBy (copy_path src p dst)
  = if p =? "approvedBy" then App.approvedBy src else App.approvedBy dst.
Proof.
  unfold copy_path.
  destruct (String.eqb_spec p "approvedBy") as [->|Hn]; [reflexivity|].
  copy_path_cases p.
Qed.

Lemma copy_path_approvedAt (src : App.t) (p : string) (dst : App.t) :
  App.approvedAt (copy_path src p dst)
  = if p =? "approvedAt" then App.approvedAt src else App.approvedAt dst.
Proof.
  unfold copy_path.
  destruct (String.eqb_spec p "approvedAt") as [->|Hn]; [reflexivity|].
  copy_path_cases p.
Qed.

Lemma copy_path_rejectedBy (src : App.t) (p : string) (dst : App.t) :
  App.rejectedBy (copy_path src p dst)
  = if p =? "rejectedBy" then App.rejectedBy src else App.rejectedBy dst.
Proof.
  unfold copy_path.
  destruct (String.eqb_spec p "rejectedBy") as [->|Hn]; [reflexivity|].
  copy_path_cases p.
Qed.

Lemma copy_path_rejectedAt (src : App.t) (p : string) (dst : App.t) :
  App.rejectedAt (copy_path src p dst)
  = if p =? "rejectedAt" then App.rejectedAt src else App.rejectedAt dst.
Proof.
  unfold copy_path.
  destruct (String.eqb_spec p "rejectedAt") as [->|Hn]; [reflexivity|].
  copy_path_cases p.
Qed.

Lemma copy_path_rejectionReason (src : App.t) (p : string) (dst : App.t) :
  App.rejectionReason (copy_path src p dst)
  = if p =? "rejectionReason" then App.rejectionReason src
    else App.rejectionReason dst.
Proof.
  unfold copy_path.
  destruct (String.eqb_spec p "rejectionReason") as [->|Hn]; [reflexivity|].
  copy_path_cases p.
Qed.

Lemma copy_path_password (src : App.t) (p : string) (dst : App.t) :
  App.password (copy_path src p dst)
  = if p =? "password" then App.password src else App.password dst.
Proof.
  unfold copy_path.
  destruct (String.eqb_spec p "password") as [->|Hn]; [reflexivity|].
  copy_path_cases p.
Qed.

(** A path that [$set] copies: the stored field takes the value in memory
    when the path is marked, and has it already when it is not. *)
Lemma set_paths_synced {B : Type} (g : App.t -> B) (p : string) :
  (forall src q dst,
     g (copy_path src q dst) = if q =? p then g src else g dst) ->
  forall src dst paths,
    mem p paths = true \/ g src = g dst ->
    g (fold_right (copy_path src) dst paths) = g src.
Proof.
  intros Hc src dst paths. unfold mem.
  induction paths as [|q qs IH]; cbn [existsb fold_right].
  - now intros [H|H].
  - intros H. rewrite Hc, (String.eqb_sym q p).
    destruct (p =? q); [reflexivity|]. now apply IH.
Qed.

(** A field no path reaches. *)
Lemma set_paths_untouched {B : Type} (g : App.t -> B) :
  (forall src q dst, g (copy_path src q dst) = g dst) ->
  forall src dst paths, g (fold_right (copy_path src) dst paths) = g dst.
Proof.
  intros Hc src dst paths. induction paths as [|q qs IH]; cbn [fold_right].
  - reflexivity.
  - now rewrite Hc.
Qed.

Lemma copy_path_name (src : App.t) (p : string) (dst : App.t) :
  App.name (copy_path src p dst) = App.name dst.
Proof. unfold copy_path. copy_path_cases p. Qed.

Lemma copy_path_profile (src : App.t) (p : string) (dst : App.t) :
  App.profile (copy_path src p dst) = App.profile dst.
Proof. unfold copy_path. copy_path_cases p. Qed.

Lemma copy_path_createdAt (src : App.t) (p : string) (dst : App.t) :
  App.createdAt (copy_path src p dst) = App.createdAt dst.
Proof. unfold copy_path. copy_path_cases p. Qed.

Lemma opt_nat_eqb_eq (a b : option nat) : opt_nat_eqb a b = true -> a = b.
Proof.
  destruct a, b; simpl; try discriminate; try reflexivity.
  intros H. apply Nat.eqb_eq in H. now subst.
Qed.

Lemma opt_string_eqb_eq (a b : option string) :
  opt_string_eqb a b = true -> a = b.
Proof.
  destruct a, b; simpl; try discriminate; try reflexivity.
  intros H. apply String.eqb_eq in H. now subst.
Qed.

(** An assignment of [v] to a path: the document holds [v], and either the
    path is marked or the value was [v] before. *)
Lemma assign_sets {B : Type} (g : App.t -> B) (path : string) (same : bool)
    (f : App.t -> App.t) (v : B) (d : Document) :
  (forall a, g (f a) = v) ->
  (same = true -> g (cur d) = v) ->
  g (cur (assign path same f d)) = v
  /\ (isModified path (assign path same f d) = true \/ g (cur d) = v).
Proof.
  intros Hf Hsame.
  destruct (assign_cases path same f d) as [[E ->]|(E & -> & Hm & _)].
  - split; [now apply Hsame|right; now apply Hsame].
  - split; [apply Hf|now left].
Qed.

Lemma assign_value {B : Type} (g : App.t -> B) (path : string) (same : bool)
    (f : App.t -> App.t) (v : B) (d : Document) :
  (forall a, g (f a) = v) ->
  (same = true -> g (cur d) = v) ->
  g (cur (assign path same f d)) = v.
Proof. intros Hf Hsame. now apply assign_sets. Qed.

(** Since the document was loaded as [a], each path is either marked or
    still holds the value of [a]: assignments keep it so. *)
Lemma assign_tracked {B : Type} (g : App.t -> B) (p q : string) (same : bool)
    (f : App.t -> App.t) (a : App.t) (d : Document) :
  (q = p \/ forall x, g (f x) = g x) ->
  (isModified p d = true \/ g (cur d) = g a) ->
  isModified p (assign q same f d) = true
  \/ g (cur (assign q same f d)) = g a.
Proof.
  intros Hq T.
  destruct (assign_cases q same f d) as [[_ ->]|(_ & Hc & Hm & Hk)];
    [exact T|].
  destruct Hq as [->|Hg]; [now left|].
  destruct T as [T|T]; [left; now apply Hk|right; now rewrite Hc, Hg].
Qed.

Lemma stored_field {B : Type} (g : App.t -> B) (p : string) :
  (forall src q dst,
     g (copy_path src q dst) = if q =? p then g src else g dst) ->
  forall a d,
    isModified p d = true \/ g (cur d) = g a ->
    g (fold_right (copy_path (cur d)) a (modified d)) = g (cur d).
Proof. intros Hc a d H. now apply (set_paths_synced g p Hc). Qed.

Ltac setters :=
  unfold pre_save, set_password, set_status, set_approvedBy, set_approvedAt,
    set_rejectedBy, set_rejectedAt, set_rejectionReason.

Ltac through_assignments g :=
  setters; rewrite ?(assign_keeps g) by reflexivity.

Ltac tracked :=
  setters;
  repeat (apply assign_tracked;
          [first [left; reflexivity | right; reflexivity]|]);
  right; reflexivity.

Lemma assign_unmarked (q path : string) (same : bool) (f : App.t -> App.t)
    (d : Document) :
  (q =? path) = false ->
  isModified q d = false -> isModified q (assign path same f d) = false.
Proof.
  intros Hq Hd. unfold assign. destruct same; [exact Hd|].
  unfold isModified, mem in *. cbn [modified].
  destruct (existsb (String.eqb path) (modified d)); [exact Hd|].
  rewrite existsb_app, Hd. cbn [existsb]. now rewrite Hq.
Qed.

Ltac unmarked :=
  unfold set_status, set_approvedBy, set_approvedAt, set_rejectedBy,
    set_rejectedAt, set_rejectionReason;
  repeat (apply assign_unmarked; [reflexivity|]); reflexivity.

Section Decisions.

Context {P : Platform}.

(** A save that does not carry the password leaves the hook without effect
    on what is written. *)
Lemma pre_save_unmodified (e : Env) (d : Document) :
  isModified "password" d = false -> pre_save e d = d.
Proof. intros H. unfold pre_save. now rewrite H. Qed.

Lemma save_effect (e : Env) (d : Document) (w : World) (a : App.t) :
  find (fun x => (App._id x =? App._id (cur d))%nat) (applications w) = Some a ->
  isModified "status" d = true ->
  let d1 := pre_save e d in
  let a' :=
    App.with_updatedAt (now e)
      (fold_right (copy_path (cur d1)) a (modified d1)) in
  exists l1 l2,
    applications w = l1 ++ a :: l2
    /\ save e d w
       = (inr (mkDocument (App.with_updatedAt (now e) (cur d1)) []),
          with_applications (l1 ++ a' :: l2) w)
    /\ find (fun x => (App._id x =? App._id (cur d))%nat) (l1 ++ a' :: l2)
       = Some a'.
Proof.
  intros Hf Hm d1 a'. unfold save. fold d1.
  assert (Hm' : isModified "status" d1 = true)
    by (unfold d1; now apply pre_save_marks).
  assert (Hid : App._id (cur d1) = App._id (cur d))
    by (unfold d1; now apply pre_save_keeps).
  destruct (modified d1) as [|p ps] eqn:Hp.
  { unfold isModified in Hm'. rewrite Hp in Hm'. discriminate. }
  rewrite Hid.
  destruct (updateOne_found (App._id (cur d))
              (fun x => App.with_updatedAt (now e)
                          (fold_right (copy_path (cur d1)) x (p :: ps)))
              (applications w) a Hf)
    as (l1 & l2 & Hsplit & -> & Hfind).
  { intros x. cbn [App._id App.with_updatedAt]. apply set_paths_id. }
  exists l1, l2. split; [exact Hsplit|]. unfold a'. rewrite ?Hp.
  split; [reflexivity|exact Hfind].
Qed.

(** The document approveApplication leaves in the store. *)
Lemma approved_fields (e : Env) (admin : nat) (a : App.t) :
  let d1 :=
    pre_save e
      (set_approvedAt (Some (now e))
         (set_approvedBy (Some admin)
            (set_status "approved" (mkDocument a [])))) in
  let a' :=
    App.with_updatedAt (now e)
      (fold_right (copy_path (cur d1)) a (modified d1)) in
  App.status a' = "approved"
  /\ App.approvedBy a' = Some admin
  /\ App.approvedAt a' = Some (now e)
  /\ App.updatedAt a' = now e
  /\ App.rejectedBy a' = App.rejectedBy a
  /\ App.rejectedAt a' = App.rejectedAt a
  /\ App.rejectionReason a' = App.rejectionReason a
  /\ App._id a' = App._id a
  /\ App.name a' = App.name a
  /\ App.email a' = App.email a
  /\ App.profile a' = App.profile a
  /\ App.createdAt a' = App.createdAt a
  /\ App.password a' = App.password a.
Proof.
  cbv zeta. rewrite pre_save_unmodified by unmarked.
  cbn [App.status App.approvedBy App.approvedAt App.updatedAt
       App.rejectedBy App.rejectedAt App.rejectionReason App._id
       App.name App.email App.profile App.createdAt App.with_updatedAt
       App.password].
  rewrite (stored_field App.password "password" copy_path_password a)
    by tracked.
  rewrite (set_paths_untouched App._id copy_path_id),
    (set_paths_untouched App.name copy_path_name),
    (set_paths_untouched App.email copy_path_email),
    (set_paths_untouched App.profile copy_path_profile),
    (set_paths_untouched App.createdAt copy_path_createdAt).
  rewrite (stored_field App.status "status" copy_path_status a) by tracked.
  rewrite (stored_field App.approvedBy "approvedBy" copy_path_approvedBy a)
    by tracked.
  rewrite (stored_field App.approvedAt "approvedAt" copy_path_approvedAt a)
    by tracked.
  rewrite (stored_field App.rejectedBy "rejectedBy" copy_path_rejectedBy a)
    by tracked.
  rewrite (stored_field App.rejectedAt "rejectedAt" copy_path_rejectedAt a)
    by tracked.
  rewrite (stored_field App.rejectionReason "rejectionReason"
             copy_path_rejectionReason a) by tracked.
  repeat split.
  - through_assignments App.status.
    apply assign_value; [reflexivity|apply String.eqb_eq].
  - through_assignments App.approvedBy.
    apply assign_value; [reflexivity|apply opt_nat_eqb_eq].
  - through_assignments App.approvedAt.
    apply assign_value; [reflexivity|apply opt_nat_eqb_eq].
  - now through_assignments App.rejectedBy.
  - now through_assignments App.rejectedAt.
  - now through_assignments App.rejectionReason.
  - now through_assignments App.password.
Qed.

(** The document rejectApplication leaves in the store. *)
Lemma rejected_fields (e : Env) (admin : nat) (reason : option string)
    (a : App.t) :
  let d1 :=
    pre_save e
      (set_rejectionReason reason
         (set_rejectedAt (Some (now e))
            (set_rejectedBy (Some admin)
               (set_status "rejected" (mkDocument a []))))) in
  let a' :=
    App.with_updatedAt (now e)
      (fold_right (copy_path (cur d1)) a (modified d1)) in
  App.status a' = "rejected"
  /\ App.rejectedBy a' = Some admin
  /\ App.rejectedAt a' = Some (now e)
  /\ App.rejectionReason a' = option_map Str.trim reason
  /\ App.updatedAt a' = now e
  /\ App.approvedBy a' = App.approvedBy a
  /\ App.approvedAt a' = App.approvedAt a
  /\ App._id a' = App._id a
  /\ App.name a' = App.name a
  /\ App.email a' = App.email a
  /\ App.profile a' = App.profile a
  /\ App.createdAt a' = App.createdAt a
  /\ App.password a' = App.password a.
Proof.
  cbv zeta. rewrite pre_save_unmodified by unmarked.
  cbn [App.status App.approvedBy App.approvedAt App.updatedAt
       App.rejectedBy App.rejectedAt App.rejectionReason App._id
       App.name App.email App.profile App.createdAt App.with_updatedAt
       App.password].
  rewrite (stored_field App.password "password" copy_path_password a)
    by tracked.
  rewrite (set_paths_untouched App._id copy_path_id),
    (set_paths_untouched App.name copy_path_name),
    (set_paths_untouched App.email copy_path_email),
    (set_paths_untouched App.profile copy_path_profile),
    (set_paths_untouched App.createdAt copy_path_createdAt).
  rewrite (stored_field App.status "status" copy_path_status a) by tracked.
  rewrite (stored_field App.approvedBy "approvedBy" copy_path_approvedBy a)
    by tracked.
  rewrite (stored_field App.approvedAt "approvedAt" copy_path_approvedAt a)
    by tracked.
  rewrite (stored_field App.rejectedBy "rejectedBy" copy_path_rejectedBy a)
    by tracked.
  rewrite (stored_field App.rejectedAt "rejectedAt" copy_path_rejectedAt a)
    by tracked.
  rewrite (stored_field App.rejectionReason "rejectionReason"
             copy_path_rejectionReason a) by tracked.
  repeat split.
  - through_assignments App.status.
    apply assign_value; [reflexivity|apply String.eqb_eq].
  - through_assignments App.rejectedBy.
    apply assign_value; [reflexivity|apply opt_nat_eqb_eq].
  - through_assignments App.rejectedAt.
    apply assign_value; [reflexivity|apply opt_nat_eqb_eq].
  - through_assignments App.rejectionReason.
    apply assign_value; [reflexivity|apply opt_string_eqb_eq].
  - now through_assignments App.approvedBy.
  - now through_assignments App.approvedAt.
  - now through_assignments App.password.
Qed.

End Decisions.

(* ------------------------------------------------------------------ *)
(** ** What the application handlers store *)

Lemma existsb_none {A : Type} (f : A -> bool) (l : list A) :
  existsb f l = false -> forall x, In x l -> f x = false.
Proof.
  induction l as [|a l IH]; simpl; [contradiction|].
  intros H x [<-|Hx]; apply orb_false_iff in H; destruct H; auto.
Qed.

Lemma find_deleteOne_other (i j : nat) (l : list App.t) :
  j <> i ->
  find (fun x => (App._id x =? j)%nat) (deleteOne i l)
  = find (fun x => (App._id x =? j)%nat) l.
Proof.
  intros Hij. induction l as [|a l IH]; simpl; [reflexivity|].
  destruct (Nat.eqb_spec (App._id a) i) as [Hi|Hi].
  - destruct (Nat.eqb_spec (App._id a) j); [congruence|reflexivity].
  - simpl. now rewrite IH.
Qed.

Lemma find_deleteOne_same (i : nat) (l : list App.t) :
  NoDup (map App._id l) ->
  find (fun x => (App._id x =? i)%nat) (deleteOne i l) = None.
Proof.
  induction l as [|a l IH]; simpl; [reflexivity|]. intros H.
  inversion H as [|? ? Hn Hl]; subst.
  destruct (Nat.eqb_spec (App._id a) i) as [Hi|Hi].
  - apply find_absent. intros x Hx. apply Nat.eqb_neq. intros E.
    apply Hn. rewrite Hi, <- E. now apply in_map.
  - simpl. destruct (Nat.eqb_spec (App._id a) i); [contradiction|].
    now apply IH.
Qed.

Lemma deleteOne_split (i : nat) (l : list App.t) (a : App.t) :
  find (fun x => (App._id x =? i)%nat) l = Some a ->
  exists l1 l2, l = l1 ++ a :: l2 /\ deleteOne i l = l1 ++ l2.
Proof.
  induction l as [|x l IH]; simpl; [discriminate|].
  destruct (App._id x =? i)%nat.
  - intros [= ->]. now exists [], l.
  - intros H. destruct (IH H) as (l1 & l2 & -> & ->). now exists (x :: l1), l2.
Qed.

Section Effects.

Context {P : Platform}.

(** X1. deleteApplication: an [_id] that is not stored is answered 404 and
    nothing changes; a stored one is removed whatever its status, the other
    applications, the users and the id counter staying as they were; in a
    store with fresh ObjectIds the application can no longer be fetched, and
    deleting it once more, approving it or rejecting it is answered 404. *)
Theorem deleteApplication_removes_exactly_one (id : nat) (w : World) :
  (InstructorApplication_findById id w = None ->
   deleteApplication id w = (NotFound_application, w))
  /\ (forall a,
        InstructorApplication_findById id w = Some (mkDocument a []) ->
        let w' := snd (deleteApplication id w) in
        fst (deleteApplication id w)
        = Responded 200
            (JObj [("message", JStr "Application deleted successfully")])
        /\ (exists l1 l2, applications w = l1 ++ a :: l2
                          /\ applications w' = l1 ++ l2)
        /\ users w' = users w
        /\ next_oid w' = next_oid w
        /\ (forall j, j <> id ->
                      InstructorApplication_findById j w'
                      = InstructorApplication_findById j w)
        /\ (fresh_ids w ->
            InstructorApplication_findById id w' = None
            /\ deleteApplication id w' = (NotFound_application, w')
            /\ getApplicationById id w' = (NotFound_application, w')
            /\ forall e admin reason,
                 approveApplication e id admin w' = (NotFound_application, w')
                 /\ rejectApplication e id admin reason w'
                    = (NotFound_application, w'))).
Proof.
  split.
  - intros H. unfold deleteApplication. now rewrite H.
  - intros a Hd w'. subst w'. unfold deleteApplication. rewrite Hd.
    cbn [fst snd cur users next_oid applications with_applications].
    destruct (findById_Some _ _ _ Hd) as (a0 & E & Hf & Hid & _).
    injection E as <-. rewrite Hid.
    split; [reflexivity|]. split; [now apply deleteOne_split|].
    split; [reflexivity|]. split; [reflexivity|]. split.
    + intros j Hj. unfold InstructorApplication_findById.
      cbn [applications with_applications]. now rewrite find_deleteOne_other.
    + intros [Hnd _].
      assert (Hnone : InstructorApplication_findById id
                        (with_applications (deleteOne id (applications w)) w)
                      = None).
      { unfold InstructorApplication_findById.
        cbn [applications with_applications].
        now rewrite find_deleteOne_same. }
      split; [exact Hnone|]. unfold getApplicationById.
      unfold approveApplication, rejectApplication.
      change (deleteOne id (applications w))
        with (applications (with_applications (deleteOne id (applications w)) w))
        at 2.
      rewrite Hnone. repeat split.
Qed.

Lemma submit_effect
    (e : Env) (body : SubmitBody) (w : World) :
  succeeded (fst (submitApplication e body w)) = true ->
  let w' := snd (submitApplication e body w) in
  let a :=
    App.with_password (bcrypt_hash (sb_password body) (salt e))
      (new_document (next_oid w) (now e)
         (mkNewApplication (sb_name body) (sb_email body) (sb_password body)
            (sb_profile body) "pending")) in
  applications w' = applications w ++ [a]
  /\ App.password a = bcrypt_hash (sb_password body) (salt e)
  /\ (forall x, In x (applications w) -> App.email x <> App.email a)
  /\ users w' = users w
  /\ next_oid w' = S (next_oid w)
  /\ (sendMail_error e = None ->
      outbox w'
      = outbox w
        ++ [mkMail (EMAIL_USER e) (Str.or_else (ADMIN_EMAIL e) (EMAIL_USER e))
              "New Instructor Application - LMS Platform"
              [sb_name body; sb_email body; expertise (sb_profile body);
               experience (sb_profile body)]]).
Proof.
  unfold submitApplication.
  destruct (Joi_submit body); [discriminate|].
  destruct (User_findOne _ w); [discriminate|].
  destruct (InstructorApplication_findOne _ w); [discriminate|].
  unfold InstructorApplication_create.
  destruct (validate _); [|discriminate].
  set (a0 := new_document _ _ _).
  assert (Ha : cur (pre_save e (mkDocument a0 ["password"]))
               = App.with_password (bcrypt_hash (sb_password body) (salt e)) a0).
  { unfold pre_save, set_password, assign. cbn [cur].
    destruct (String.eqb_spec (App.password a0)
                (bcrypt_hash (App.password a0) (salt e))) as [E|E];
      [|reflexivity].
    cbn [cur]. unfold a0, new_document in *. cbn in *. now rewrite <- E. }
  rewrite Ha.
  destruct (existsb _ (applications w)) eqn:Hex; [discriminate|].
  intros _. cbn [fst snd].
  rewrite notify_applications, notify_users, notify_next_oid.
  cbn [applications users next_oid with_applications with_next_oid].
  split; [reflexivity|]. split; [reflexivity|]. split.
  { intros x Hx. apply String.eqb_neq.
    apply (existsb_none _ _ Hex x Hx). }
  split; [reflexivity|]. split; [reflexivity|].
  intros Hok. unfold notify, sendMail. rewrite Hok. reflexivity.
Qed.

Lemma approve_effect
    (e : Env) (id admin : nat) (w : World) :
  succeeded (fst (approveApplication e id admin w)) = true ->
  let w' := snd (approveApplication e id admin w) in
  exists a a' u l1 l2,
    InstructorApplication_findById id w = Some (mkDocument a [])
    /\ App.status a = "pending"
    /\ applications w = l1 ++ a :: l2
    /\ applications w' = l1 ++ a' :: l2
    /\ InstructorApplication_findById id w' = Some (mkDocument a' [])
    /\ App.status a' = "approved"
    /\ App.approvedBy a' = Some admin
    /\ App.approvedAt a' = Some (now e)
    /\ App.updatedAt a' = now e
    /\ App.rejectedBy a' = App.rejectedBy a
    /\ App.rejectedAt a' = App.rejectedAt a
    /\ App.rejectionReason a' = App.rejectionReason a
    /\ App._id a' = App._id a
    /\ App.name a' = App.name a
    /\ App.email a' = App.email a
    /\ App.profile a' = App.profile a
    /\ App.createdAt a' = App.createdAt a
    /\ App.password a' = App.password a
    /\ users w' = users w ++ [u]
    /\ u = User.mk (next_oid w) (App.name a) (normalize (App.email a))
             (App.password a) "instructor" false true false
             (Some (App.profile a))
    /\ (forall x, In x (users w) -> User.email x <> User.email u)
    /\ fst (approveApplication e id admin w)
       = Responded 200
           (JObj [("message", JStr "Application approved successfully");
                  ("user",
                   JObj [("_id", JId (User._id u));
                         ("name", JStr (User.name u));
                         ("email", JStr (User.email u));
                         ("role", JStr (User.role u))])])
    /\ (sendMail_error e = None ->
        outbox w'
        = outbox w
          ++ [mkMail (EMAIL_USER e) (Some (App.email a))
                "Instructor Application Approved - LMS Platform"
                [App.name a; App.email a;
                 match Str.or_else (FRONTEND_URL e)
                         (Some "http://localhost:3000") with
                 | Some s => s
                 | None => ""
                 end]]).
Proof.
  unfold approveApplication.
  destruct (InstructorApplication_findById id w) as [d|] eqn:Hd;
    [|discriminate].
  destruct (findById_Some _ _ _ Hd) as (a & -> & Hf & Hid & _).
  unfold approve_loaded. cbn [cur].
  destruct (String.eqb_spec (App.status a) "pending") as [Hs|Hs];
    [|discriminate].
  cbn [negb]. unfold User_create.
  cbn [nu_name nu_email nu_password nu_role nu_isInstructor nu_profile].
  destruct (existsb _ (users w)) eqn:Hex; [discriminate|].
  set (u := User.mk _ _ _ _ _ _ _ _ _) in *.
  set (w1 := with_next_oid _ _).
  destruct (approved_document e admin (mkDocument a []) Hs) as (_ & Hm & Hi).
  cbv zeta in Hm, Hi. cbn [cur] in Hi.
  assert (Hf1 : find (fun x => (App._id x
                                 =? App._id (cur (set_approvedAt (Some (now e))
                                       (set_approvedBy (Some admin)
                                          (set_status "approved"
                                             (mkDocument a []))))))%nat)
                  (applications w1) = Some a)
    by (rewrite Hi, Hid; exact Hf).
  destruct (save_effect e _ w1 a Hf1 Hm) as (l1 & l2 & Hsplit & -> & Hfind).
  intros _. cbn [fst snd].
  rewrite notify_applications, notify_users.
  cbn [applications users with_applications].
  destruct (approved_fields e admin a)
    as (F1 & F2 & F3 & F4 & F5 & F6 & F7 & F8 & F9 & F10 & F11 & F12 & F13).
  cbv zeta in *. rewrite Hi, Hid in Hfind.
  set (a' := App.with_updatedAt _ _) in *.
  exists a, a', u, l1, l2.
  split; [reflexivity|]. split; [exact Hs|]. split; [exact Hsplit|].
  split; [reflexivity|]. split.
  { unfold InstructorApplication_findById.
    rewrite notify_applications. cbn [applications with_applications].
    now rewrite Hfind. }
  repeat (split; [assumption|]).
  split; [reflexivity|]. split; [reflexivity|]. split.
  { intros x Hx. apply String.eqb_neq. apply (existsb_none _ _ Hex x Hx). }
  split; [reflexivity|].
  intros Hok. unfold notify, sendMail. rewrite Hok.
  cbn [outbox with_outbox with_applications cur App.name App.email
       App.with_updatedAt].
  rewrite (pre_save_keeps App.name), (pre_save_keeps App.email)
    by reflexivity.
  through_assignments App.name. through_assignments App.email.
  reflexivity.
Qed.

Lemma reject_effect
    (e : Env) (id admin : nat) (reason : option string) (w : World) :
  succeeded (fst (rejectApplication e id admin reason w)) = true ->
  let w' := snd (rejectApplication e id admin reason w) in
  exists a a' l1 l2,
    InstructorApplication_findById id w = Some (mkDocument a [])
    /\ App.status a = "pending"
    /\ applications w = l1 ++ a :: l2
    /\ applications w' = l1 ++ a' :: l2
    /\ InstructorApplication_findById id w' = Some (mkDocument a' [])
    /\ App.status a' = "rejected"
    /\ App.rejectedBy a' = Some admin
    /\ App.rejectedAt a' = Some (now e)
    /\ App.rejectionReason a' = option_map Str.trim reason
    /\ App.updatedAt a' = now e
    /\ App.approvedBy a' = App.approvedBy a
    /\ App.approvedAt a' = App.approvedAt a
    /\ App._id a' = App._id a
    /\ App.name a' = App.name a
    /\ App.email a' = App.email a
    /\ App.profile a' = App.profile a
    /\ App.createdAt a' = App.createdAt a
    /\ App.password a' = App.password a
    /\ users w' = users w
    /\ next_oid w' = next_oid w
    /\ fst (rejectApplication e id admin reason w)
       = Responded 200
           (JObj [("message", JStr "Application rejected successfully")])
    /\ (sendMail_error e = None ->
        outbox w'
        = outbox w
          ++ [mkMail (EMAIL_USER e) (Some (App.email a))
                "Instructor Application Update - LMS Platform"
                [App.name a;
                 match reason with
                 | Some r => if Str.truthy r then r else ""
                 | None => ""
                 end]]).
Proof.
  unfold rejectApplication.
  destruct (InstructorApplication_findById id w) as [d|] eqn:Hd;
    [|discriminate].
  destruct (findById_Some _ _ _ Hd) as (a & -> & Hf & Hid & _).
  unfold reject_loaded. cbn [cur].
  destruct (String.eqb_spec (App.status a) "pending") as [Hs|Hs];
    [|discriminate].
  cbn [negb].
  destruct (rejected_document e admin reason (mkDocument a []) Hs)
    as (_ & Hm & Hi).
  cbv zeta in Hm, Hi. cbn [cur] in Hi.
  assert (Hf1 : find (fun x => (App._id x
                                 =? App._id (cur (set_rejectionReason reason
                                       (set_rejectedAt (Some (now e))
                                          (set_rejectedBy (Some admin)
                                             (set_status "rejected"
                                                (mkDocument a [])))))))%nat)
                  (applications w) = Some a)
    by (rewrite Hi, Hid; exact Hf).
  destruct (save_effect e _ w a Hf1 Hm) as (l1 & l2 & Hsplit & -> & Hfind).
  intros _. cbn [fst snd].
  rewrite notify_applications, notify_users, notify_next_oid.
  cbn [applications users next_oid with_applications].
  destruct (rejected_fields e admin reason a)
    as (F1 & F2 & F3 & F4 & F5 & F6 & F7 & F8 & F9 & F10 & F11 & F12 & F13).
  cbv zeta in *. rewrite Hi, Hid in Hfind.
  set (a' := App.with_updatedAt _ _) in *.
  exists a, a', l1, l2.
  split; [reflexivity|]. split; [exact Hs|]. split; [exact Hsplit|].
  split; [reflexivity|]. split.
  { unfold InstructorApplication_findById.
    rewrite notify_applications. cbn [applications with_applications].
    now rewrite Hfind. }
  repeat (split; [assumption|]).
  split; [reflexivity|]. split; [reflexivity|]. split; [reflexivity|].
  intros Hok. unfold notify, sendMail. rewrite Hok.
  cbn [outbox with_outbox with_applications cur App.name App.email
       App.with_updatedAt].
  rewrite (pre_save_keeps App.name), (pre_save_keeps App.email)
    by reflexivity.
  through_assignments App.name. through_assignments App.email.
  reflexivity.
Qed.

End Effects.

(* ------------------------------------------------------------------ *)
(** ** What every request keeps true of the application collection *)

Lemma deleteOne_NoDup_map {B : Type} (g : App.t -> B) (i : nat)
    (l : list App.t) :
  NoDup (map g l) -> NoDup (map g (deleteOne i l)).
Proof.
  induction l as [|a l IH]; simpl; [auto|]. intros H.
  inversion H as [|? ? Hn Hl]; subst.
  destruct (App._id a =? i)%nat; [exact Hl|]. simpl. constructor; auto.
  intros Hin. apply Hn. apply in_map_iff in Hin.
  destruct Hin as (x & Hx & Hin). apply in_map_iff. exists x.
  split; [exact Hx|]. now apply deleteOne_incl in Hin.
Qed.

Section Kept.

Context {P : Platform}.

Lemma submit_failure_unchanged (e : Env) (body : SubmitBody) (w : World) :
  succeeded (fst (submitApplication e body w)) = false ->
  snd (submitApplication e body w) = w.
Proof.
  unfold submitApplication.
  destruct (Joi_submit body); [reflexivity|].
  destruct (User_findOne _ w); [reflexivity|].
  destruct (InstructorApplication_findOne _ w); [reflexivity|].
  destruct (InstructorApplication_create e _ w) as [[err|a] w1];
    [reflexivity|discriminate].
Qed.

(** The four ways a request changes the collection, with what each does to
    emails and statuses. *)
Lemma handle_shape (e : Env) (r : Request) (w : World) :
  let w' := snd (handle e r w) in
  applications w' = applications w
  \/ (exists a, applications w' = applications w ++ [a]
                /\ (forall x, In x (applications w) -> App.email x <> App.email a)
                /\ App.status a = "pending")
  \/ (exists l1 a a' l2,
        applications w = l1 ++ a :: l2
        /\ applications w' = l1 ++ a' :: l2
        /\ App.email a' = App.email a
        /\ (App.status a' = "approved" \/ App.status a' = "rejected"))
  \/ (exists i, applications w' = deleteOne i (applications w)).
Proof.
  destruct r as [body|q|id|id admin|id admin reason|id|body|body];
    cbn [handle].
  - destruct (succeeded (fst (submitApplication e body w))) eqn:Hs.
    + right; left.
      destruct (submit_effect e body w Hs)
        as (Ha & _ & Hfresh & _).
      eexists. split; [exact Ha|]. split; [exact Hfresh|reflexivity].
    + left. cbv zeta. now rewrite submit_failure_unchanged.
  - left. unfold getApplications. now destruct (_ <? 0)%Z.
  - left. unfold getApplicationById.
    now destruct (InstructorApplication_findById id w).
  - destruct (succeeded (fst (approveApplication e id admin w))) eqn:Hs.
    + right; right; left.
      destruct (approve_effect e id admin w Hs)
        as (a & a' & u & l1 & l2 & _ & _ & H1 & H2 & _ & H3 & _ & _ & _ & _
            & _ & _ & _ & _ & H4 & _).
      exists l1, a, a', l2. auto.
    + left. destruct (approve_cases e id admin w)
        as [(o & -> & _)|(a & a' & l1 & l2 & u & w' & E & _)];
        [reflexivity|]. rewrite E in Hs. discriminate.
  - destruct (succeeded (fst (rejectApplication e id admin reason w))) eqn:Hs.
    + right; right; left.
      destruct (reject_effect e id admin reason w Hs)
        as (a & a' & l1 & l2 & _ & _ & H1 & H2 & _ & H3 & _ & _ & _ & _
            & _ & _ & _ & _ & H4 & _).
      exists l1, a, a', l2. auto.
    + left. destruct (reject_cases e id admin reason w)
        as [(o & -> & _)|(a & a' & l1 & l2 & w' & E & _)];
        [reflexivity|]. rewrite E in Hs. discriminate.
  - unfold deleteApplication.
    destruct (InstructorApplication_findById id w) as [d|].
    + right; right; right. now exists (App._id (cur d)).
    + now left.
  - left. unfold loginUser. destruct (Joi_login body); [reflexivity|].
    destruct (User_findOne _ w); [|reflexivity].
    now destruct (matchPassword _ _).
  - left. apply forgot_cases.
Qed.

Lemma handle_keeps_emails_unique (e : Env) (r : Request) (w : World) :
  unique_emails w -> unique_emails (snd (handle e r w)).
Proof.
  unfold unique_emails. intros H.
  destruct (handle_shape e r w)
    as [->|[(a & -> & Hfresh & _)|[(l1 & a & a' & l2 & H1 & -> & He & _)
                                  |(i & ->)]]].
  - exact H.
  - rewrite map_app. apply NoDup_app; [exact H|repeat constructor; auto|].
    intros x Hx [<-|[]]. apply in_map_iff in Hx.
    destruct Hx as (y & Hy & Hin). now apply (Hfresh y Hin).
  - rewrite H1 in H. rewrite map_app in *. cbn [map] in *. now rewrite He.
  - now apply deleteOne_NoDup_map.
Qed.

Lemma handle_keeps_statuses (e : Env) (r : Request) (w : World) :
  statuses_in_enum w -> statuses_in_enum (snd (handle e r w)).
Proof.
  unfold statuses_in_enum. intros H.
  destruct (handle_shape e r w)
    as [->|[(a & -> & _ & Hs)|[(l1 & a & a' & l2 & H1 & -> & _ & Hs)
                              |(i & ->)]]].
  - exact H.
  - apply Forall_app. split; [exact H|]. repeat constructor. now rewrite Hs.
  - rewrite H1 in H. apply Forall_app in H. destruct H as [Hl1 Hl2].
    inversion Hl2; subst. apply Forall_app. split; [exact Hl1|].
    constructor; [|assumption]. now destruct Hs as [-> | ->].
  - rewrite Forall_forall in *. intros x Hx. apply H.
    now apply deleteOne_incl in Hx.
Qed.

(** X5. Whatever requests are served, in whatever order, no two stored
    applications come to share an email: a store whose application emails
    are distinct stays so over every run. *)
Theorem application_emails_stay_unique (l : list (Env * Request)) (w : World) :
  unique_emails w -> unique_emails (snd (run l w)).
Proof.
  revert w. induction l as [|[e r] l IH]; intros w H; [exact H|].
  cbn [run]. pose proof (handle_keeps_emails_unique e r w H) as H1.
  destruct (handle e r w) as [o w1]. cbn [snd] in H1.
  specialize (IH w1 H1). now destruct (run l w1).
Qed.

(** X6. Whatever requests are served, every stored application keeps a
    status of the enumeration (pending, approved, rejected): a store in
    which this holds stays so over every run. *)
Theorem application_statuses_stay_in_enum
    (l : list (Env * Request)) (w : World) :
  statuses_in_enum w -> statuses_in_enum (snd (run l w)).
Proof.
  revert w. induction l as [|[e r] l IH]; intros w H; [exact H|].
  cbn [run]. pose proof (handle_keeps_statuses e r w H) as H1.
  destruct (handle e r w) as [o w1]. cbn [snd] in H1.
  specialize (IH w1 H1). now destruct (run l w1).
Qed.

End Kept.

(* ------------------------------------------------------------------ *)
(** ** The list endpoint: pages, order, bounds *)

Lemma parseInt_or_nonzero (s : option string) (d : Z) :
  d <> 0%Z -> parseInt_or s d <> 0%Z.
Proof.
  intros Hd. unfold parseInt_or. destruct (parseInt s) as [z|]; [|exact Hd].
  destruct (Z.eqb_spec z 0); assumption.
Qed.

Lemma parseInt_or_default (s : option string) (d : Z) :
  parseInt s = None \/ parseInt s = Some 0%Z -> parseInt_or s d = d.
Proof. unfold parseInt_or. now intros [-> | ->]. Qed.

Lemma insert_desc_sorted (a : App.t) (l : list App.t) :
  StronglySorted newer_or_same l ->
  StronglySorted newer_or_same (insert_desc a l).
Proof.
  induction l as [|b l IH]; intros H; simpl.
  - repeat constructor.
  - inversion H as [|? ? Hl Hb]; subst.
    destruct (Nat.leb_spec (App.createdAt b) (App.createdAt a)) as [Hle|Hlt].
    + constructor; [exact H|]. constructor; [exact Hle|].
      eapply Forall_impl; [|exact Hb]. unfold newer_or_same. intros; lia.
    + constructor; [now apply IH|].
      apply Forall_forall. intros x Hx.
      destruct (insert_desc_In _ _ _ Hx) as [->|Hin].
      * unfold newer_or_same. lia.
      * rewrite Forall_forall in Hb. now apply Hb.
Qed.

Lemma sort_sorted (l : list App.t) :
  StronglySorted newer_or_same (sort_createdAt_desc l).
Proof.
  unfold sort_createdAt_desc. induction l as [|a l IH]; simpl.
  - constructor.
  - now apply insert_desc_sorted.
Qed.

Lemma insert_desc_perm (a : App.t) (l : list App.t) :
  Permutation (insert_desc a l) (a :: l).
Proof.
  induction l as [|b l IH]; simpl; [reflexivity|].
  destruct (App.createdAt b <=? App.createdAt a)%nat; [reflexivity|].
  rewrite IH. apply perm_swap.
Qed.

Lemma sort_perm (l : list App.t) : Permutation (sort_createdAt_desc l) l.
Proof.
  unfold sort_createdAt_desc. induction l as [|a l IH]; simpl; [reflexivity|].
  now rewrite insert_desc_perm, IH.
Qed.

Lemma skipn_sorted {A : Type} (R : A -> A -> Prop) (n : nat) (l : list A) :
  StronglySorted R l -> StronglySorted R (skipn n l).
Proof.
  revert l. induction n as [|n IH]; intros l H; [exact H|].
  destruct l as [|a l]; [exact H|]. simpl. apply IH. now inversion H.
Qed.

Lemma firstn_sorted {A : Type} (R : A -> A -> Prop) (n : nat) (l : list A) :
  StronglySorted R l -> StronglySorted R (firstn n l).
Proof.
  revert l. induction n as [|n IH]; intros l H; [constructor|].
  destruct l as [|a l]; [constructor|]. simpl.
  inversion H as [|? ? Hl Ha]; subst. constructor; [now apply IH|].
  apply Forall_forall. intros x Hx. rewrite Forall_forall in Ha.
  apply Ha. now apply in_firstn in Hx.
Qed.

Lemma firstn_plus {A : Type} (m n : nat) (l : list A) :
  firstn (m + n) l = firstn m l ++ firstn n (skipn m l).
Proof.
  revert l. induction m as [|m IH]; intros l; [reflexivity|].
  destruct l as [|a l]; simpl.
  - now rewrite firstn_nil.
  - now rewrite IH.
Qed.

(** Consecutive slices of [n] documents, from the first on, are the list up
    to there. *)
Lemma slices_concat {A : Type} (n k : nat) (l : list A) :
  concat (map (fun p => firstn n (skipn ((p - 1) * n) l)) (seq 1 k))
  = firstn (k * n) l.
Proof.
  induction k as [|k IH]; [reflexivity|].
  rewrite seq_S, map_app, concat_app, IH. cbn [map concat].
  rewrite app_nil_r. replace (1 + k - 1) with k by lia.
  replace (S k * n) with (k * n + n) by lia.
  now rewrite firstn_plus.
Qed.

Lemma ceil_div_covers (a b : Z) :
  (0 < b)%Z -> (a <= ceil_div a b * b)%Z.
Proof.
  intros Hb. unfold ceil_div.
  pose proof (Z.mul_div_le (- a) b Hb). lia.
Qed.

Lemma ceil_div_nonneg (a b : Z) :
  (0 <= a)%Z -> (0 < b)%Z -> (0 <= ceil_div a b)%Z.
Proof.
  intros Ha Hb. unfold ceil_div.
  assert ((- a) / b <= 0)%Z; [|lia].
  apply Z.div_le_upper_bound; lia.
Qed.

Lemma page_slice_positive (p : nat) (limit : Z) (l : list App.t) :
  (0 < limit)%Z ->
  page_slice (Z.of_nat p) limit l
  = firstn (Z.to_nat limit) (skipn ((p - 1) * Z.to_nat limit) l).
Proof.
  intros Hl. unfold page_slice. rewrite Z.abs_eq by lia.
  destruct p as [|p].
  - replace (Z.to_nat ((Z.of_nat 0 - 1) * limit)) with 0 by lia.
    reflexivity.
  - replace (Z.to_nat ((Z.of_nat (S p) - 1) * limit))
      with ((S p - 1) * Z.to_nat limit) by nia.
    reflexivity.
Qed.

(** X7. What getApplications answers, for a page from 1 on and a
    positive limit within the safe integers (a missing, unreadable or zero
    page counts as 1, such a limit as 10): the answer is 200 and lists,
    without their password, the documents of one slice of the matching
    applications, at most [limit] of them, each of them stored and, when a
    non-empty status is asked for, of that status; [total] counts all
    matching applications and [pages] is [total / limit] rounded up; nothing
    is written. *)
Theorem getApplications_answers_one_page (q : ListQuery) (w : World) :
  let page := query_page q in
  let limit := query_limit q in
  let docs := page_slice page limit (matching_documents q w) in
  let total := Z.of_nat (length (matching_documents q w)) in
  (1 <= page)%Z ->
  (0 < limit)%Z ->
  safe_integer (page * limit) ->
  safe_integer total ->
  getApplications q w
  = (Responded 200
       (JObj [("applications",
               JArr (map (fun a => select_minus "password" (toJSON a)) docs));
              ("page", JNum page);
              ("pages", JNum (ceil_div total limit));
              ("total", JNum total);
              ("hasNextPage", JBool (page <? ceil_div total limit)%Z);
              ("hasPrevPage", JBool (1 <? page)%Z)]), w)
  /\ length docs <= Z.to_nat limit
  /\ (parseInt (q_page q) = None \/ parseInt (q_page q) = Some 0%Z ->
      page = 1%Z)
  /\ (parseInt (q_limit q) = None \/ parseInt (q_limit q) = Some 0%Z ->
      limit = 10%Z)
  /\ (forall a, In a docs ->
                In a (applications w)
                /\ forall s, query_filter q = Some s -> App.status a = s).
Proof.
  intros page limit docs total Hp Hl _ _.
  assert (Hsort : length (sort_createdAt_desc
                            (filter (matches_filter (query_filter q))
                               (applications w)))
                  = length (filter (matches_filter (query_filter q))
                              (applications w)))
    by (apply Permutation_length, sort_perm).
  split; [|split; [|split; [|split]]].
  - unfold getApplications.
    fold (query_page q) (query_limit q) (query_filter q). fold page limit.
    replace ((page - 1) * limit <? 0)%Z with false
      by (symmetry; apply Z.ltb_ge; nia).
    unfold total, docs, page_slice, matching_documents. now rewrite Hsort.
  - unfold docs, page_slice. rewrite length_firstn. lia.
  - intros H. apply (parseInt_or_default _ 1 H).
  - intros H. apply (parseInt_or_default _ 10 H).
  - intros a Ha. unfold docs, page_slice, matching_documents in Ha.
    apply in_firstn, in_skipn, sort_In, filter_In in Ha.
    destruct Ha as [Hin Hm]. split; [exact Hin|].
    intros s Hs. rewrite Hs in Hm. now apply String.eqb_eq.
Qed.

(** X8. The documents getApplications lists are in non-increasing order of
    creation date, each of them among the matching applications; and the
    sort loses and repeats nothing: the matching applications are a
    rearrangement of the stored applications that pass the filter. *)
Theorem getApplications_lists_newest_first (q : ListQuery) (w : World) :
  (exists docs,
     listed (fst (getApplications q w))
     = map (fun a => select_minus "password" (toJSON a)) docs
     /\ StronglySorted newer_or_same docs
     /\ forall a, In a docs -> In a (matching_documents q w))
  /\ StronglySorted newer_or_same (matching_documents q w)
  /\ Permutation (matching_documents q w)
       (filter (matches_filter (query_filter q)) (applications w)).
Proof.
  split; [|split; [apply sort_sorted|apply sort_perm]].
  unfold getApplications.
  fold (query_page q) (query_limit q) (query_filter q).
  destruct (_ <? 0)%Z.
  - exists []. repeat split; [constructor|contradiction].
  - exists (page_slice (query_page q) (query_limit q) (matching_documents q w)).
    split; [reflexivity|]. split.
    + unfold page_slice. apply firstn_sorted, skipn_sorted, sort_sorted.
    + intros a Ha. unfold page_slice in Ha. now apply in_firstn, in_skipn in Ha.
Qed.

(** Consecutive slices of a list, from the first page on, are the list. *)
Lemma slices_partition (limit : Z) (l : list App.t) :
  (0 < limit)%Z ->
  forall k,
    concat (map (fun p => page_slice (Z.of_nat p) limit l) (seq 1 k))
    = firstn (k * Z.to_nat limit) l.
Proof.
  intros Hl k. rewrite <- slices_concat. f_equal. apply map_ext.
  intros p. now apply page_slice_positive.
Qed.

Lemma listed_page (q : ListQuery) (w : World) :
  (0 <= (query_page q - 1) * query_limit q)%Z ->
  listed (fst (getApplications q w))
  = map (fun a => select_minus "password" (toJSON a))
      (page_slice (query_page q) (query_limit q) (matching_documents q w)).
Proof.
  intros H. unfold getApplications.
  fold (query_page q) (query_limit q) (query_filter q).
  replace ((query_page q - 1) * query_limit q <? 0)%Z with false
    by (symmetry; now apply Z.ltb_ge).
  reflexivity.
Qed.

(** X9. Paging through the list endpoint.  For a positive limit within
    the safe integers, a status filter and a store whose applications have
    distinct creation dates, the answers to the requests for the pages 1,
    2, ..., [pages] (each with that limit and that filter, none with a write
    in between) list, one after the other, exactly the matching
    applications, newest first: every one of them is on some page, none on
    two. *)
Theorem pages_partition_the_listing
    (w : World) (limit : Z) (status : option string)
    (request : nat -> ListQuery) :
  let l :=
    sort_createdAt_desc
      (filter (matches_filter status) (applications w)) in
  let pages := Z.to_nat (ceil_div (Z.of_nat (length l)) limit) in
  (0 < limit)%Z ->
  safe_integer (Z.of_nat pages * limit) ->
  NoDup (map App.createdAt (applications w)) ->
  (forall p, 1 <= p <= pages ->
             query_page (request p) = Z.of_nat p
             /\ query_limit (request p) = limit
             /\ query_filter (request p) = status) ->
  concat (map (fun p => listed (fst (getApplications (request p) w)))
            (seq 1 pages))
  = map (fun a => select_minus "password" (toJSON a)) l.
Proof.
  intros l pages Hl _ _ Hq.
  assert (Hpage : forall p, In p (seq 1 pages) ->
             listed (fst (getApplications (request p) w))
             = map (fun a => select_minus "password" (toJSON a))
                 (page_slice (Z.of_nat p) limit l)).
  { intros p Hp. apply in_seq in Hp.
    destruct (Hq p) as (E1 & E2 & E3); [lia|].
    rewrite listed_page by (rewrite E1, E2; nia).
    unfold matching_documents. now rewrite E1, E2, E3. }
  rewrite (map_ext_in _ _ _ Hpage), <- (map_map _ (map _)), <- concat_map.
  f_equal. rewrite (slices_partition limit l Hl). apply firstn_all2.
  pose proof (ceil_div_covers (Z.of_nat (length l)) limit Hl).
  pose proof (ceil_div_nonneg (Z.of_nat (length l)) limit
                (Nat2Z.is_nonneg _) Hl).
  unfold pages. nia.
Qed.

(* ------------------------------------------------------------------ *)
(** ** The validators of the schema *)

Lemma required_nil (path msg v : string) (rest : list ValidatorError) :
  required path msg v rest = [] <-> v <> "" /\ rest = [].
Proof.
  unfold required. destruct (String.eqb_spec v "") as [->|Hv].
  - split; [discriminate|]. now intros [H _].
  - split; [now intros ->|now intros [_ ->]].
Qed.

Lemma matching_nil (path msg : string) (r : Regex.re) (v : option string) :
  matching path msg r v = []
  <-> forall s, v = Some s -> s = "" \/ Regex.test r s = true.
Proof.
  unfold matching. destruct v as [s|].
  - destruct (String.eqb_spec s "") as [->|Hs]; cbn [orb].
    + split; [intros _ s' [= <-]; now left|reflexivity].
    + destruct (Regex.test r s) eqn:Ht.
      * split; [intros _ s' [= <-]; now right|reflexivity].
      * split; [discriminate|]. intros H.
        destruct (H s eq_refl) as [E|E]; [contradiction|congruence].
  - split; [intros _ s H; discriminate H|reflexivity].
Qed.

Lemma app_nil_iff {A : Type} (l l' : list A) :
  l ++ l' = [] <-> l = [] /\ l' = [].
Proof.
  split; [apply app_eq_nil|]. now intros [-> ->].
Qed.

Lemma mem_In (s : string) (l : list string) : mem s l = true <-> In s l.
Proof.
  unfold mem. rewrite existsb_exists. split.
  - intros (x & Hx & E). apply String.eqb_eq in E. now subst.
  - intros H. exists s. split; [exact H|apply String.eqb_refl].
Qed.

Lemma enum_nil (path : string) (allowed : list string) (v : string) :
  enum path allowed v = [] <-> In v allowed.
Proof.
  unfold enum. rewrite <- mem_In. destruct (mem v allowed).
  - split; reflexivity.
  - split; discriminate.
Qed.

Lemma minlength_nil (path msg : string) (n : nat) (v : string) :
  minlength path msg n v = [] <-> n <= String.length v.
Proof.
  unfold minlength. destruct (Nat.ltb_spec (String.length v) n).
  - split; [discriminate|lia].
  - split; [now intros _|reflexivity].
Qed.

(** The validators accept a document exactly when it meets the demands of
    the schema. *)
Lemma validate_nil (a : App.t) :
  validate a = [] <-> meets_schema a.
Proof.
  unfold validate, meets_schema.
  rewrite !app_nil_iff, !required_nil, !matching_nil, !enum_nil,
    minlength_nil.
  split.
  - intros H. decompose [and] H. clear H. repeat split; auto.
    match goal with
    | Hm : forall s, Some _ = Some s -> _ |- _ =>
        destruct (Hm _ eq_refl) as [E|E]; [contradiction|exact E]
    end.
  - intros (Hn & He & Hm & Hl & Hb & Hx & Hen & Hed & Hli & Hgi & Hpo & Hst).
    repeat split; auto.
    + intros s [= <-]. now right.
    + intros E. rewrite E in Hl. cbn in Hl. lia.
    + intros E. rewrite E in Hen. cbn in Hen. intuition discriminate.
Qed.

Section Admission.

Context {P : Platform}.

(** X10. submitApplication stores only documents the schema admits.  When
    a submission goes through, the document built from it had a non-empty
    name, an email matching the email pattern, a password of at least six
    characters, a non-empty bio, expertise and education, an experience of
    the enumeration and URLs that are absent, empty or match their patterns.
    When the request passed the request schema, the email is taken by nobody
    and the document fails one of these demands, the validation error of
    the model for the failing paths leaves the handler and nothing is
    stored. *)
Theorem submitApplication_admits_only_schema_documents
    (e : Env) (body : SubmitBody) (w : World) :
  let a :=
    new_document (next_oid w) (now e)
      (mkNewApplication (sb_name body) (sb_email body) (sb_password body)
         (sb_profile body) "pending") in
  (succeeded (fst (submitApplication e body w)) = true -> meets_schema a)
  /\ (Joi_submit body = None ->
      User_findOne (sb_email body) w = None ->
      InstructorApplication_findOne (sb_email body) w = None ->
      ~ meets_schema a ->
      submitApplication e body w
      = (Threw 200 (ValidationError_message (validate a)), w)).
Proof.
  intros a. split.
  - unfold submitApplication.
    destruct (Joi_submit body); [discriminate|].
    destruct (User_findOne _ w); [discriminate|].
    destruct (InstructorApplication_findOne _ w); [discriminate|].
    unfold InstructorApplication_create. fold a.
    destruct (validate a) eqn:Hv; [|discriminate].
    intros _. now apply validate_nil.
  - intros J Hu Ha Hn. unfold submitApplication. rewrite J, Hu, Ha.
    unfold InstructorApplication_create. fold a.
    destruct (validate a) eqn:Hv; [|reflexivity].
    exfalso. apply Hn. now apply validate_nil.
Qed.

End Admission.

(* ------------------------------------------------------------------ *)
(** ** registerUser, changePassword, getUserProfile *)

Lemma replaceOne_by_id (u' : User.t) (l : list User.t) (u : User.t) :
  find (fun x => (User._id x =? User._id u')%nat) l = Some u ->
  exists l', replaceOne u' l = Some l'
             /\ find (fun x => (User._id x =? User._id u')%nat) l' = Some u'
             /\ length l' = length l.
Proof.
  induction l as [|x l IH]; simpl; [discriminate|].
  destruct (User._id x =? User._id u')%nat eqn:Ex.
  - intros _. exists (u' :: l). simpl. now rewrite Nat.eqb_refl.
  - intros H. destruct (IH H) as (l' & -> & Hf & Hlen).
    exists (x :: l'). simpl. now rewrite Ex, Hf, Hlen.
Qed.

Lemma user_projection_has_no_password (u : User.t) :
  has_key "password" (select_minus "password" (user_json u)) = false.
Proof. unfold user_json. apply select_minus_has_no_key. Qed.

Section AccountFacts.

Context {P : Platform} {Sch : AuthSchemas}.

Lemma User_findById_Some (id : nat) (w : World) (d : UserDocument) :
  User_findById id w = Some d ->
  exists u, d = mkUserDocument u []
            /\ find (fun x => (User._id x =? id)%nat) (users w) = Some u
            /\ User._id u = id /\ In u (users w).
Proof.
  unfold User_findById.
  destruct (find _ (users w)) as [u|] eqn:E; [|discriminate].
  intros [= <-]. exists u. apply find_some in E. destruct E as [Hin Hid].
  apply Nat.eqb_eq in Hid. auto.
Qed.

(** What [changePassword] stores and answers once the current password has
    verified. *)
Lemma changePassword_effect (e : Env) (uid : nat) (body : ChangeBody)
    (w : World) (u : User.t) :
  Joi_change body = None ->
  User_findById uid w = Some (mkUserDocument u []) ->
  matchPassword u (cb_currentPassword body) = true ->
  let u' := changed e (cb_newPassword body) u in
  exists l,
    changePassword e uid body w
    = (Responded 200
         (JObj [("message", JStr "Password changed successfully");
                ("_id", JId (User._id u')); ("name", JStr (User.name u'));
                ("email", JStr (User.email u'));
                ("isAdmin", JBool (User.isAdmin u'));
                ("isInstructor", JBool (User.isInstructor u'));
                ("role", JStr (User.role u'));
                ("token", JStr (generateToken u'))]),
       with_users l w)
    /\ replaceOne u' (users w) = Some l
    /\ User_findById uid (with_users l w) = Some (mkUserDocument u' [])
    /\ length l = length (users w).
Proof.
  intros J Hu Hm u'. unfold changePassword. rewrite J, Hu. cbn [ucur].
  rewrite Hm. cbn [negb].
  destruct (User_findById_Some _ _ _ Hu) as (u0 & E & Hf & Hid & _).
  injection E as <-.
  assert (Hid' : User._id u' = uid) by exact Hid.
  rewrite <- Hid' in Hf.
  destruct (replaceOne_by_id u' (users w) u Hf) as (l & Hr & Hfind & Hlen).
  exists l. unfold User_save. cbn -[replaceOne]. fold (changed e (cb_newPassword body) u).
  fold u'. rewrite Hr. split; [reflexivity|]. split; [reflexivity|].
  split; [|exact Hlen]. unfold User_findById. cbn [users with_users].
  rewrite <- Hid'. now rewrite Hfind.
Qed.

Lemma replaceOne_find_id (u' : User.t) (l l' : list User.t) :
  replaceOne u' l = Some l' ->
  find (fun x => (User._id x =? User._id u')%nat) l' = Some u'.
Proof.
  revert l'. induction l as [|x l IH]; simpl; intros l'; [discriminate|].
  destruct (User._id x =? User._id u')%nat eqn:Ex.
  - intros [= <-]. simpl. now rewrite Nat.eqb_refl.
  - destruct (replaceOne u' l) as [m|]; [|discriminate].
    intros [= <-]. simpl. rewrite Ex. now apply IH.
Qed.

(** After [forgotPassword], the Identity is found under its [_id] with the
    rotation stored. *)
Lemma forgot_effect_by_id (e : Env) (body : ForgotBody) (w : World)
    (u : User.t) :
  Joi_forgot body = None ->
  User_findOne (fb_email body) w = Some (mkUserDocument u []) ->
  User_findById (User._id u) (snd (forgotPassword e body w))
  = Some (mkUserDocument (rotated e u) []).
Proof.
  intros J Hu. unfold forgotPassword. rewrite J, Hu.
  unfold User_save. cbn -[replaceOne]. fold (rotated e u).
  assert (Hf : find (fun x => User.email x =? normalize (fb_email body))
                 (users w) = Some u).
  { unfold User_findOne in Hu. destruct (find _ (users w)); now inversion Hu. }
  assert (He : User.email u = normalize (fb_email body)).
  { apply find_some in Hf. now apply String.eqb_eq. }
  destruct (replaceOne_found _ u (rotated e u) (users w) Hf eq_refl He)
    as (l & Hr & _).
  rewrite Hr. unfold User_findById, sendMail.
  change (User._id u) with (User._id (rotated e u)).
  destruct (sendMail_error e); cbn [snd users with_users with_outbox
                                     console_error with_console];
    now rewrite (replaceOne_find_id _ _ _ Hr).
Qed.

(** X11. changePassword, for a request that passes the request schema:
    an unknown [_id] is answered 404 and a current password that does not
    verify is answered 400 ("Current password is incorrect"), both leaving
    the world as it was; when the current password verifies, the handler
    succeeds, and the Identity of that [_id] now carries the hash of the new
    password and is no longer marked temporary, its name, email, role and
    flags unchanged; no Identity is added or removed, no application
    touched, and the answer carries no password. *)
Theorem changePassword_contract (e : Env) (uid : nat) (body : ChangeBody)
    (w : World) :
  Joi_change body = None ->
  (User_findById uid w = None ->
   changePassword e uid body w = (Threw 404 "User not found", w))
  /\ forall u,
       User_findById uid w = Some (mkUserDocument u []) ->
       (matchPassword u (cb_currentPassword body) = false ->
        changePassword e uid body w
        = (Threw 400 "Current password is incorrect", w))
       /\ (matchPassword u (cb_currentPassword body) = true ->
           let w' := snd (changePassword e uid body w) in
           let u' := changed e (cb_newPassword body) u in
           succeeded (fst (changePassword e uid body w)) = true
           /\ User_findById uid w' = Some (mkUserDocument u' [])
           /\ User.password u' = bcrypt_hash (cb_newPassword body) (salt e)
           /\ User.isTemporaryPassword u' = false
           /\ (User._id u', User.name u', User.email u', User.role u',
               User.isAdmin u', User.isInstructor u', User.profile u')
              = (User._id u, User.name u, User.email u, User.role u,
                 User.isAdmin u, User.isInstructor u, User.profile u)
           /\ length (users w') = length (users w)
           /\ applications w' = applications w
           /\ match fst (changePassword e uid body w) with
              | Responded _ j => has_key "password" j = false
              | Threw _ _ => False
              end).
Proof.
  intros J. split.
  - intros H. unfold changePassword. now rewrite J, H.
  - intros u Hu. split.
    + intros Hm. unfold changePassword. rewrite J, Hu. cbn [ucur].
      now rewrite Hm.
    + intros Hm w' u'. subst w'.
      destruct (changePassword_effect e uid body w u J Hu Hm)
        as (l & -> & _ & Hfind & Hlen).
      cbn [fst snd succeeded]. repeat split; auto.
Qed.

(** X12. After a successful changePassword, under the vault contract, for
    an Identity that its own email resolves to: a login with that email and
    the new password succeeds, and a login with any other password -- the
    former one included -- is answered Unauthorized. *)
Theorem changePassword_then_login {V : Vault P} (e : Env) (uid : nat)
    (body : ChangeBody) (w : World) (u : User.t) :
  Joi_change body = None ->
  User_findById uid w = Some (mkUserDocument u []) ->
  User_findOne (User.email u) w = Some (mkUserDocument u []) ->
  matchPassword u (cb_currentPassword body) = true ->
  let w' := snd (changePassword e uid body w) in
  forall flag secret,
    Joi_login (mkLoginBody (User.email u) secret flag) = None ->
    (secret = cb_newPassword body ->
     succeeded (fst (loginUser (mkLoginBody (User.email u) secret flag) w'))
     = true)
    /\ (secret <> cb_newPassword body ->
        loginUser (mkLoginBody (User.email u) secret flag) w'
        = (Unauthorized, w')).
Proof.
  intros J Hu He Hm w' flag secret JL. subst w'.
  destruct (changePassword_effect e uid body w u J Hu Hm)
    as (l & -> & Hr & _ & _). cbn [snd].
  assert (Hf : find (fun x => User.email x =? normalize (User.email u))
                 (users w) = Some u).
  { unfold User_findOne in He. destruct (find _ (users w)); now inversion He. }
  assert (Hn : User.email u = normalize (User.email u)).
  { apply find_some in Hf. now apply String.eqb_eq. }
  destruct (replaceOne_found _ u (changed e (cb_newPassword body) u)
              (users w) Hf eq_refl Hn) as (l' & Hr' & Hfind & _).
  rewrite Hr in Hr'. injection Hr' as <-.
  unfold loginUser. rewrite JL. cbn [lb_email lb_password].
  unfold User_findOne. cbn [users with_users]. rewrite Hfind.
  cbn [option_map ucur]. unfold matchPassword, changed.
  cbn [User.password User.with_password].
  split.
  - intros ->. now rewrite compare_hash.
  - intros Hne. now rewrite compare_other.
Qed.

(** X13. forgotPassword followed by changePassword with the generated
    secret as current password, under the vault contract: the change
    succeeds, the Identity is no longer marked temporary, and it carries the
    hash of the new password. *)
Theorem forgot_then_change_clears_the_temporary_flag {V : Vault P}
    (e1 e2 : Env) (fb : ForgotBody) (body : ChangeBody) (w : World)
    (u : User.t) :
  Joi_forgot fb = None ->
  User_findOne (fb_email fb) w = Some (mkUserDocument u []) ->
  Joi_change body = None ->
  cb_currentPassword body = random_password e1 ->
  let w1 := snd (forgotPassword e1 fb w) in
  let w2 := snd (changePassword e2 (User._id u) body w1) in
  option_map (fun d => User.isTemporaryPassword (ucur d))
    (User_findById (User._id u) w1) = Some true
  /\ succeeded (fst (changePassword e2 (User._id u) body w1)) = true
  /\ option_map (fun d => (User.isTemporaryPassword (ucur d),
                            User.password (ucur d)))
       (User_findById (User._id u) w2)
     = Some (false, bcrypt_hash (cb_newPassword body) (salt e2)).
Proof.
  intros JF Hu JC Hc w1 w2.
  pose proof (forgot_effect_by_id e1 fb w u JF Hu) as H1. fold w1 in H1.
  split; [now rewrite H1|].
  assert (Hm : matchPassword (rotated e1 u) (cb_currentPassword body) = true).
  { rewrite Hc. unfold matchPassword, rotated.
    cbn [User.password User.with_password]. apply compare_hash. }
  destruct (changePassword_effect e2 (User._id u) body w1 (rotated e1 u)
              JC H1 Hm) as (l & E & _ & Hfind & _).
  unfold w2. rewrite E. cbn [fst snd succeeded].
  split; [reflexivity|]. now rewrite Hfind.
Qed.

(** X14. getUserProfile answers 404 exactly when no Identity has the
    [_id]; otherwise it answers the stored Identity without its [password]
    property, the other properties as stored; it changes nothing. *)
Theorem getUserProfile_never_shows_the_secret (uid : nat) (w : World) :
  snd (getUserProfile uid w) = w
  /\ match fst (getUserProfile uid w) with
     | Responded c j =>
         c = 200
         /\ has_key "password" j = false
         /\ exists u, In u (users w) /\ User._id u = uid
                      /\ j = select_minus "password" (user_json u)
                      /\ get "email" j = Some (JStr (User.email u))
                      /\ get "role" j = Some (JStr (User.role u))
                      /\ get "isTemporaryPassword" j
                         = Some (JBool (User.isTemporaryPassword u))
     | Threw c m =>
         c = 404 /\ m = "User not found" /\ User_findById uid w = None
     end.
Proof.
  unfold getUserProfile.
  destruct (User_findById uid w) as [d|] eqn:Hd; [|now repeat split].
  destruct (User_findById_Some _ _ _ Hd) as (u & -> & _ & Hid & Hin).
  cbn [fst snd ucur]. split; [reflexivity|]. split; [reflexivity|].
  split; [apply user_projection_has_no_password|].
  exists u. repeat split; auto.
Qed.


End AccountFacts.

(* ------------------------------------------------------------------ *)
(** ** The matcher decides the language of the pattern *)

Lemma append_nil_r (s : string) : (s ++ "")%string = s.
Proof. induction s as [|c s IH]; simpl; [reflexivity|now rewrite IH]. Qed.

Lemma append_assoc (s1 s2 s3 : string) :
  ((s1 ++ s2) ++ s3)%string = (s1 ++ (s2 ++ s3))%string.
Proof. induction s1 as [|c s1 IH]; simpl; [reflexivity|now rewrite IH]. Qed.

Lemma append_eq_nil (s1 s2 : string) :
  (s1 ++ s2)%string = "" -> s1 = "" /\ s2 = "".
Proof. destruct s1; simpl; [auto|discriminate]. Qed.

Lemma matches_void (s : string) : ~ matches Regex.Void s.
Proof. intros H. inversion H. Qed.

Lemma matches_cat_smart (a b : Regex.re) (s : string) :
  matches (Regex.cat a b) s <-> matches (Regex.Cat a b) s.
Proof.
  split.
  - destruct a, b; simpl; intros H; try exact H;
      try (now apply matches_void in H);
      change s with ("" ++ s)%string; constructor;
      first [exact H|constructor].
  - intros H. inversion H as [| |r1 r2 s1 s2 H1 H2| | | |]; subst.
    destruct a, b; simpl; try (now constructor);
      try (now apply matches_void in H1);
      try (now apply matches_void in H2);
      inversion H1; subst; exact H2.
Qed.

Lemma matches_alt_smart (a b : Regex.re) (s : string) :
  matches (Regex.alt a b) s <-> matches (Regex.Alt a b) s.
Proof.
  split.
  - destruct a, b; simpl; intros H; try exact H;
      try (now apply m_alt_r); try (now apply m_alt_l).
  - intros H. inversion H; subst;
      destruct a, b; simpl; try (now constructor); try assumption;
      match goal with H' : matches Regex.Void _ |- _ =>
        now apply matches_void in H' end.
Qed.

Lemma nullable_matches (r : Regex.re) :
  Regex.nullable r = true <-> matches r "".
Proof.
  induction r as [| |p|a IHa b IHb|a IHa b IHb|a IHa]; simpl.
  - split; [discriminate|]. intros H. inversion H.
  - split; [constructor|reflexivity].
  - split; [discriminate|]. intros H. inversion H.
  - rewrite andb_true_iff, IHa, IHb. split.
    + intros [Ha Hb]. change "" with ("" ++ "")%string. now constructor.
    + intros H. inversion H as [| |r1 r2 s1 s2 H1 H2 E| | | |]; subst.
      match goal with E : (_ ++ _)%string = "" |- _ =>
        apply append_eq_nil in E; destruct E; subst end. now split.
  - rewrite orb_true_iff, IHa, IHb. split.
    + intros [H|H]; [now apply m_alt_l|now apply m_alt_r].
    + intros H. inversion H; subst; auto.
  - split; [constructor|reflexivity].
Qed.

(** A non-empty match of a star starts with a non-empty match of its
    body. *)
Lemma matches_star_cons (r : Regex.re) (c : ascii) (s : string) :
  matches (Regex.Star r) (String c s) ->
  exists s1 s2, s = (s1 ++ s2)%string
                /\ matches r (String c s1) /\ matches (Regex.Star r) s2.
Proof.
  intros H. remember (Regex.Star r) as r' eqn:Hr.
  remember (String c s) as t eqn:Ht. revert c s Ht.
  induction H as [| | | | | |r0 s1 s2 H1 _ H2 IH2]; intros c0 s0 Ht;
    try discriminate.
  injection Hr as ->. destruct s1 as [|c1 s1].
  - simpl in Ht. now apply IH2.
  - simpl in Ht. injection Ht as -> <-. now exists s1, s2.
Qed.

Lemma deriv_matches (r : Regex.re) (c : ascii) (s : string) :
  matches (Regex.deriv c r) s <-> matches r (String c s).
Proof.
  revert s. induction r as [| |p|a IHa b IHb|a IHa b IHb|a IHa]; intros s;
    simpl.
  - split; intros H; inversion H.
  - split; intros H; inversion H.
  - destruct (p c) eqn:Hp.
    + split.
      * intros H. inversion H; subst. now constructor.
      * intros H. inversion H; subst. constructor.
    + split; [intros H; inversion H|].
      intros H. inversion H; subst. congruence.
  - assert (Hcat : matches (Regex.cat (Regex.deriv c a) b) s
                   <-> exists s1 s2, s = (s1 ++ s2)%string
                                     /\ matches a (String c s1)
                                     /\ matches b s2).
    { rewrite matches_cat_smart. split.
      - intros H. inversion H as [| |r1 r2 s1 s2 H1 H2| | | |]; subst.
        exists s1, s2. rewrite <- IHa. auto.
      - intros (s1 & s2 & -> & H1 & H2). constructor; [now apply IHa|exact H2]. }
    assert (Hwhole : matches (Regex.Cat a b) (String c s)
                     <-> (exists s1 s2, s = (s1 ++ s2)%string
                                        /\ matches a (String c s1)
                                        /\ matches b s2)
                         \/ (matches a "" /\ matches b (String c s))).
    { split.
      - intros H. inversion H as [| |r1 r2 s1 s2 H1 H2 E| | | |]; subst.
        destruct s1 as [|c1 s1]; simpl in *.
        + right. subst. now split.
        + left. match goal with E : String _ _ = String _ _ |- _ =>
            injection E as -> <- end. now exists s1, s2.
      - intros [(s1 & s2 & -> & H1 & H2)|[H1 H2]].
        + change (String c (s1 ++ s2)) with (String c s1 ++ s2)%string.
          now constructor.
        + change (String c s) with ("" ++ String c s)%string.
          now constructor. }
    rewrite Hwhole. destruct (Regex.nullable a) eqn:Hn.
    + rewrite matches_alt_smart. split.
      * intros H. inversion H; subst.
        -- left. now apply Hcat.
        -- right. split; [now apply nullable_matches|now apply IHb].
      * intros [H|[_ H]].
        -- apply m_alt_l. now apply Hcat.
        -- apply m_alt_r. now apply IHb.
    + rewrite Hcat. split; [auto|]. intros [H|[H _]]; [exact H|].
      apply nullable_matches in H. congruence.
  - rewrite matches_alt_smart. split.
    + intros H. inversion H; subst;
        [apply m_alt_l; now apply IHa|apply m_alt_r; now apply IHb].
    + intros H. inversion H; subst;
        [apply m_alt_l; now apply IHa|apply m_alt_r; now apply IHb].
  - rewrite matches_cat_smart. split.
    + intros H. inversion H as [| |r1 r2 s1 s2 H1 H2| | | |]; subst.
      change (String c (s1 ++ s2)) with (String c s1 ++ s2)%string.
      constructor; [now apply IHa|exact H2].
    + intros H. destruct (matches_star_cons _ _ _ H) as (s1 & s2 & -> & H1 & H2).
      constructor; [now apply IHa|exact H2].
Qed.

(** [test] accepts exactly the strings of the language. *)
Lemma test_matches (r : Regex.re) (s : string) :
  Regex.test r s = true <-> matches r s.
Proof.
  revert r. induction s as [|c s IH]; intros r; simpl.
  - apply nullable_matches.
  - rewrite IH. apply deriv_matches.
Qed.

(* ------------------------------------------------------------------ *)
(** ** What the patterns of the schema accept *)

Lemma every_append (p : ascii -> bool) (s1 s2 : string) :
  every p (s1 ++ s2) = every p s1 && every p s2.
Proof.
  induction s1 as [|c s1 IH]; simpl; [reflexivity|].
  now rewrite IH, andb_assoc.
Qed.

Lemma occurrences_append (c : ascii) (s1 s2 : string) :
  occurrences c (s1 ++ s2) = occurrences c s1 + occurrences c s2.
Proof.
  induction s1 as [|d s1 IH]; simpl; [reflexivity|]. rewrite IH. lia.
Qed.

Lemma every_no_occurrence (p : ascii -> bool) (c : ascii) (s : string) :
  p c = false -> every p s = true -> occurrences c s = 0.
Proof.
  intros Hc. induction s as [|d s IH]; simpl; [reflexivity|].
  intros H. apply andb_true_iff in H. destruct H as [Hd Hs].
  destruct (Ascii.eqb_spec c d) as [->|_]; [congruence|]. now rewrite IH.
Qed.

Lemma matches_within (q : ascii -> bool) (r : Regex.re) (s : string) :
  within q r -> matches r s -> every q s = true.
Proof.
  intros Hw H. induction H; simpl in *; try reflexivity.
  - now rewrite Hw.
  - destruct Hw. rewrite every_append, IHmatches1, IHmatches2; auto.
  - destruct Hw. auto.
  - destruct Hw. auto.
  - rewrite every_append, IHmatches1, IHmatches2; auto.
Qed.

Lemma matches_cat (a b : Regex.re) (s : string) :
  matches (Regex.Cat a b) s
  <-> exists s1 s2, s = (s1 ++ s2)%string /\ matches a s1 /\ matches b s2.
Proof.
  split.
  - intros H. inversion H; subst. eauto.
  - intros (s1 & s2 & -> & H1 & H2). now constructor.
Qed.

Lemma matches_chr (c : ascii) (s : string) :
  matches (Regex.chr c) s <-> s = String c "".
Proof.
  unfold Regex.chr. split.
  - intros H. inversion H as [|p d Hd| | | | |]; subst.
    apply Ascii.eqb_eq in Hd. now subst.
  - intros ->. constructor. apply Ascii.eqb_refl.
Qed.

Lemma matches_lit (w s : string) : matches (Regex.lit w) s <-> s = w.
Proof.
  revert s. induction w as [|c w IH]; intros s; simpl.
  - split; [intros H; now inversion H|intros ->; constructor].
  - rewrite matches_cat. split.
    + intros (s1 & s2 & -> & H1 & H2).
      apply matches_chr in H1. apply IH in H2. now subst.
    + intros ->. exists (String c ""), w. repeat split.
      * now apply matches_chr.
      * now apply IH.
Qed.

Lemma matches_opt (r : Regex.re) (s : string) :
  matches (Regex.opt r) s <-> s = "" \/ matches r s.
Proof.
  unfold Regex.opt. split.
  - intros H. inversion H as [| | |r1 r2 s0 H1|r1 r2 s0 H1| |]; subst.
    + left. now inversion H1.
    + now right.
  - intros [->|H]; [apply m_alt_l; constructor|now apply m_alt_r].
Qed.

Lemma matches_star_sym (p : ascii -> bool) (s : string) :
  matches (Regex.Star (Regex.Sym p)) s <-> every p s = true.
Proof.
  split.
  - apply matches_within. now simpl.
  - induction s as [|c s IH]; simpl; [constructor|].
    intros H. apply andb_true_iff in H. destruct H as [Hc Hs].
    change (String c s) with (String c "" ++ s)%string.
    constructor; [now constructor|now apply IH].
Qed.

(** A non-empty match of a star ends with a match of its body. *)
Lemma matches_star_last (r : Regex.re) (s : string) :
  matches (Regex.Star r) s ->
  s = "" \/ exists pre last, s = (pre ++ last)%string
                             /\ matches (Regex.Star r) pre
                             /\ matches r last.
Proof.
  intros H. remember (Regex.Star r) as r' eqn:Hr.
  induction H as [| | | | | |r0 s1 s2 H1 _ H2 IH2]; try discriminate.
  - now left.
  - injection Hr as ->. right.
    destruct (IH2 eq_refl) as [->|(pre & last & -> & Hp & Hl)].
    + exists "", s1. rewrite append_nil_r. repeat split; [constructor|exact H1].
    + exists (s1 ++ pre)%string, last. rewrite append_assoc.
      repeat split; [now constructor|exact Hl].
Qed.

Lemma matches_scheme (s : string) :
  matches Regex.scheme s <-> s = "http://" \/ s = "https://".
Proof.
  unfold Regex.scheme. rewrite matches_cat. split.
  - intros (s1 & s2 & -> & H1 & H2). apply matches_lit in H1.
    apply matches_cat in H2. destruct H2 as (s3 & s4 & -> & H3 & H4).
    apply matches_opt in H3. apply matches_lit in H4. subst.
    destruct H3 as [->|H3]; [now left|].
    apply matches_chr in H3. subst. now right.
  - intros [-> | ->].
    + exists "http", "://". repeat split; [now apply matches_lit|].
      apply matches_cat. exists "", "://". repeat split.
      * apply matches_opt. now left.
      * now apply matches_lit.
    + exists "http", "s://". repeat split; [now apply matches_lit|].
      apply matches_cat. exists "s", "://". repeat split.
      * apply matches_opt. right. now apply matches_chr.
      * now apply matches_lit.
Qed.

(** A host pattern [(www\.)?name\/.*]. *)
Lemma matches_host (name s : string) :
  matches (Regex.Cat (Regex.opt (Regex.lit "www."))
             (Regex.Cat (Regex.lit name) (Regex.Star (Regex.Sym Regex.dot)))) s
  <-> exists rest,
        (s = (name ++ rest)%string \/ s = ("www." ++ name ++ rest)%string)
        /\ every Regex.dot rest = true.
Proof.
  rewrite matches_cat. split.
  - intros (s1 & s2 & -> & H1 & H2). apply matches_opt in H1.
    apply matches_cat in H2. destruct H2 as (s3 & rest & -> & H3 & H4).
    apply matches_lit in H3. apply matches_star_sym in H4. subst.
    exists rest. split; [|exact H4].
    destruct H1 as [->|H1]; [now left|].
    apply matches_lit in H1. subst. now right.
  - intros (rest & [-> | ->] & Hr).
    + exists "", (name ++ rest)%string. repeat split.
      * apply matches_opt. now left.
      * apply matches_cat. exists name, rest. repeat split;
          [now apply matches_lit|now apply matches_star_sym].
    + exists "www.", (name ++ rest)%string. repeat split.
      * apply matches_opt. right. now apply matches_lit.
      * apply matches_cat. exists name, rest. repeat split;
          [now apply matches_lit|now apply matches_star_sym].
Qed.

(** X16. The three URL validators.  [portfolioUrl] accepts exactly the
    strings that start with [http://] or [https://] and hold no line break
    after it; [linkedinUrl] and [githubUrl] accept exactly those that
    continue with [linkedin.com/], respectively [github.com/], with or
    without [www.] before it. *)
Theorem url_patterns_accept_exactly (s : string) :
  (Regex.test Regex.url_pattern s = true
   <-> exists scheme rest,
         In scheme ["http://"; "https://"]
         /\ s = (scheme ++ rest)%string
         /\ every Regex.dot rest = true)
  /\ (Regex.test Regex.linkedin_pattern s = true
      <-> exists scheme www rest,
            In scheme ["http://"; "https://"] /\ In www [""; "www."]
            /\ s = (scheme ++ www ++ "linkedin.com/" ++ rest)%string
            /\ every Regex.dot rest = true)
  /\ (Regex.test Regex.github_pattern s = true
      <-> exists scheme www rest,
            In scheme ["http://"; "https://"] /\ In www [""; "www."]
            /\ s = (scheme ++ www ++ "github.com/" ++ rest)%string
            /\ every Regex.dot rest = true).
Proof.
  assert (Hs : forall t, matches Regex.scheme t
                         <-> In t ["http://"; "https://"]).
  { intros t. rewrite matches_scheme. simpl. intuition auto. }
  assert (Hhost : forall name t,
             matches (Regex.Cat Regex.scheme
                        (Regex.Cat (Regex.opt (Regex.lit "www."))
                           (Regex.Cat (Regex.lit name)
                              (Regex.Star (Regex.Sym Regex.dot))))) t
             <-> exists scheme www rest,
                   In scheme ["http://"; "https://"] /\ In www [""; "www."]
                   /\ t = (scheme ++ www ++ name ++ rest)%string
                   /\ every Regex.dot rest = true).
  { intros name t. rewrite matches_cat. split.
    - intros (s1 & s2 & -> & H1 & H2). apply Hs in H1.
      apply matches_host in H2. destruct H2 as (rest & [-> | ->] & Hr).
      + exists s1, "", rest. simpl. auto.
      + exists s1, "www.", rest. simpl. auto 6.
    - intros (scheme & www & rest & H1 & H2 & -> & Hr).
      exists scheme, (www ++ name ++ rest)%string.
      split; [reflexivity|]. split; [now apply Hs|].
      apply matches_host. exists rest. split; [|exact Hr].
      destruct H2 as [<-|[<-|[]]]; [now left|now right]. }
  split; [|split].
  - rewrite test_matches. unfold Regex.url_pattern. rewrite matches_cat. split.
    + intros (s1 & s2 & -> & H1 & H2). apply Hs in H1.
      apply matches_star_sym in H2. now exists s1, s2.
    + intros (scheme & rest & H1 & -> & Hr). exists scheme, rest.
      split; [reflexivity|]. split; [now apply Hs|now apply matches_star_sym].
  - rewrite test_matches. apply Hhost.
  - rewrite test_matches. apply Hhost.
Qed.

Lemma words_within : within address_char Regex.words.
Proof.
  assert (Hw : forall c, Regex.word c = true -> address_char c = true).
  { intros c H. unfold address_char. now rewrite H. }
  assert (Hd : forall c, Regex.dot_or_dash c = true -> address_char c = true).
  { intros c H. unfold address_char. rewrite H. apply orb_true_r. }
  simpl. auto 10.
Qed.

Lemma matches_words_nonempty (s : string) : matches Regex.words s -> s <> "".
Proof.
  unfold Regex.words, Regex.plus. intros H.
  apply matches_cat in H. destruct H as (s1 & s2 & -> & H1 & _).
  apply matches_cat in H1. destruct H1 as (s3 & s4 & -> & H3 & _).
  inversion H3; subst. discriminate.
Qed.

(** [\.\w{2,3}] is a dot and two or three word characters. *)
Lemma matches_tld (s : string) :
  matches (Regex.Cat (Regex.chr ".")
             (Regex.Cat (Regex.Sym Regex.word)
                (Regex.Cat (Regex.Sym Regex.word)
                   (Regex.opt (Regex.Sym Regex.word))))) s ->
  exists tld, s = String "." tld /\ every Regex.word tld = true
              /\ (String.length tld = 2 \/ String.length tld = 3).
Proof.
  intros H. apply matches_cat in H. destruct H as (s1 & s2 & -> & H1 & H2).
  apply matches_chr in H1. subst. exists s2. split; [reflexivity|].
  apply matches_cat in H2. destruct H2 as (a & s3 & -> & Ha & H3).
  apply matches_cat in H3. destruct H3 as (b & s4 & -> & Hb & H4).
  apply matches_opt in H4.
  inversion Ha as [|p c Hc| | | | |]; subst.
  inversion Hb as [|p d Hd| | | | |]; subst.
  destruct H4 as [->|H4].
  - simpl. rewrite Hc, Hd. auto.
  - inversion H4 as [|p x Hx| | | | |]; subst. simpl. rewrite Hc, Hd, Hx. auto.
Qed.

Lemma tld_within :
  within address_char
    (Regex.Cat (Regex.chr ".")
       (Regex.Cat (Regex.Sym Regex.word)
          (Regex.Cat (Regex.Sym Regex.word)
             (Regex.opt (Regex.Sym Regex.word))))).
Proof.
  assert (Hw : forall c, Regex.word c = true -> address_char c = true).
  { intros c H. unfold address_char. now rewrite H. }
  assert (Hc : forall c, Ascii.eqb "." c = true -> address_char c = true).
  { intros c H. apply Ascii.eqb_eq in H. now subst. }
  unfold Regex.chr. cbn [within Regex.opt]. repeat split; auto.
Qed.

(** X17. The email validator of the schema accepts only addresses of the
    form [local@domain.tld]: exactly one [@]; a non-empty local part and a
    non-empty domain made of letters, digits, [_], [.] and [-] only; and a
    last label of two or three letters, digits or [_]. *)
Theorem email_pattern_accepts_only (s : string) :
  Regex.test Regex.email_pattern s = true ->
  exists local domain tld,
    s = (local ++ "@" ++ domain ++ "." ++ tld)%string
    /\ local <> "" /\ domain <> ""
    /\ every address_char local = true
    /\ every address_char domain = true
    /\ every Regex.word tld = true
    /\ (String.length tld = 2 \/ String.length tld = 3)
    /\ occurrences "@" s = 1.
Proof.
  intros H. apply test_matches in H. unfold Regex.email_pattern in H.
  apply matches_cat in H. destruct H as (local & s1 & -> & Hl & H).
  apply matches_cat in H. destruct H as (at_ & s2 & -> & Ha & H).
  apply matches_chr in Ha. subst at_.
  apply matches_cat in H. destruct H as (d & t & -> & Hd & Ht).
  unfold Regex.plus in Ht.
  apply matches_cat in Ht. destruct Ht as (t1 & t2 & -> & Ht1 & Ht2).
  assert (Hsplit : exists pre last,
             (t1 ++ t2)%string = (pre ++ last)%string
             /\ every address_char pre = true
             /\ matches (Regex.Cat (Regex.chr ".")
                           (Regex.Cat (Regex.Sym Regex.word)
                              (Regex.Cat (Regex.Sym Regex.word)
                                 (Regex.opt (Regex.Sym Regex.word))))) last).
  { destruct (matches_star_last _ _ Ht2) as [->|(pre & last & -> & Hp & Hlast)].
    - exists "", t1. rewrite append_nil_r. auto.
    - exists (t1 ++ pre)%string, last. rewrite append_assoc.
      repeat split; [|exact Hlast].
      rewrite every_append, (matches_within _ _ _ tld_within Ht1).
      refine (matches_within address_char (Regex.Star _) _ _ Hp).
      exact tld_within. }
  destruct Hsplit as (pre & last & -> & Hpre & Hlast).
  apply matches_tld in Hlast. destruct Hlast as (tld & -> & Hw & Hlen).
  pose proof (matches_within _ _ _ words_within Hl) as Hle.
  pose proof (matches_within _ _ _ words_within Hd) as Hde.
  exists local, (d ++ pre)%string, tld.
  assert (Hdp : every address_char (d ++ pre) = true)
    by now rewrite every_append, Hde, Hpre.
  assert (Hword : every address_char tld = true).
  { clear - Hw. induction tld as [|c tld IH]; simpl in *; [reflexivity|].
    apply andb_true_iff in Hw. destruct Hw as [Hc Ht].
    unfold address_char at 1. now rewrite Hc, IH. }
  repeat split; auto.
  - now rewrite !append_assoc.
  - now apply matches_words_nonempty.
  - intros E. apply append_eq_nil in E. destruct E as [E _].
    now apply matches_words_nonempty in E.
  - rewrite !occurrences_append.
    rewrite (every_no_occurrence address_char "@" local eq_refl Hle).
    rewrite (every_no_occurrence address_char "@" d eq_refl Hde).
    rewrite (every_no_occurrence address_char "@" pre eq_refl Hpre).
    simpl. now rewrite (every_no_occurrence address_char "@" tld eq_refl Hword).
Qed.

(* ------------------------------------------------------------------ *)
(** ** The setters of the schema: [trim] and [lowercase] *)

Lemma lower_char_space (c : ascii) :
  Str.is_space (Str.lower_char c) = Str.is_space c.
Proof. destruct c as [[] [] [] [] [] [] [] []]; vm_compute; reflexivity. Qed.

Lemma lower_char_idempotent (c : ascii) :
  Str.lower_char (Str.lower_char c) = Str.lower_char c.
Proof. destruct c as [[] [] [] [] [] [] [] []]; vm_compute; reflexivity. Qed.

Lemma toLowerCase_idempotent (s : string) :
  Str.toLowerCase (Str.toLowerCase s) = Str.toLowerCase s.
Proof.
  induction s as [|c s IH]; simpl; [reflexivity|].
  now rewrite lower_char_idempotent, IH.
Qed.

Lemma toLowerCase_trimStart (s : string) :
  Str.toLowerCase (Str.trimStart s) = Str.trimStart (Str.toLowerCase s).
Proof.
  induction s as [|c s IH]; simpl; [reflexivity|].
  rewrite lower_char_space. now destruct (Str.is_space c).
Qed.

Lemma toLowerCase_rev_onto (s acc : string) :
  Str.toLowerCase (Str.rev_onto s acc)
  = Str.rev_onto (Str.toLowerCase s) (Str.toLowerCase acc).
Proof.
  revert acc. induction s as [|c s IH]; intros acc; simpl; [reflexivity|].
  now rewrite IH.
Qed.

Lemma toLowerCase_trim (s : string) :
  Str.toLowerCase (Str.trim s) = Str.trim (Str.toLowerCase s).
Proof.
  unfold Str.trim, Str.trimEnd, Str.reverse.
  now rewrite toLowerCase_rev_onto, toLowerCase_trimStart,
    toLowerCase_rev_onto, toLowerCase_trimStart.
Qed.

Lemma rev_onto_append (s acc : string) :
  Str.rev_onto s acc = (Str.reverse s ++ acc)%string.
Proof.
  unfold Str.reverse. revert acc.
  induction s as [|c s IH]; intros acc; simpl; [reflexivity|].
  rewrite IH, (IH (String c "")), append_assoc. reflexivity.
Qed.

Lemma reverse_cons (c : ascii) (s : string) :
  Str.reverse (String c s) = (Str.reverse s ++ String c "")%string.
Proof. unfold Str.reverse at 1. simpl. apply rev_onto_append. Qed.

Lemma reverse_append (s1 s2 : string) :
  Str.reverse (s1 ++ s2) = (Str.reverse s2 ++ Str.reverse s1)%string.
Proof.
  induction s1 as [|c s1 IH]; simpl.
  - now rewrite append_nil_r.
  - now rewrite !reverse_cons, IH, append_assoc.
Qed.

Lemma reverse_involutive (s : string) : Str.reverse (Str.reverse s) = s.
Proof.
  induction s as [|c s IH]; [reflexivity|].
  now rewrite reverse_cons, reverse_append, IH.
Qed.

Lemma trimStart_idempotent (s : string) :
  Str.trimStart (Str.trimStart s) = Str.trimStart s.
Proof.
  induction s as [|c s IH]; simpl; [reflexivity|].
  destruct (Str.is_space c) eqn:E; [exact IH|]. simpl. now rewrite E.
Qed.

Lemma trimEnd_idempotent (s : string) :
  Str.trimEnd (Str.trimEnd s) = Str.trimEnd s.
Proof.
  unfold Str.trimEnd. now rewrite reverse_involutive, trimStart_idempotent.
Qed.

Lemma trimStart_append (s1 s2 : string) :
  Str.trimStart (s1 ++ s2)
  = if every Str.is_space s1 then Str.trimStart s2
    else (Str.trimStart s1 ++ s2)%string.
Proof.
  induction s1 as [|c s1 IH]; simpl; [reflexivity|].
  destruct (Str.is_space c); [exact IH|reflexivity].
Qed.

Lemma every_reverse (p : ascii -> bool) (s : string) :
  every p (Str.reverse s) = every p s.
Proof.
  induction s as [|c s IH]; [reflexivity|].
  rewrite reverse_cons, every_append, IH. simpl.
  rewrite andb_true_r. apply andb_comm.
Qed.

(** [trimEnd] read from the left. *)
Lemma trimEnd_cons (c : ascii) (s : string) :
  Str.trimEnd (String c s)
  = if every Str.is_space s
    then if Str.is_space c then "" else String c ""
    else String c (Str.trimEnd s).
Proof.
  unfold Str.trimEnd. rewrite reverse_cons, trimStart_append, every_reverse.
  destruct (every Str.is_space s).
  - simpl. now destruct (Str.is_space c).
  - now rewrite reverse_append.
Qed.

(** What [trimStart] leaves does not start with white space, and [trimEnd]
    keeps it so. *)
Lemma trimStart_trimEnd_trimStart (s : string) :
  Str.trimStart (Str.trimEnd (Str.trimStart s))
  = Str.trimEnd (Str.trimStart s).
Proof.
  induction s as [|c s IH]; [reflexivity|]. simpl.
  destruct (Str.is_space c) eqn:E; [exact IH|].
  rewrite trimEnd_cons, E.
  destruct (every Str.is_space s); simpl; now rewrite E.
Qed.

Lemma trim_idempotent (s : string) : Str.trim (Str.trim s) = Str.trim s.
Proof.
  unfold Str.trim. now rewrite trimStart_trimEnd_trimStart, trimEnd_idempotent.
Qed.

Lemma normalize_idempotent (email : string) :
  normalize (normalize email) = normalize email.
Proof.
  unfold normalize.
  now rewrite <- toLowerCase_trim, toLowerCase_idempotent, trim_idempotent.
Qed.

Lemma trim_profile_idempotent (p : Profile) :
  trim_profile (trim_profile p) = trim_profile p.
Proof.
  unfold trim_profile. cbn [bio expertise experience education linkedinUrl
                            githubUrl portfolioUrl].
  rewrite !trim_idempotent.
  destruct (linkedinUrl p), (githubUrl p), (portfolioUrl p);
    cbn [option_map]; now rewrite ?trim_idempotent.
Qed.

(* ------------------------------------------------------------------ *)
(** ** An application from submission to decision *)

Lemma find_none_existsb {A : Type} (f : A -> bool) (l : list A) :
  find f l = None -> existsb f l = false.
Proof.
  induction l as [|a l IH]; simpl; [reflexivity|].
  destruct (f a); [discriminate|exact IH].
Qed.

Lemma find_app_last {A : Type} (f : A -> bool) (l : list A) (x : A) :
  (forall y, In y l -> f y = false) -> f x = true ->
  find f (l ++ [x]) = Some x.
Proof.
  intros Hl Hx. induction l as [|a l IH]; simpl.
  - now rewrite Hx.
  - rewrite (Hl a) by now left. apply IH. intros y Hy. apply Hl. now right.
Qed.

Lemma find_none_all {A : Type} (f : A -> bool) (l : list A) :
  find f l = None -> forall x, In x l -> f x = false.
Proof. intros H. apply existsb_none. now apply find_none_existsb. Qed.

Section Lifecycle.

Context {P : Platform}.

Lemma User_findOne_None (email : string) (w : World) :
  User_findOne email w = None <->
  forall u, In u (users w) -> User.email u <> normalize email.
Proof.
  split; [|apply User_findOne_absent].
  unfold User_findOne. intros H u Hin.
  destruct (find _ (users w)) eqn:E; [discriminate|].
  apply String.eqb_neq. apply (find_none_all _ _ E u Hin).
Qed.

Lemma findOne_None (email : string) (w : World) :
  InstructorApplication_findOne email w = None <->
  forall a, In a (applications w) -> App.email a <> normalize email.
Proof.
  split; [|apply findOne_absent].
  unfold InstructorApplication_findOne. intros H a Hin.
  apply String.eqb_neq. apply (find_none_all _ _ H a Hin).
Qed.

Lemma findOne_present (email : string) (w : World) (a : App.t) :
  In a (applications w) -> App.email a = normalize email ->
  exists b, InstructorApplication_findOne email w = Some b.
Proof.
  intros Hin He. unfold InstructorApplication_findOne.
  destruct (find_present (fun x => App.email x =? normalize email)
              (applications w) a Hin) as (b & -> & _).
  - now apply String.eqb_eq.
  - now exists b.
Qed.


Lemma submit_succeeds (e : Env) (body : SubmitBody) (w : World) :
  Joi_submit body = None ->
  User_findOne (sb_email body) w = None ->
  InstructorApplication_findOne (sb_email body) w = None ->
  validate (new_document (next_oid w) (now e)
              (mkNewApplication (sb_name body) (sb_email body)
                 (sb_password body) (sb_profile body) "pending")) = [] ->
  succeeded (fst (submitApplication e body w)) = true.
Proof.
  intros J HU HA Hv. unfold submitApplication. rewrite J, HU, HA.
  unfold InstructorApplication_create. rewrite Hv.
  rewrite (pre_save_keeps App.email) by reflexivity.
  cbn [cur new_document App.email na_email].
  unfold InstructorApplication_findOne in HA.
  now rewrite (find_none_existsb _ _ HA).
Qed.


(** X3. An approval that goes through found the application pending and
    leaves it at its place in the collection with status approved, the
    approving administrator and the current date recorded, the rejection
    fields, name, email, profile, creation date and stored password hash
    untouched.  It adds one
    Identity under the next ObjectId -- the application's name, email,
    stored password hash and profile, role instructor, [isInstructor] set,
    [isAdmin] and the temporary mark unset -- whose email no earlier Identity
    had, answers with that Identity's id, name, email and role, and sends the
    applicant one mail with the login address.  Afterwards the Identity is
    found under the application's email, and getApplicationById shows the
    approved document without its password. *)
Theorem approveApplication_records_the_decision
    (e : Env) (id admin : nat) (w : World) :
  succeeded (fst (approveApplication e id admin w)) = true ->
  let w' := snd (approveApplication e id admin w) in
  exists a a' u l1 l2,
    InstructorApplication_findById id w = Some (mkDocument a [])
    /\ App.status a = "pending"
    /\ applications w = l1 ++ a :: l2
    /\ applications w' = l1 ++ a' :: l2
    /\ InstructorApplication_findById id w' = Some (mkDocument a' [])
    /\ App.status a' = "approved"
    /\ App.approvedBy a' = Some admin
    /\ App.approvedAt a' = Some (now e)
    /\ App.rejectedBy a' = App.rejectedBy a
    /\ App.rejectedAt a' = App.rejectedAt a
    /\ App.rejectionReason a' = App.rejectionReason a
    /\ App._id a' = App._id a
    /\ App.name a' = App.name a
    /\ App.email a' = App.email a
    /\ App.profile a' = App.profile a
    /\ App.createdAt a' = App.createdAt a
    /\ App.password a' = App.password a
    /\ users w' = users w ++ [u]
    /\ u = User.mk (next_oid w) (App.name a) (normalize (App.email a))
             (App.password a) "instructor" false true false
             (Some (App.profile a))
    /\ (forall x, In x (users w) -> User.email x <> User.email u)
    /\ fst (approveApplication e id admin w)
       = Responded 200
           (JObj [("message", JStr "Application approved successfully");
                  ("user",
                   JObj [("_id", JId (User._id u));
                         ("name", JStr (User.name u));
                         ("email", JStr (User.email u));
                         ("role", JStr (User.role u))])])
    /\ (sendMail_error e = None ->
        outbox w'
        = outbox w
          ++ [mkMail (EMAIL_USER e) (Some (App.email a))
                "Instructor Application Approved - LMS Platform"
                [App.name a; App.email a;
                 match Str.or_else (FRONTEND_URL e)
                         (Some "http://localhost:3000") with
                 | Some s => s
                 | None => ""
                 end]])
    /\ User_findOne (App.email a) w' = Some (mkUserDocument u [])
    /\ getApplicationById id w'
       = (Responded 200 (select_minus "password" (toJSON a')), w').
Proof.
  intros Hs w'.
  destruct (approve_effect e id admin w Hs)
    as (a & a' & u & l1 & l2 & H).
  exists a, a', u, l1, l2.
  destruct H as (H1 & H2 & H3 & H4 & H5 & H6 & H7 & H8 & H9 & H10 & H11 & H12
                 & H13 & H14 & H15 & H16 & H17 & H18 & H19 & H20 & H21 & H22
                 & H23).
  fold w' in H4, H5, H19, H23. clear H9.
  repeat (split; [assumption|]). split.
  - unfold User_findOne. rewrite H19.
    rewrite (find_app_last (fun x => User.email x =? normalize (App.email a))
               (users w) u); [reflexivity| |].
    + intros x Hx. apply String.eqb_neq. rewrite H20 in H21. now apply H21.
    + rewrite H20. apply String.eqb_refl.
  - unfold getApplicationById. now rewrite H5.
Qed.

(** X4. A rejection that goes through found the application pending and
    leaves it at its place in the collection with status rejected, the
    rejecting administrator, the current date and the trimmed reason
    recorded, the approval fields, name, email, profile, creation date and
    stored password hash untouched.  No Identity is added and no ObjectId
    used; the applicant is
    sent one mail that carries the reason as given when it is a non-empty
    string.  Afterwards getApplicationById shows the rejected document
    without its password. *)
Theorem rejectApplication_records_the_decision
    (e : Env) (id admin : nat) (reason : option string) (w : World) :
  succeeded (fst (rejectApplication e id admin reason w)) = true ->
  let w' := snd (rejectApplication e id admin reason w) in
  exists a a' l1 l2,
    InstructorApplication_findById id w = Some (mkDocument a [])
    /\ App.status a = "pending"
    /\ applications w = l1 ++ a :: l2
    /\ applications w' = l1 ++ a' :: l2
    /\ InstructorApplication_findById id w' = Some (mkDocument a' [])
    /\ App.status a' = "rejected"
    /\ App.rejectedBy a' = Some admin
    /\ App.rejectedAt a' = Some (now e)
    /\ App.rejectionReason a' = option_map Str.trim reason
    /\ App.approvedBy a' = App.approvedBy a
    /\ App.approvedAt a' = App.approvedAt a
    /\ App._id a' = App._id a
    /\ App.name a' = App.name a
    /\ App.email a' = App.email a
    /\ App.profile a' = App.profile a
    /\ App.createdAt a' = App.createdAt a
    /\ App.password a' = App.password a
    /\ users w' = users w
    /\ next_oid w' = next_oid w
    /\ fst (rejectApplication e id admin reason w)
       = Responded 200
           (JObj [("message", JStr "Application rejected successfully")])
    /\ (sendMail_error e = None ->
        outbox w'
        = outbox w
          ++ [mkMail (EMAIL_USER e) (Some (App.email a))
                "Instructor Application Update - LMS Platform"
                [App.name a;
                 match reason with
                 | Some r => if Str.truthy r then r else ""
                 | None => ""
                 end]])
    /\ getApplicationById id w'
       = (Responded 200 (select_minus "password" (toJSON a')), w').
Proof.
  intros Hs w'.
  destruct (reject_effect e id admin reason w Hs) as (a & a' & l1 & l2 & H).
  exists a, a', l1, l2.
  destruct H as (H1 & H2 & H3 & H4 & H5 & H6 & H7 & H8 & H9 & H10 & H11 & H12
                 & H13 & H14 & H15 & H16 & H17 & H18 & H19 & H20 & H21 & H22).
  fold w' in H4, H5, H19, H20, H22. clear H10.
  repeat (split; [assumption|]).
  unfold getApplicationById. now rewrite H5.
Qed.

End Lifecycle.

(* ------------------------------------------------------------------ *)
(** ** Journeys through several handlers *)

Section Journeys.

Context {P : Platform}.

(** X19. A rejected applicant can apply again only after the application
    was deleted.  In a store with distinct application emails, once the
    rejection of an application went through, a submission under any
    spelling of its email is turned down ("Application with this email
    already exists") although the rejection mail invites to reapply; after
    deleteApplication of that id, the same submission goes through, provided
    no Identity has the email and the document passes the validators. *)
Theorem rejected_applicant_can_reapply_only_after_deletion
    (e : Env) (id admin : nat) (reason : option string) (w : World)
    (a : App.t) :
  unique_emails w ->
  InstructorApplication_findById id w = Some (mkDocument a []) ->
  succeeded (fst (rejectApplication e id admin reason w)) = true ->
  (forall u, In u (users w) -> User.email u <> App.email a) ->
  let w1 := snd (rejectApplication e id admin reason w) in
  let w2 := snd (deleteApplication id w1) in
  forall e2 body,
    Joi_submit body = None ->
    normalize (sb_email body) = App.email a ->
    submitApplication e2 body w1 = (Conflict_application, w1)
    /\ (validate (new_document (next_oid w) (now e2)
                    (mkNewApplication (sb_name body) (sb_email body)
                       (sb_password body) (sb_profile body) "pending")) = [] ->
        succeeded (fst (submitApplication e2 body w2)) = true).
Proof.
  intros Huniq Hd Hs Hnou w1 w2 e2 body J He.
  destruct (reject_effect e id admin reason w Hs)
    as (a0 & a' & l1 & l2 & Hd0 & _ & Hw & Hw1 & Hd1 & _ & _ & _ & _ & _ & _
        & _ & _ & _ & He' & _ & _ & _ & Hu & Hn & _).
  cbv zeta in Hw1, Hd1, Hu, Hn. fold w1 in Hw1, Hd1, Hu, Hn.
  rewrite Hd in Hd0. injection Hd0 as <-.
  assert (HU1 : User_findOne (sb_email body) w1 = None).
  { apply User_findOne_None. rewrite Hu, He. exact Hnou. }
  split.
  - unfold submitApplication. rewrite J, HU1.
    destruct (findOne_present (sb_email body) w1 a') as (b & ->);
      [rewrite Hw1; apply in_elt|congruence|reflexivity].
  - intros Hv.
    destruct (findById_Some _ _ _ Hd1) as (a1 & E & Hf & Hid & _).
    injection E as <-.
    destruct (deleteOne_split id (applications w1) a' Hf)
      as (k1 & k2 & Hk & Hdel).
    assert (Hw2 : w2 = with_applications (k1 ++ k2) w1).
    { unfold w2, deleteApplication. rewrite Hd1. cbn [snd cur].
      now rewrite Hid, Hdel. }
    assert (Huniq1 : NoDup (map App.email (k1 ++ a' :: k2))).
    { rewrite <- Hk, Hw1, map_app. cbn [map]. rewrite He', <- map_cons, <- map_app.
      unfold unique_emails in Huniq. now rewrite <- Hw. }
    rewrite map_app in Huniq1. cbn [map] in Huniq1.
    apply NoDup_remove_2 in Huniq1. rewrite <- map_app in Huniq1.
    apply submit_succeeds.
    + exact J.
    + apply User_findOne_None. rewrite Hw2. cbn [users with_applications].
      rewrite Hu, He. exact Hnou.
    + apply findOne_None. rewrite Hw2. cbn [applications with_applications].
      intros x Hx Ex. apply Huniq1. rewrite He in Ex. rewrite He', <- Ex.
      now apply in_map.
    + rewrite Hw2. cbn [next_oid with_applications]. rewrite Hn. exact Hv.
Qed.

End Journeys.

(** X20. The setters of the schema are idempotent, so a document is a
    fixed point of them: building a document again from the fields of a
    built one changes nothing, and a stored application is found by
    [findOne] under its own stored email. *)
Theorem stored_fields_are_fixed_points_of_the_setters
    (id date : nat) (c : NewApplication) :
  let a := new_document id date c in
  new_document id date
    (mkNewApplication (App.name a) (App.email a) (App.password a)
       (App.profile a) (App.status a)) = a
  /\ normalize (App.email a) = App.email a
  /\ forall w, In a (applications w) ->
               exists b, InstructorApplication_findOne (App.email a) w = Some b
                         /\ App.email b = App.email a.
Proof.
  intros a. split; [|split].
  - unfold a, new_document.
    cbn [App.name App.email App.password App.profile App.status
         na_name na_email na_password na_profile na_status].
    now rewrite trim_idempotent, normalize_idempotent, trim_profile_idempotent.
  - apply normalize_idempotent.
  - intros w Hin. unfold InstructorApplication_findOne.
    destruct (find_present (fun x => App.email x =? normalize (App.email a))
                (applications w) a Hin) as (b & -> & _ & Hb).
    + apply String.eqb_eq. symmetry. apply normalize_idempotent.
    + exists b. split; [reflexivity|]. apply String.eqb_eq in Hb.
      rewrite Hb. apply normalize_idempotent.
Qed.

(* ------------------------------------------------------------------ *)
(** ** The page flags of the list endpoint *)

Lemma ceil_div_above (a b p : Z) :
  (0 < b)%Z -> ((p <? ceil_div a b)%Z = true <-> (p * b < a)%Z).
Proof.
  intros Hb. unfold ceil_div. rewrite Z.ltb_lt. split.
  - intros H. destruct (Z_lt_le_dec (p * b) a) as [Hlt|Hle]; [exact Hlt|].
    assert (- p <= - a / b)%Z by (apply Z.div_le_lower_bound; lia). lia.
  - intros H.
    assert (- a / b < - p)%Z by (apply Z.div_lt_upper_bound; lia). lia.
Qed.

Lemma slice_not_nil {A : Type} (n k : nat) (l : list A) :
  firstn n (skipn k l) <> [] <-> 0 < n /\ k < length l.
Proof.
  assert (H : forall m : list A, m <> [] <-> 0 < length m).
  { intros [|x m]; simpl; split; try lia; try congruence. }
  rewrite H, length_firstn, length_skipn. lia.
Qed.

(** X21. The page flags, for a page from 1 on and a positive limit within
    the safe integers: the request is answered 200; [hasNextPage] is true
    exactly when the page after this one lists at least one document,
    [hasPrevPage] exactly when this is not page 1; and a page beyond the
    last one lists no document rather than failing. *)
Theorem hasNextPage_announces_a_non_empty_page (q : ListQuery) (w : World) :
  (0 < query_limit q)%Z ->
  (1 <= query_page q)%Z ->
  safe_integer ((query_page q + 1) * query_limit q) ->
  safe_integer (Z.of_nat (length (matching_documents q w))) ->
  let l := matching_documents q w in
  exists j,
    getApplications q w = (Responded 200 j, w)
    /\ (exists b, get "hasNextPage" j = Some (JBool b)
                  /\ (b = true
                      <-> page_slice (query_page q + 1) (query_limit q) l <> []))
    /\ (exists b, get "hasPrevPage" j = Some (JBool b)
                  /\ (b = true <-> (1 < query_page q)%Z))
    /\ get "total" j = Some (JNum (Z.of_nat (length l)))
    /\ ((ceil_div (Z.of_nat (length l)) (query_limit q) < query_page q)%Z ->
        listed (Responded 200 j) = []).
Proof.
  intros Hl Hp _ _ l.
  assert (Hsort : length (filter (matches_filter (query_filter q))
                            (applications w)) = length l).
  { symmetry. apply Permutation_length, sort_perm. }
  unfold getApplications.
  fold (query_page q) (query_limit q) (query_filter q).
  replace ((query_page q - 1) * query_limit q <? 0)%Z with false
    by (symmetry; apply Z.ltb_ge; nia).
  rewrite Hsort. eexists. split; [reflexivity|].
  split; [|split; [|split]].
  - eexists. split; [reflexivity|].
    rewrite (ceil_div_above _ _ _ Hl). unfold page_slice.
    rewrite slice_not_nil. rewrite Z.abs_eq by lia.
    replace (query_page q + 1 - 1)%Z with (query_page q) by lia. nia.
  - eexists. split; [reflexivity|]. apply Z.ltb_lt.
  - reflexivity.
  - intros Hlast. cbn [listed get assoc String.eqb Ascii.eqb Bool.eqb].
    fold (matching_documents q w). fold l.
    pose proof (ceil_div_covers (Z.of_nat (length l)) (query_limit q) Hl).
    rewrite skipn_all2; [now rewrite firstn_nil|]. nia.
Qed.

(* ------------------------------------------------------------------ *)
(** ** loginUser *)

Section Login.

Context {P : Platform}.

(** X22. loginUser reads and never writes: whatever the request, the
    world is left as it was.  It answers 200 only for an Identity stored
    under the normalised email whose stored hash verifies the password sent,
    with that Identity's id, name, email, role, flags and a token for it,
    and no [password] property; every other answer is the verdict of the
    request schema (400) or the one 401 message. *)
Theorem loginUser_reads_and_never_writes (body : LoginBody) (w : World) :
  snd (loginUser body w) = w
  /\ match fst (loginUser body w) with
     | Responded c j =>
         c = 200
         /\ Joi_login body = None
         /\ has_key "password" j = false
         /\ exists u,
              In u (users w)
              /\ User.email u = normalize (lb_email body)
              /\ matchPassword u (lb_password body) = true
              /\ get "_id" j = Some (JId (User._id u))
              /\ get "name" j = Some (JStr (User.name u))
              /\ get "email" j = Some (JStr (User.email u))
              /\ get "role" j = Some (JStr (User.role u))
              /\ get "isAdmin" j = Some (JBool (User.isAdmin u))
              /\ get "isInstructor" j = Some (JBool (User.isInstructor u))
              /\ get "token" j = Some (JStr (generateToken u))
     | Threw c m =>
         (c = 400 /\ Joi_login body = Some m)
         \/ (c = 401 /\ m = "Invalid email or password"
             /\ Joi_login body = None)
     end.
Proof.
  unfold loginUser.
  destruct (Joi_login body) as [m|] eqn:J; [split; [reflexivity|now left]|].
  unfold User_findOne.
  destruct (find _ (users w)) as [u|] eqn:E; cbn [option_map ucur];
    [|split; [reflexivity|now right]].
  apply find_some in E. destruct E as [Hin He]. apply String.eqb_eq in He.
  destruct (matchPassword u (lb_password body)) eqn:M;
    [|split; [reflexivity|now right]].
  cbn [fst snd]. split; [reflexivity|]. split; [reflexivity|].
  split; [reflexivity|]. split; [reflexivity|].
  exists u. repeat split; auto.
Qed.

End Login.

(* ------------------------------------------------------------------ *)
(** ** No answer carries a password *)

Lemma lacks_application (a : App.t) :
  lacks "password" (select_minus "password" (toJSON a)) = true.
Proof.
  destruct a as [i n e pw [b x y d li gi po] st ab aa rb ra rr ca ua].
  destruct li, gi, po, ab, aa, rb, ra, rr; reflexivity.
Qed.

Lemma lacks_user (u : User.t) :
  lacks "password" (select_minus "password" (user_json u)) = true.
Proof.
  destruct u as [i n e pw r ia ii it [[b x y d li gi po]|]]; [|reflexivity].
  destruct li, gi, po; reflexivity.
Qed.

Lemma lacks_listing (l : list App.t) :
  forallb (lacks "password")
    (map (fun a => select_minus "password" (toJSON a)) l) = true.
Proof.
  induction l as [|a l IH]; [reflexivity|].
  cbn [map forallb]. now rewrite lacks_application, IH.
Qed.

Section Answers.

Context {P : Platform} {Sch : AuthSchemas}.

(** X23. No answer of any handler carries a password or its hash under a
    [password] property, at any depth of the JSON: not the answers of the
    eight requests of the application and login endpoints, and not those of
    registerUser, changePassword and getUserProfile. *)
Theorem no_answer_carries_a_password :
  (forall e r w,
     match fst (handle e r w) with
     | Responded _ j => lacks "password" j = true
     | Threw _ _ => True
     end)
  /\ (forall e body w,
        match fst (registerUser e body w) with
        | Responded _ j => lacks "password" j = true
        | Threw _ _ => True
        end)
  /\ (forall e uid body w,
        match fst (changePassword e uid body w) with
        | Responded _ j => lacks "password" j = true
        | Threw _ _ => True
        end)
  /\ (forall uid w,
        match fst (getUserProfile uid w) with
        | Responded _ j => lacks "password" j = true
        | Threw _ _ => True
        end).
Proof.
  split; [|split; [|split]].
  - intros e [body|q|id|id admin|id admin reason|id|body|body] w; cbn [handle].
    + unfold submitApplication.
      destruct (Joi_submit body); [exact I|].
      destruct (User_findOne _ w); [exact I|].
      destruct (InstructorApplication_findOne _ w); [exact I|].
      destruct (InstructorApplication_create e _ w) as [[err|a] w1];
        [exact I|reflexivity].
    + unfold getApplications. destruct (_ <? 0)%Z; [exact I|].
      cbn [fst lacks forallb snd]. rewrite lacks_listing. reflexivity.
    + unfold getApplicationById.
      destruct (InstructorApplication_findById id w); [|exact I].
      apply lacks_application.
    + unfold approveApplication, approve_loaded.
      destruct (InstructorApplication_findById id w); [|exact I].
      destruct (negb _); [exact I|].
      destruct (User_create _ w) as [[err|created] w1]; [exact I|].
      destruct (save e _ w1) as [[err|saved] w2]; [exact I|reflexivity].
    + unfold rejectApplication, reject_loaded.
      destruct (InstructorApplication_findById id w); [|exact I].
      destruct (negb _); [exact I|].
      destruct (save e _ w) as [[err|saved] w2]; [exact I|reflexivity].
    + unfold deleteApplication.
      destruct (InstructorApplication_findById id w); [reflexivity|exact I].
    + unfold loginUser. destruct (Joi_login body); [exact I|].
      destruct (User_findOne _ w); [|exact I].
      destruct (matchPassword _ _); [reflexivity|exact I].
    + unfold forgotPassword. destruct (Joi_forgot body); [exact I|].
      destruct (User_findOne _ w); [|exact I].
      destruct (User_save e _ w) as [[err|saved] w1]; [exact I|].
      destruct (sendMail e _ w1); [exact I|reflexivity].
  - intros e body w. unfold registerUser.
    destruct (Joi_register body); [exact I|].
    destruct (User_findOne _ w); [exact I|].
    destruct (User_create_plain _ _ _ _ _ _ _ w) as [[err|created] w1];
      [exact I|reflexivity].
  - intros e uid body w. unfold changePassword.
    destruct (Joi_change body); [exact I|].
    destruct (User_findById uid w); [|exact I].
    destruct (negb _); [exact I|].
    destruct (User_save e _ w) as [[err|saved] w1]; [exact I|reflexivity].
  - intros uid w. unfold getUserProfile.
    destruct (User_findById uid w); [|exact I].
    apply lacks_user.
Qed.

End Answers.

(* ------------------------------------------------------------------ *)
(** ** A registration while an application is under review *)

Section Review.

Context {P : Platform} {Sch : AuthSchemas}.


End Review.

(* ------------------------------------------------------------------ *)
(** ** The statements above at concrete requests *)

Lemma ada_pending_unique : unique_emails Demo.ada_pending.
Proof. vm_compute. constructor; [intros []|constructor]. Qed.

Lemma deleteApplication_witness :
  InstructorApplication_findById 9 Demo.ada_pending = None
  /\ deleteApplication 9 Demo.ada_pending
     = (NotFound_application, Demo.ada_pending)
  /\ InstructorApplication_findById 2 Demo.ada_pending
     = Some (mkDocument Demo.ada_application [])
  /\ fresh_ids Demo.ada_pending
  /\ InstructorApplication_findById 2
       (snd (deleteApplication 2 Demo.ada_pending)) = None.
Proof.
  assert (N : InstructorApplication_findById 9 Demo.ada_pending = None)
    by evaluate.
  assert (F : InstructorApplication_findById 2 Demo.ada_pending
              = Some (mkDocument Demo.ada_application [])) by evaluate.
  destruct (deleteApplication_removes_exactly_one (P := Demo.platform) 9
              Demo.ada_pending) as [A _].
  destruct (deleteApplication_removes_exactly_one (P := Demo.platform) 2
              Demo.ada_pending) as [_ B].
  specialize (B Demo.ada_application F). cbv zeta in B.
  destruct B as (_ & _ & _ & _ & _ & B).
  split; [exact N|]. split; [exact (A N)|]. split; [exact F|].
  split; [exact ada_pending_fresh|].
  exact (proj1 (B ada_pending_fresh)).
Defined.


Lemma approveApplication_records_witness :
  succeeded (fst (approveApplication Demo.env 2 Demo.admin1 Demo.ada_pending))
  = true
  /\ exists a' u,
       InstructorApplication_findById 2
         (snd (approveApplication Demo.env 2 Demo.admin1 Demo.ada_pending))
       = Some (mkDocument a' [])
       /\ App.status a' = "approved"
       /\ App.approvedBy a' = Some Demo.admin1
       /\ App.password a' = bcrypt_hash "secret1" "salt"
       /\ users (snd (approveApplication Demo.env 2 Demo.admin1 Demo.ada_pending))
          = users Demo.ada_pending ++ [u].
Proof.
  assert (S : succeeded
                (fst (approveApplication Demo.env 2 Demo.admin1 Demo.ada_pending))
              = true) by evaluate.
  split; [exact S|].
  pose proof (approveApplication_records_the_decision (P := Demo.platform)
                Demo.env 2 Demo.admin1 Demo.ada_pending S) as H.
  cbv zeta in H.
  destruct H as (a & a' & u & l1 & l2 & H1 & _ & _ & _ & H5 & H6 & H7 & _ & _
                 & _ & _ & _ & _ & _ & _ & _ & H17 & H18 & _).
  assert (F : InstructorApplication_findById 2 Demo.ada_pending
              = Some (mkDocument Demo.ada_application [])) by evaluate.
  rewrite F in H1. injection H1 as <-.
  exists a', u. split; [exact H5|]. split; [exact H6|]. split; [exact H7|].
  split; [rewrite H17; evaluate|exact H18].
Defined.

Lemma rejectApplication_records_witness :
  succeeded (fst (rejectApplication Demo.env 2 Demo.admin2
                    (Some " too early ") Demo.ada_pending)) = true
  /\ exists a',
       InstructorApplication_findById 2
         (snd (rejectApplication Demo.env 2 Demo.admin2 (Some " too early ")
                 Demo.ada_pending))
       = Some (mkDocument a' [])
       /\ App.status a' = "rejected"
       /\ App.rejectedBy a' = Some Demo.admin2
       /\ App.rejectionReason a' = option_map Str.trim (Some " too early ")
       /\ App.password a' = bcrypt_hash "secret1" "salt"
       /\ users (snd (rejectApplication Demo.env 2 Demo.admin2
                        (Some " too early ") Demo.ada_pending))
          = users Demo.ada_pending.
Proof.
  assert (S : succeeded (fst (rejectApplication Demo.env 2 Demo.admin2
                                (Some " too early ") Demo.ada_pending)) = true)
    by evaluate.
  split; [exact S|].
  pose proof (rejectApplication_records_the_decision (P := Demo.platform)
                Demo.env 2 Demo.admin2 (Some " too early ") Demo.ada_pending S)
    as H.
  cbv zeta in H.
  destruct H as (a & a' & l1 & l2 & H1 & _ & _ & _ & H5 & H6 & H7 & _ & H9 & _
                 & _ & _ & _ & _ & _ & _ & H17 & H18 & _).
  assert (F : InstructorApplication_findById 2 Demo.ada_pending
              = Some (mkDocument Demo.ada_application [])) by evaluate.
  rewrite F in H1. injection H1 as <-.
  exists a'. split; [exact H5|]. split; [exact H6|]. split; [exact H7|].
  split; [exact H9|]. split; [rewrite H17; evaluate|exact H18].
Defined.

Lemma application_emails_witness :
  unique_emails Demo.ada_pending
  /\ unique_emails
       (snd (run [(Tour.later, SubmitApplication Tour.eve);
                  (Tour.later, SubmitApplication Demo.ada);
                  (Demo.env, ApproveApplication 2 Demo.admin1);
                  (Demo.env, DeleteApplication 3)] Demo.ada_pending)).
Proof.
  split; [exact ada_pending_unique|].
  apply (application_emails_stay_unique (P := Demo.platform)).
  exact ada_pending_unique.
Defined.

Lemma application_statuses_witness :
  statuses_in_enum Demo.ada_pending
  /\ statuses_in_enum
       (snd (run [(Tour.later, SubmitApplication Tour.eve);
                  (Demo.env, RejectApplication 3 Demo.admin1 None);
                  (Demo.env, ApproveApplication 2 Demo.admin1);
                  (Demo.env, RejectApplication 2 Demo.admin2 None)]
               Demo.ada_pending)).
Proof.
  assert (H : statuses_in_enum Demo.ada_pending)
    by (vm_compute; repeat constructor).
  split; [exact H|].
  apply (application_statuses_stay_in_enum (P := Demo.platform)). exact H.
Defined.

Lemma getApplications_witness :
  let q := mkListQuery (Some "1") (Some "5") (Some "rejected") in
  let w := Tour.two_applications in
  (1 <= query_page q)%Z
  /\ (0 < query_limit q)%Z
  /\ safe_integer (query_page q * query_limit q)
  /\ safe_integer (Z.of_nat (length (matching_documents q w)))
  /\ length (page_slice (query_page q) (query_limit q)
               (matching_documents q w)) <= Z.to_nat (query_limit q)
  /\ forall a,
       In a (page_slice (query_page q) (query_limit q)
               (matching_documents q w)) ->
       In a (applications w)
       /\ forall s, query_filter q = Some s -> App.status a = s.
Proof.
  cbv zeta.
  assert (H1 : (1 <= query_page
                       (mkListQuery (Some "1") (Some "5") (Some "rejected")))%Z)
    by evaluate.
  assert (H2 : (0 < query_limit
                      (mkListQuery (Some "1") (Some "5") (Some "rejected")))%Z)
    by evaluate.
  assert (H3 : safe_integer
                 (query_page
                    (mkListQuery (Some "1") (Some "5") (Some "rejected"))
                  * query_limit
                      (mkListQuery (Some "1") (Some "5") (Some "rejected"))))
    by evaluate.
  assert (H4 : safe_integer
                 (Z.of_nat
                    (length
                       (matching_documents
                          (mkListQuery (Some "1") (Some "5") (Some "rejected"))
                          Tour.two_applications)))) by evaluate.
  pose proof (getApplications_answers_one_page
                (mkListQuery (Some "1") (Some "5") (Some "rejected"))
                Tour.two_applications) as H.
  cbv zeta in H. destruct (H H1 H2 H3 H4) as (_ & A & _ & _ & B).
  split; [exact H1|]. split; [exact H2|]. split; [exact H3|].
  split; [exact H4|]. split; [exact A|exact B].
Defined.

Lemma pages_partition_witness :
  let w := Tour.two_applications in
  let request :=
    fun p => mkListQuery (Some (if (p =? 1)%nat then "1" else "2"))
               (Some "1") None in
  (0 < 1)%Z
  /\ NoDup (map App.createdAt (applications w))
  /\ concat (map (fun p => listed (fst (getApplications (request p) w)))
               (seq 1 (Z.to_nat
                         (ceil_div
                            (Z.of_nat
                               (length
                                  (sort_createdAt_desc
                                     (filter (matches_filter None)
                                        (applications w)))))
                            1))))
     = map (fun a => select_minus "password" (toJSON a))
         (sort_createdAt_desc
            (filter (matches_filter None) (applications w))).
Proof.
  cbv zeta.
  assert (L : (0 < 1)%Z) by reflexivity.
  assert (D : NoDup (map App.createdAt (applications Tour.two_applications))).
  { vm_compute. repeat constructor; simpl; intuition discriminate. }
  split; [exact L|]. split; [exact D|].
  pose proof (pages_partition_the_listing Tour.two_applications 1 None
                (fun p => mkListQuery
                            (Some (if (p =? 1)%nat then "1" else "2"))
                            (Some "1") None)) as H.
  cbv zeta in H. apply H.
  - exact L.
  - evaluate.
  - exact D.
  - assert (E : Z.to_nat
                  (ceil_div
                     (Z.of_nat
                        (length
                           (sort_createdAt_desc
                              (filter (matches_filter None)
                                 (applications Tour.two_applications)))))
                     1) = 2) by evaluate.
    rewrite E. intros p Hp.
    assert (Hc : p = 1 \/ p = 2) by lia.
    destruct Hc as [-> | ->]; repeat split; evaluate.
Defined.

Lemma submitApplication_admits_witness :
  succeeded (fst (submitApplication Demo.env Demo.ada Demo.with_cy)) = true
  /\ meets_schema
       (new_document (next_oid Demo.with_cy) (now Demo.env)
          (mkNewApplication (sb_name Demo.ada) (sb_email Demo.ada)
             (sb_password Demo.ada) (sb_profile Demo.ada) "pending")).
Proof.
  assert (S : succeeded (fst (submitApplication Demo.env Demo.ada Demo.with_cy))
              = true) by evaluate.
  split; [exact S|].
  pose proof (submitApplication_admits_only_schema_documents
                (P := Demo.platform) Demo.env Demo.ada Demo.with_cy) as H.
  cbv zeta in H. exact (proj1 H S).
Defined.

Lemma changePassword_witness :
  Joi_change Tour.cy_change = None
  /\ User_findById 9 Demo.cy_reset = None
  /\ changePassword Tour.later 9 Tour.cy_change Demo.cy_reset
     = (Threw 404 "User not found", Demo.cy_reset)
  /\ User_findById 1 Demo.cy_reset
     = Some (mkUserDocument (rotated Demo.env Demo.cy) [])
  /\ matchPassword (rotated Demo.env Demo.cy)
       (cb_currentPassword Tour.cy_change) = true
  /\ succeeded (fst (changePassword Tour.later 1 Tour.cy_change Demo.cy_reset))
     = true
  /\ User_findById 1
       (snd (changePassword Tour.later 1 Tour.cy_change Demo.cy_reset))
     = Some (mkUserDocument
               (changed Tour.later (cb_newPassword Tour.cy_change)
                  (rotated Demo.env Demo.cy)) []).
Proof.
  assert (J : Joi_change Tour.cy_change = None) by evaluate.
  assert (N : User_findById 9 Demo.cy_reset = None) by evaluate.
  assert (F : User_findById 1 Demo.cy_reset
              = Some (mkUserDocument (rotated Demo.env Demo.cy) []))
    by evaluate.
  assert (M : matchPassword (rotated Demo.env Demo.cy)
                (cb_currentPassword Tour.cy_change) = true) by evaluate.
  destruct (changePassword_contract (P := Demo.platform) (Sch := Tour.schemas)
              Tour.later 9 Tour.cy_change Demo.cy_reset J) as [A _].
  destruct (changePassword_contract (P := Demo.platform) (Sch := Tour.schemas)
              Tour.later 1 Tour.cy_change Demo.cy_reset J) as [_ B].
  destruct (B _ F) as [_ C]. specialize (C M). cbv zeta in C.
  destruct C as (C1 & C2 & _).
  split; [exact J|]. split; [exact N|]. split; [exact (A N)|].
  split; [exact F|]. split; [exact M|]. split; [exact C1|exact C2].
Defined.

Lemma changePassword_then_login_witness :
  Joi_change Tour.cy_change = None
  /\ User_findById 1 Demo.cy_reset
     = Some (mkUserDocument (rotated Demo.env Demo.cy) [])
  /\ User_findOne (User.email (rotated Demo.env Demo.cy)) Demo.cy_reset
     = Some (mkUserDocument (rotated Demo.env Demo.cy) [])
  /\ matchPassword (rotated Demo.env Demo.cy)
       (cb_currentPassword Tour.cy_change) = true
  /\ succeeded
       (fst (loginUser
               (mkLoginBody (User.email (rotated Demo.env Demo.cy))
                  "fresh-secret" None)
               (snd (changePassword Tour.later 1 Tour.cy_change
                       Demo.cy_reset)))) = true
  /\ loginUser
       (mkLoginBody (User.email (rotated Demo.env Demo.cy)) "k3x9q2ab" None)
       (snd (changePassword Tour.later 1 Tour.cy_change Demo.cy_reset))
     = (Unauthorized,
        snd (changePassword Tour.later 1 Tour.cy_change Demo.cy_reset)).
Proof.
  assert (J : Joi_change Tour.cy_change = None) by evaluate.
  assert (F : User_findById 1 Demo.cy_reset
              = Some (mkUserDocument (rotated Demo.env Demo.cy) []))
    by evaluate.
  assert (E : User_findOne (User.email (rotated Demo.env Demo.cy)) Demo.cy_reset
              = Some (mkUserDocument (rotated Demo.env Demo.cy) []))
    by evaluate.
  assert (M : matchPassword (rotated Demo.env Demo.cy)
                (cb_currentPassword Tour.cy_change) = true) by evaluate.
  pose proof (changePassword_then_login (P := Demo.platform)
                (Sch := Tour.schemas) (V := demo_vault) Tour.later 1
                Tour.cy_change Demo.cy_reset (rotated Demo.env Demo.cy)
                J F E M) as H.
  cbv zeta in H.
  split; [exact J|]. split; [exact F|]. split; [exact E|]. split; [exact M|].
  split.
  - apply (H None "fresh-secret"); evaluate.
  - apply (H None "k3x9q2ab"); evaluate.
Defined.

Lemma forgot_then_change_witness :
  Joi_forgot Demo.cy_forgot = None
  /\ User_findOne (fb_email Demo.cy_forgot) Demo.with_cy
     = Some (mkUserDocument Demo.cy [])
  /\ Joi_change Tour.cy_change = None
  /\ cb_currentPassword Tour.cy_change = random_password Demo.env
  /\ succeeded
       (fst (changePassword Tour.later (User._id Demo.cy) Tour.cy_change
               (snd (forgotPassword Demo.env Demo.cy_forgot Demo.with_cy))))
     = true.
Proof.
  assert (JF : Joi_forgot Demo.cy_forgot = None) by evaluate.
  assert (F : User_findOne (fb_email Demo.cy_forgot) Demo.with_cy
              = Some (mkUserDocument Demo.cy [])) by evaluate.
  assert (JC : Joi_change Tour.cy_change = None) by evaluate.
  assert (C : cb_currentPassword Tour.cy_change = random_password Demo.env)
    by evaluate.
  pose proof (forgot_then_change_clears_the_temporary_flag
                (P := Demo.platform) (Sch := Tour.schemas) (V := demo_vault)
                Demo.env Tour.later Demo.cy_forgot Tour.cy_change Demo.with_cy
                Demo.cy JF F JC C) as H.
  cbv zeta in H. destruct H as (_ & H & _).
  split; [exact JF|]. split; [exact F|]. split; [exact JC|].
  split; [exact C|exact H].
Defined.


Lemma email_pattern_witness :
  Regex.test Regex.email_pattern "ada.l@mail.x.co.uk" = true
  /\ exists local domain tld,
       "ada.l@mail.x.co.uk" = (local ++ "@" ++ domain ++ "." ++ tld)%string
       /\ local <> "" /\ domain <> ""
       /\ every address_char local = true
       /\ every address_char domain = true
       /\ every Regex.word tld = true
       /\ (String.length tld = 2 \/ String.length tld = 3)
       /\ occurrences "@" "ada.l@mail.x.co.uk" = 1.
Proof.
  assert (T : Regex.test Regex.email_pattern "ada.l@mail.x.co.uk" = true)
    by evaluate.
  split; [exact T|]. exact (email_pattern_accepts_only _ T).
Defined.

Lemma rejected_applicant_witness :
  unique_emails Demo.ada_pending
  /\ InstructorApplication_findById 2 Demo.ada_pending
     = Some (mkDocument Demo.ada_application [])
  /\ succeeded (fst (rejectApplication Demo.env 2 Demo.admin2 None
                       Demo.ada_pending)) = true
  /\ submitApplication Tour.later Demo.ada
       (snd (rejectApplication Demo.env 2 Demo.admin2 None Demo.ada_pending))
     = (Conflict_application,
        snd (rejectApplication Demo.env 2 Demo.admin2 None Demo.ada_pending))
  /\ succeeded
       (fst (submitApplication Tour.later Demo.ada
               (snd (deleteApplication 2
                       (snd (rejectApplication Demo.env 2 Demo.admin2 None
                               Demo.ada_pending)))))) = true.
Proof.
  assert (F : InstructorApplication_findById 2 Demo.ada_pending
              = Some (mkDocument Demo.ada_application [])) by evaluate.
  assert (S : succeeded (fst (rejectApplication Demo.env 2 Demo.admin2 None
                                Demo.ada_pending)) = true) by evaluate.
  assert (A : forall u, In u (users Demo.ada_pending) ->
                        User.email u <> App.email Demo.ada_application).
  { vm_compute. intros u [<-|[]]. discriminate. }
  assert (J : Joi_submit Demo.ada = None) by evaluate.
  assert (E : normalize (sb_email Demo.ada) = App.email Demo.ada_application)
    by evaluate.
  pose proof (rejected_applicant_can_reapply_only_after_deletion
                (P := Demo.platform) Demo.env 2 Demo.admin2 None
                Demo.ada_pending Demo.ada_application ada_pending_unique F S A)
    as H.
  cbv zeta in H. destruct (H Tour.later Demo.ada J E) as [H1 H2].
  split; [exact ada_pending_unique|]. split; [exact F|]. split; [exact S|].
  split; [exact H1|]. apply H2. evaluate.
Defined.

Lemma hasNextPage_witness :
  let q := mkListQuery (Some "1") (Some "1") None in
  let w := Tour.two_applications in
  (0 < query_limit q)%Z
  /\ (1 <= query_page q)%Z
  /\ safe_integer ((query_page q + 1) * query_limit q)
  /\ safe_integer (Z.of_nat (length (matching_documents q w)))
  /\ exists j,
       getApplications q w = (Responded 200 j, w)
       /\ get "total" j
          = Some (JNum (Z.of_nat (length (matching_documents q w)))).
Proof.
  cbv zeta.
  assert (L : (0 < query_limit (mkListQuery (Some "1") (Some "1") None))%Z)
    by evaluate.
  assert (N : (1 <= query_page (mkListQuery (Some "1") (Some "1") None))%Z)
    by evaluate.
  assert (S1 : safe_integer
                 ((query_page (mkListQuery (Some "1") (Some "1") None) + 1)
                  * query_limit (mkListQuery (Some "1") (Some "1") None)))
    by evaluate.
  assert (S2 : safe_integer
                 (Z.of_nat
                    (length
                       (matching_documents
                          (mkListQuery (Some "1") (Some "1") None)
                          Tour.two_applications)))) by evaluate.
  pose proof (hasNextPage_announces_a_non_empty_page
                (mkListQuery (Some "1") (Some "1") None) Tour.two_applications
                L N S1 S2) as H.
  cbv zeta in H. destruct H as (j & H1 & _ & _ & H4 & _).
  split; [exact L|]. split; [exact N|]. split; [exact S1|].
  split; [exact S2|]. exists j. split; [exact H1|exact H4].
Defined.

